(** * Pool arithmetic, path validity and strategy statistics of the MEV simulator

    A shallow embedding of the inline code of [Arbitrage.hpp]
    ([TokenPair], [ArbitragePath]) and [BaseStrategy.hpp] ([StrategyStats]),
    read in exact arithmetic: a C++ [double] is a rational number or one of
    the three special values, and no operation rounds or overflows. *)

From Stdlib Require Import ZArith QArith Lqa Lia Bool List String.
From Stdlib Require Import Ascii Sorted OrderedTypeEx.
Import ListNotations.

(** ** C++ doubles in exact arithmetic *)

Module Double.

Open Scope Q_scope.

(** A finite value is a rational.  [PInf], [NInf] and [NaN] are what a
    division by zero produces and what arithmetic on such results yields.
    Zero is unsigned. *)
Inductive double : Type :=
| Fin (q : Q)
| PInf
| NInf
| NaN.

Definition is_finite (x : double) : bool :=
  match x with Fin _ => true | _ => false end.

(** Equality of doubles up to the representation of the rational. *)
Definition deq (x y : double) : Prop :=
  match x, y with
  | Fin a, Fin b => a == b
  | PInf, PInf | NInf, NInf | NaN, NaN => True
  | _, _ => False
  end.

Definition Qltb (a b : Q) : bool := negb (Qle_bool b a).

(** The sign of a non-zero rational as an infinity. *)
Definition inf_of_sign (a : Q) : double :=
  if Qltb a 0 then NInf else PInf.

Definition dopp (x : double) : double :=
  match x with
  | Fin a => Fin (- a)
  | PInf => NInf
  | NInf => PInf
  | NaN => NaN
  end.

Definition dadd (x y : double) : double :=
  match x, y with
  | Fin a, Fin b => Fin (a + b)
  | NaN, _ | _, NaN => NaN
  | PInf, NInf | NInf, PInf => NaN
  | PInf, _ | _, PInf => PInf
  | NInf, _ | _, NInf => NInf
  end.

Definition dsub (x y : double) : double := dadd x (dopp y).

Definition dmul (x y : double) : double :=
  match x, y with
  | Fin a, Fin b => Fin (a * b)
  | NaN, _ | _, NaN => NaN
  | Fin a, PInf | PInf, Fin a =>
      if Qeq_bool a 0 then NaN else inf_of_sign a
  | Fin a, NInf | NInf, Fin a =>
      if Qeq_bool a 0 then NaN else dopp (inf_of_sign a)
  | PInf, PInf | NInf, NInf => PInf
  | PInf, NInf | NInf, PInf => NInf
  end.

(** [x / y].  A zero divisor gives an infinity with the sign of the
    dividend, or [NaN] for [0 / 0]. *)
Definition ddiv (x y : double) : double :=
  match x, y with
  | NaN, _ | _, NaN => NaN
  | Fin a, Fin b =>
      if Qeq_bool b 0
      then (if Qeq_bool a 0 then NaN else inf_of_sign a)
      else Fin (a / b)
  | Fin _, PInf | Fin _, NInf => Fin 0
  | PInf, Fin b => if Qltb b 0 then NInf else PInf
  | NInf, Fin b => if Qltb b 0 then PInf else NInf
  | PInf, PInf | PInf, NInf | NInf, PInf | NInf, NInf => NaN
  end.

(** [x == y] of C++: false as soon as one side is [NaN]. *)
Definition deqb (x y : double) : bool :=
  match x, y with
  | Fin a, Fin b => Qeq_bool a b
  | PInf, PInf | NInf, NInf => true
  | _, _ => false
  end.

(** [x < y] of C++: false as soon as one side is [NaN]. *)
Definition dltb (x y : double) : bool :=
  match x, y with
  | Fin a, Fin b => Qltb a b
  | NaN, _ | _, NaN => false
  | NInf, NInf | PInf, _ => false
  | NInf, _ => true
  | Fin _, PInf => true
  | Fin _, NInf => false
  end.

(** [x > y] is [y < x]. *)
Definition dgtb (x y : double) : bool := dltb y x.

(** [x <= y] of C++: false as soon as one side is [NaN]. *)
Definition dleb (x y : double) : bool :=
  match x, y with
  | Fin a, Fin b => Qle_bool a b
  | NaN, _ | _, NaN => false
  | NInf, _ | _, PInf => true
  | _, NInf | PInf, _ => false
  end.

(** [std::min(a, b)] is [(b < a) ? b : a]; [std::max(a, b)] is
    [(a < b) ? b : a]. *)
Definition dmin (a b : double) : double := if dltb b a then b else a.
Definition dmax (a b : double) : double := if dltb a b then b else a.

(** [std::numeric_limits<double>::max()], (2 - 2^-52) * 2^1023. *)
Definition DBL_MAX : double := Fin (inject_Z ((2 ^ 53 - 1) * 2 ^ 971)).

Definition zero : double := Fin 0.
Definition one : double := Fin 1.

(** A [uint64_t] is an integer in [0, 2^64); arithmetic wraps. *)
Definition wrap64 (z : Z) : Z := (z mod 2 ^ 64)%Z.

(** Conversion of a [uint64_t] to [double] (exact). *)
Definition of_u64 (n : Z) : double := Fin (inject_Z n).

End Double.
Import Double.

(** ** Evaluation that records divisions by zero

    A computation yields its value together with a flag that is set when one
    of the divisions it evaluated had a divisor equal to zero. *)

Module Ev.

Definition Ev (A : Type) : Type := (A * bool)%type.

Definition ret {A} (a : A) : Ev A := (a, false).

Definition bind {A B} (m : Ev A) (k : A -> Ev B) : Ev B :=
  let (a, f) := m in
  let (b, g) := k a in
  (b, f || g).

(** The only primitive that can raise the flag. *)
Definition div (x y : double) : Ev double := (ddiv x y, deqb y zero).

Definition value {A} (m : Ev A) : A := fst m.
Definition div_by_zero {A} (m : Ev A) : bool := snd m.

End Ev.
Import Ev.

Declare Scope ev_scope.
Delimit Scope ev_scope with ev.
Notation "x <- m ;; k" := (bind m (fun x => k))
  (at level 61, m at next level, right associativity) : ev_scope.
Open Scope ev_scope.

(** ** Arbitrage.hpp: [TokenPair] *)

Inductive DexType : Type :=
| UNISWAP_V2
| UNISWAP_V3
| SUSHISWAP
| BALANCER
| CURVE
| BANCOR.

Record TokenPair : Type := mkTokenPair {
  token0 : string;
  token1 : string;
  pair_address : string;
  dex_type : DexType;
  reserve0 : double;
  reserve1 : double;
  fee_percent : double;
  price : double
}.

Definition hundred : double := Fin 100.

(** [TokenPair::calculate_price], with the divisions it evaluates. *)
Definition calculate_price_ev (p : TokenPair) : Ev double :=
  if deqb (reserve1 p) zero then ret zero
  else div (reserve0 p) (reserve1 p).

Definition calculate_price (p : TokenPair) : double :=
  value (calculate_price_ev p).

(** [TokenPair::calculate_output_amount], with the divisions it evaluates. *)
Definition calculate_output_amount_ev
    (p : TokenPair) (input_amount : double) (is_token0_to_token1 : bool)
  : Ev double :=
  if is_token0_to_token1 then
    if deqb (reserve0 p) zero || deqb (reserve1 p) zero then ret zero
    else
      q <- div (fee_percent p) hundred ;;
      let fee_multiplier := dsub one q in
      let input_with_fee := dmul input_amount fee_multiplier in
      div (dmul input_with_fee (reserve1 p))
          (dadd (reserve0 p) input_with_fee)
  else
    if deqb (reserve1 p) zero || deqb (reserve0 p) zero then ret zero
    else
      q <- div (fee_percent p) hundred ;;
      let fee_multiplier := dsub one q in
      let input_with_fee := dmul input_amount fee_multiplier in
      div (dmul input_with_fee (reserve0 p))
          (dadd (reserve1 p) input_with_fee).

Definition calculate_output_amount
    (p : TokenPair) (input_amount : double) (is_token0_to_token1 : bool)
  : double :=
  value (calculate_output_amount_ev p input_amount is_token0_to_token1).

(** The reserve of the token a swap pays out. *)
Definition output_reserve (p : TokenPair) (is_token0_to_token1 : bool)
  : double :=
  if is_token0_to_token1 then reserve1 p else reserve0 p.

(** ** Arbitrage.hpp: [ArbitragePath] *)

Record ArbitragePath : Type := mkArbitragePath {
  tokens : list string;
  pairs : list TokenPair;
  expected_profit_eth : double;
  required_input_eth : double;
  gas_estimate : double
}.

(** [ArbitragePath::is_valid]. *)
Definition is_valid (a : ArbitragePath) : bool :=
  (3 <=? List.length (tokens a))%nat
  && (2 <=? List.length (pairs a))%nat
  && dgtb (expected_profit_eth a) zero.

(** The token sequence closes as a cycle: it has a first token, and that
    token is also its last one. *)
Definition closes_cycle (a : ArbitragePath) : Prop :=
  hd_error (tokens a) = Some (last (tokens a) EmptyString).

(** ** BaseStrategy.hpp: [StrategyStats] *)

Record StrategyStats : Type := mkStrategyStats {
  opportunities_detected : Z;
  opportunities_executed : Z;
  successful_executions : Z;
  failed_executions : Z;
  total_profit_eth : double;
  total_gas_used_eth : double;
  avg_execution_time_us : double;
  success_rate : double;
  avg_detection_latency_us : double;
  avg_execution_latency_us : double;
  min_execution_latency_us : double;
  max_execution_latency_us : double;
  min_profit_eth : double;
  max_profit_eth : double;
  avg_profit_eth : double
}.

(** The member initialisers of the struct. *)
Definition initial_stats : StrategyStats :=
  {| opportunities_detected := 0;
     opportunities_executed := 0;
     successful_executions := 0;
     failed_executions := 0;
     total_profit_eth := zero;
     total_gas_used_eth := zero;
     avg_execution_time_us := zero;
     success_rate := zero;
     avg_detection_latency_us := zero;
     avg_execution_latency_us := zero;
     min_execution_latency_us := DBL_MAX;
     max_execution_latency_us := zero;
     min_profit_eth := DBL_MAX;
     max_profit_eth := zero;
     avg_profit_eth := zero |}.

(** [StrategyStats::update_success]: the statements in source order. *)
Definition update_success_ev
    (s : StrategyStats) (profit_eth gas_used_eth execution_time_us : double)
  : Ev StrategyStats :=
  let successful := wrap64 (successful_executions s + 1) in
  let total_profit := dadd (total_profit_eth s) profit_eth in
  let total_gas := dadd (total_gas_used_eth s) gas_used_eth in
  avg_time <-
    div (dadd (dmul (avg_execution_time_us s)
                    (of_u64 (wrap64 (successful - 1))))
              execution_time_us)
        (of_u64 successful) ;;
  avg_profit <- div total_profit (of_u64 successful) ;;
  let min_profit := dmin (min_profit_eth s) profit_eth in
  let max_profit := dmax (max_profit_eth s) profit_eth in
  let min_latency := dmin (min_execution_latency_us s) execution_time_us in
  let max_latency := dmax (max_execution_latency_us s) execution_time_us in
  rate <- div (of_u64 successful) (of_u64 (opportunities_executed s)) ;;
  ret {| opportunities_detected := opportunities_detected s;
         opportunities_executed := opportunities_executed s;
         successful_executions := successful;
         failed_executions := failed_executions s;
         total_profit_eth := total_profit;
         total_gas_used_eth := total_gas;
         avg_execution_time_us := avg_time;
         success_rate := rate;
         avg_detection_latency_us := avg_detection_latency_us s;
         avg_execution_latency_us := avg_execution_latency_us s;
         min_execution_latency_us := min_latency;
         max_execution_latency_us := max_latency;
         min_profit_eth := min_profit;
         max_profit_eth := max_profit;
         avg_profit_eth := avg_profit |}.

Definition update_success
    (s : StrategyStats) (profit_eth gas_used_eth execution_time_us : double)
  : StrategyStats :=
  value (update_success_ev s profit_eth gas_used_eth execution_time_us).

(** [StrategyStats::update_failure]: the statements in source order. *)
Definition update_failure_ev (s : StrategyStats) (execution_time_us : double)
  : Ev StrategyStats :=
  let failed := wrap64 (failed_executions s + 1) in
  avg_time <-
    div (dadd (dmul (avg_execution_time_us s)
                    (of_u64 (wrap64 (opportunities_executed s - 1))))
              execution_time_us)
        (of_u64 (opportunities_executed s)) ;;
  rate <- div (of_u64 (successful_executions s))
              (of_u64 (opportunities_executed s)) ;;
  let min_latency := dmin (min_execution_latency_us s) execution_time_us in
  let max_latency := dmax (max_execution_latency_us s) execution_time_us in
  ret {| opportunities_detected := opportunities_detected s;
         opportunities_executed := opportunities_executed s;
         successful_executions := successful_executions s;
         failed_executions := failed;
         total_profit_eth := total_profit_eth s;
         total_gas_used_eth := total_gas_used_eth s;
         avg_execution_time_us := avg_time;
         success_rate := rate;
         avg_detection_latency_us := avg_detection_latency_us s;
         avg_execution_latency_us := avg_execution_latency_us s;
         min_execution_latency_us := min_latency;
         max_execution_latency_us := max_latency;
         min_profit_eth := min_profit_eth s;
         max_profit_eth := max_profit_eth s;
         avg_profit_eth := avg_profit_eth s |}.

Definition update_failure (s : StrategyStats) (execution_time_us : double)
  : StrategyStats :=
  value (update_failure_ev s execution_time_us).

(** [StrategyStats::reset]: every field is assigned a constant. *)
Definition reset (s : StrategyStats) : StrategyStats :=
  {| opportunities_detected := 0;
     opportunities_executed := 0;
     successful_executions := 0;
     failed_executions := 0;
     total_profit_eth := zero;
     total_gas_used_eth := zero;
     avg_execution_time_us := zero;
     success_rate := zero;
     avg_detection_latency_us := zero;
     avg_execution_latency_us := zero;
     min_execution_latency_us := DBL_MAX;
     max_execution_latency_us := zero;
     min_profit_eth := DBL_MAX;
     max_profit_eth := zero;
     avg_profit_eth := zero |}.

(** ** config.hpp: [StrategyConfig], and the strategy object holding the
    statistics *)

Module Config.

Record StrategyConfig : Type := mkStrategyConfig {
  enabled : bool;
  min_profit_eth : double;
  max_slippage_percent : double;
  target_dexes : list string;
  gas_limit : Z;
  max_gas_price_gwei : Z;
  bundle_timeout_ms : Z;
  frontrun_gas_multiplier : double;
  backrun_gas_multiplier : double;
  priority_fee_gwei : double;
  min_transaction_value_eth : double;
  target_protocols : list string
}.

End Config.

(** The data members of [BaseStrategy] next to which the statistics live. *)
Record BaseStrategy : Type := mkBaseStrategy {
  name_ : string;
  config_ : Config.StrategyConfig;
  enabled_ : bool;
  stats_ : StrategyStats
}.

(** The call [stats_.reset()] on a strategy object: a member function of
    [StrategyStats] assigns fields of the [stats_] member only. *)
Definition reset_stats_member (b : BaseStrategy) : BaseStrategy :=
  {| name_ := name_ b;
     config_ := config_ b;
     enabled_ := enabled_ b;
     stats_ := reset (stats_ b) |}.

(** ** Sequences of execution attempts *)

Inductive attempt : Type :=
| Succeeded (profit_eth gas_used_eth execution_time_us : double)
| Failed (execution_time_us : double).

Definition latency_of (a : attempt) : double :=
  match a with
  | Succeeded _ _ t => t
  | Failed t => t
  end.

(** Modelled from the spec: the code of [BaseStrategy] that drives the
    statistics is not part of the sources.  One execution attempt counts
    itself in [opportunities_executed] (the attempt counter), which is
    [count_attempt], and then invokes exactly one of [update_success] and
    [update_failure]. *)
Definition count_attempt (s : StrategyStats) : StrategyStats :=
  {| opportunities_detected := opportunities_detected s;
     opportunities_executed := wrap64 (opportunities_executed s + 1);
     successful_executions := successful_executions s;
     failed_executions := failed_executions s;
     total_profit_eth := total_profit_eth s;
     total_gas_used_eth := total_gas_used_eth s;
     avg_execution_time_us := avg_execution_time_us s;
     success_rate := success_rate s;
     avg_detection_latency_us := avg_detection_latency_us s;
     avg_execution_latency_us := avg_execution_latency_us s;
     min_execution_latency_us := min_execution_latency_us s;
     max_execution_latency_us := max_execution_latency_us s;
     min_profit_eth := min_profit_eth s;
     max_profit_eth := max_profit_eth s;
     avg_profit_eth := avg_profit_eth s |}.

Definition record_attempt (s : StrategyStats) (a : attempt) : StrategyStats :=
  match a with
  | Succeeded p g t => update_success (count_attempt s) p g t
  | Failed t => update_failure (count_attempt s) t
  end.

Definition record_attempts (s : StrategyStats) (l : list attempt)
  : StrategyStats :=
  fold_left record_attempt l s.

(** Sum and arithmetic mean of a list of doubles. *)
Definition dsum (l : list double) : double := fold_left dadd l zero.

Definition dmean (l : list double) : double :=
  ddiv (dsum l) (of_u64 (Z.of_nat (List.length l))).

(** Sequences of failed, and of successful, attempts with rational
    latencies. *)
Definition failures (ts : list Q) : list attempt :=
  map (fun t => Failed (Fin t)) ts.

(** Sum of rationals, accumulated from the left as [dsum] does. *)
Definition Qsum (ts : list Q) (a : Q) : Q := fold_left Qplus ts a.

(** After [k] attempts whose latencies sum to [S], the running average
    times [k] is [S]. *)
Definition mean_so_far (s : StrategyStats) (k : nat) (S : Q) : Prop :=
  opportunities_executed s = Z.of_nat k
  /\ exists q, avg_execution_time_us s = Fin q
               /\ (q * inject_Z (Z.of_nat k) == S)%Q.

Definition successes (l : list (double * double * Q)) : list attempt :=
  map (fun x => Succeeded (fst (fst x)) (snd (fst x)) (Fin (snd x))) l.

(** The same for [update_success], which counts in
    [successful_executions]. *)
Definition success_mean_so_far (s : StrategyStats) (k : nat) (S : Q) : Prop :=
  successful_executions s = Z.of_nat k
  /\ exists q, avg_execution_time_us s = Fin q
               /\ (q * inject_Z (Z.of_nat k) == S)%Q.

(** ** The constant-product formula on rationals *)

(** [a] is the input after the fee, [rin] and [rout] are the reserves of
    the input and of the output token. *)
Definition cp_out (rin rout a : Q) : Q := ((a * rout) / (rin + a))%Q.

(** The factor applied to the input for a fee of [f] percent. *)
Definition fee_mult (f : Q) : Q := (1 - f / 100)%Q.

(** A pool whose reserves [r0], [r1] are positive rationals and whose fee
    [f] lies in [0, 100). *)
Record live_pool (p : TokenPair) (r0 r1 f : Q) : Prop := {
  lp_reserve0 : reserve0 p = Fin r0;
  lp_reserve1 : reserve1 p = Fin r1;
  lp_fee : fee_percent p = Fin f;
  lp_r0_pos : (0 < r0)%Q;
  lp_r1_pos : (0 < r1)%Q;
  lp_fee_lo : (0 <= f)%Q;
  lp_fee_hi : (f < 100)%Q
}.

(** Reserve of the token paid in, and of the token paid out. *)
Definition reserve_in (r0 r1 : Q) (dir : bool) : Q := if dir then r0 else r1.
Definition reserve_out (r0 r1 : Q) (dir : bool) : Q := if dir then r1 else r0.

(** ** Sample values *)

(** A pool with reserves (1000, 1000) and a fee of 0.3 percent. *)
Definition sample_pair : TokenPair :=
  {| token0 := "A"; token1 := "B"; pair_address := "0xAB";
     dex_type := UNISWAP_V2;
     reserve0 := Fin 1000; reserve1 := Fin 1000;
     fee_percent := Fin (3 # 10); price := Fin 1 |}.

(** A pool without token0. *)
Definition drained_pair : TokenPair :=
  {| token0 := "A"; token1 := "B"; pair_address := "0xAB";
     dex_type := UNISWAP_V2;
     reserve0 := Fin 0; reserve1 := Fin 1000;
     fee_percent := Fin (3 # 10); price := Fin 0 |}.

(** Three tokens, two pools, positive profit, and the last token differs
    from the first. *)
Definition open_path : ArbitragePath :=
  {| tokens := ["A"; "B"; "C"]%string;
     pairs := [sample_pair; sample_pair];
     expected_profit_eth := Fin 1;
     required_input_eth := Fin 10;
     gas_estimate := Fin 0 |}.

Definition closed_path : ArbitragePath :=
  {| tokens := ["A"; "B"; "A"]%string;
     pairs := [sample_pair; sample_pair];
     expected_profit_eth := Fin 1;
     required_input_eth := Fin 10;
     gas_estimate := Fin 0 |}.

(** One failed attempt of latency 10 followed by one successful attempt of
    latency 20. *)
Definition mixed_attempts : list attempt :=
  [Failed (Fin 10); Succeeded (Fin 1) (Fin 0) (Fin 20)].

(** ** Further definitions on pools and statistics *)

(** The pool with the two tokens exchanged. *)
Definition flip_pair (p : TokenPair) : TokenPair :=
  {| token0 := token1 p; token1 := token0 p;
     pair_address := pair_address p; dex_type := dex_type p;
     reserve0 := reserve1 p; reserve1 := reserve0 p;
     fee_percent := fee_percent p; price := price p |}.

(** Both reserves are positive rationals. *)
Record live_pool_reserves (p : TokenPair) (r0 r1 : Q) : Prop := {
  lr_reserve0 : reserve0 p = Fin r0;
  lr_reserve1 : reserve1 p = Fin r1;
  lr_r0_pos : (0 < r0)%Q;
  lr_r1_pos : (0 < r1)%Q
}.

(** One update of the statistics, as the two member functions are called. *)
Definition apply_update (s : StrategyStats) (a : attempt) : StrategyStats :=
  match a with
  | Succeeded p g t => update_success s p g t
  | Failed t => update_failure s t
  end.

Definition apply_updates (s : StrategyStats) (l : list attempt)
  : StrategyStats :=
  fold_left apply_update l s.

Definition is_success (a : attempt) : bool :=
  match a with Succeeded _ _ _ => true | Failed _ => false end.

(** The profits of the successful attempts, in order. *)
Fixpoint profits_of (l : list attempt) : list double :=
  match l with
  | [] => []
  | Succeeded p _ _ :: l' => p :: profits_of l'
  | Failed _ :: l' => profits_of l'
  end.

Definition count_successes (l : list attempt) : nat :=
  List.length (filter is_success l).

Definition count_failures (l : list attempt) : nat :=
  List.length (filter (fun a => negb (is_success a)) l).

Definition u64_range (z : Z) : Prop := (0 <= z < 2 ^ 64)%Z.

(** [avg_profit_eth] is the accumulated profit over the success count. *)
Definition avg_profit_consistent (s : StrategyStats) : Prop :=
  avg_profit_eth s
  = ddiv (total_profit_eth s) (of_u64 (successful_executions s)).

(** ** config.hpp: the configuration structures *)

(** A [std::map<std::string, V>]: the entries in increasing key order. *)
Module StrMap.

Definition t (V : Type) : Type := list (string * V).

Fixpoint find {V} (k : string) (m : t V) : option V :=
  match m with
  | [] => None
  | (k', v) :: r => if String.eqb k k' then Some v else find k r
  end.

Fixpoint insert {V} (k : string) (v : V) (m : t V) : t V :=
  match m with
  | [] => [(k, v)]
  | (k', v') :: r =>
      match String.compare k k' with
      | Lt => (k, v) :: m
      | Eq => (k, v) :: r
      | Gt => (k', v') :: insert k v r
      end
  end.

(** [m[k]]: the entry for [k], created with the default value [d] when
    absent. *)
Definition at_default {V} (k : string) (d : V) (m : t V) : t V * V :=
  match find k m with
  | Some v => (m, v)
  | None => (insert k d m, d)
  end.

Definition map_values {V} (f : V -> V) (m : t V) : t V :=
  map (fun kv => (fst kv, f (snd kv))) m.

Definition keys {V} (m : t V) : list string := map fst m.

End StrMap.

Inductive SimulationMode : Type :=
| REALTIME
| HISTORICAL
| SYNTHETIC.

Definition SimulationMode_eqb (a b : SimulationMode) : bool :=
  match a, b with
  | REALTIME, REALTIME | HISTORICAL, HISTORICAL | SYNTHETIC, SYNTHETIC => true
  | _, _ => false
  end.

(** [struct SimulationConfig], the command-line configuration. *)
Module Cli.
Record SimulationConfig : Type := mkSimulationConfig {
  mode : SimulationMode;
  config_file : string;
  enabled_strategies : list string;
  start_block : Z;
  block_count : Z;
  duration_seconds : Z;
  tx_rate : Z;
  enable_visualization : bool;
  enable_profiling : bool;
  export_formats : list string;
  fork_url : string;
  fork_block : Z
}.

(** The member initialisers. *)
Definition default : SimulationConfig :=
  {| mode := REALTIME; config_file := ""; enabled_strategies := [];
     start_block := 0; block_count := 0; duration_seconds := 0;
     tx_rate := 0; enable_visualization := false;
     enable_profiling := false; export_formats := [];
     fork_url := ""; fork_block := 0 |}.
End Cli.

(** The member initialisers of [StrategyConfig]. *)
Definition default_strategy : Config.StrategyConfig :=
  {| Config.enabled := false;
     Config.min_profit_eth := Fin (1 # 100);
     Config.max_slippage_percent := Fin (1 # 2);
     Config.target_dexes := [];
     Config.gas_limit := 500000;
     Config.max_gas_price_gwei := 100;
     Config.bundle_timeout_ms := 1000;
     Config.frontrun_gas_multiplier := Fin (11 # 10);
     Config.backrun_gas_multiplier := Fin (105 # 100);
     Config.priority_fee_gwei := Fin 2;
     Config.min_transaction_value_eth := Fin (1 # 10);
     Config.target_protocols := [] |}.

Definition set_enabled (b : bool) (s : Config.StrategyConfig)
  : Config.StrategyConfig :=
  {| Config.enabled := b;
     Config.min_profit_eth := Config.min_profit_eth s;
     Config.max_slippage_percent := Config.max_slippage_percent s;
     Config.target_dexes := Config.target_dexes s;
     Config.gas_limit := Config.gas_limit s;
     Config.max_gas_price_gwei := Config.max_gas_price_gwei s;
     Config.bundle_timeout_ms := Config.bundle_timeout_ms s;
     Config.frontrun_gas_multiplier := Config.frontrun_gas_multiplier s;
     Config.backrun_gas_multiplier := Config.backrun_gas_multiplier s;
     Config.priority_fee_gwei := Config.priority_fee_gwei s;
     Config.min_transaction_value_eth := Config.min_transaction_value_eth s;
     Config.target_protocols := Config.target_protocols s |}.

(** The nested anonymous structures, one module each, named after the
    member they are the type of. *)

Module SyntheticData.
Record t : Type := mk {
  enabled : bool;
  transaction_rate : Z;
  duration_seconds : Z
}.
End SyntheticData.

Module SimulationSettings.
Record t : Type := mk {
  mode : SimulationMode;
  mempool_emulation : bool;
  block_simulation : bool;
  historical_replay : bool;
  synthetic_data : SyntheticData.t
}.
End SimulationSettings.

Module PerformanceConfig.
Record t : Type := mk {
  thread_pool_size : Z;
  queue_size : Z;
  latency_target_us : Z;
  max_concurrent_requests : Z;
  enable_simd : bool;
  memory_mapping : bool
}.
End PerformanceConfig.

Module Ethereum.
Record t : Type := mk {
  rpc_url : string;
  chain_id : Z;
  block_time_seconds : Z
}.
End Ethereum.

Module Flashbots.
Record t : Type := mk {
  relay_url : string;
  bundle_timeout_ms : Z;
  max_bundle_size : Z
}.
End Flashbots.

Module Fork.
Record t : Type := mk {
  enabled : bool;
  url : string;
  block_number : Z
}.
End Fork.

Module BlockchainConfig.
Record t : Type := mk {
  ethereum : Ethereum.t;
  flashbots : Flashbots.t;
  fork : Fork.t
}.
End BlockchainConfig.

Module GasOptimization.
Record t : Type := mk {
  enabled : bool;
  base_fee_multiplier : double;
  priority_fee_strategy : string;
  max_gas_price_gwei : Z
}.
End GasOptimization.

Module Slippage.
Record t : Type := mk {
  default_percent : double;
  max_percent : double;
  dynamic_adjustment : bool
}.
End Slippage.

Module BundleSettings.
Record t : Type := mk {
  max_transactions : Z;
  timeout_ms : Z;
  retry_attempts : Z
}.
End BundleSettings.

Module TradingConfig.
Record t : Type := mk {
  gas_optimization : GasOptimization.t;
  slippage : Slippage.t;
  bundle : BundleSettings.t
}.
End TradingConfig.

Module MetricsSettings.
Record t : Type := mk {
  enabled : bool;
  port : Z;
  export_interval_seconds : Z
}.
End MetricsSettings.

Module LoggingSettings.
Record t : Type := mk {
  level : string;
  file : string;
  max_file_size_mb : Z;
  max_files : Z
}.
End LoggingSettings.

Module Visualization.
Record t : Type := mk {
  enabled : bool;
  update_interval_ms : Z;
  export_formats : list string
}.
End Visualization.

Module MonitoringConfig.
Record t : Type := mk {
  metrics : MetricsSettings.t;
  logging : LoggingSettings.t;
  visualization : Visualization.t
}.
End MonitoringConfig.

Module Storage.
Record t : Type := mk {
  type : string;
  directory : string;
  compression : bool
}.
End Storage.

Module Cache.
Record t : Type := mk {
  enabled : bool;
  ttl_seconds : Z;
  max_size_mb : Z
}.
End Cache.

Module ExportSettings.
Record t : Type := mk {
  formats : list string;
  include_metrics : bool;
  timestamp_format : string
}.
End ExportSettings.

Module DataConfig.
Record t : Type := mk {
  storage : Storage.t;
  cache : Cache.t;
  export_settings : ExportSettings.t
}.
End DataConfig.

Module RateLimiting.
Record t : Type := mk {
  enabled : bool;
  requests_per_second : Z;
  burst_size : Z
}.
End RateLimiting.

Module Validation.
Record t : Type := mk {
  enable_ssl_verification : bool;
  max_request_size_mb : Z;
  timeout_ms : Z
}.
End Validation.

Module SecurityConfig.
Record t : Type := mk {
  rate_limiting : RateLimiting.t;
  validation : Validation.t
}.
End SecurityConfig.

(** The result of a call that may throw [std::runtime_error]. *)
Inductive result (A : Type) : Type :=
| Ok (a : A)
| Throw (what : string).
Arguments Ok {A} a.
Arguments Throw {A} what.

(** [struct StrategiesConfig]: the one member [strategies]. *)
Module StrategiesConfig.

#[local] Open Scope string_scope.

Definition t : Type := StrMap.t Config.StrategyConfig.

(** [get_strategy(name)], the overload on a mutable object: [strategies[name]]. *)
Definition get_strategy_mut (strategies : t) (name : string)
  : t * Config.StrategyConfig :=
  StrMap.at_default name default_strategy strategies.

(** [get_strategy(name) const]. *)
Definition get_strategy (strategies : t) (name : string)
  : result Config.StrategyConfig :=
  match StrMap.find name strategies with
  | None => Throw ("Strategy not found: " ++ name)
  | Some s => Ok s
  end.

(** [is_strategy_enabled(name)]. *)
Definition is_strategy_enabled (strategies : t) (name : string) : bool :=
  match StrMap.find name strategies with
  | None => false
  | Some s => Config.enabled s
  end.

End StrategiesConfig.

(** [struct Config]. *)
Module MainConfig.
Record Config : Type := mk {
  simulation : SimulationSettings.t;
  performance : PerformanceConfig.t;
  strategies : StrategiesConfig.t;
  blockchain : BlockchainConfig.t;
  trading : TradingConfig.t;
  monitoring : MonitoringConfig.t;
  data : DataConfig.t;
  security : SecurityConfig.t
}.
End MainConfig.

(** ** config.cpp: [ConfigManager] *)

Module ConfigManager.

Import MainConfig.
#[local] Open Scope string_scope.

(** [strategies[strategy_name].enabled = true]. *)
Definition enable_strategy (m : StrategiesConfig.t) (strategy_name : string)
  : StrategiesConfig.t :=
  let (m', strategy) := StrategiesConfig.get_strategy_mut m strategy_name in
  StrMap.insert strategy_name (set_enabled true strategy) m'.

(** The block of [override_config] on the enabled strategies: all are
    disabled, then the named ones are enabled in order. *)
Definition override_strategies
    (m : StrategiesConfig.t) (enabled_strategies : list string)
  : StrategiesConfig.t :=
  match enabled_strategies with
  | [] => m
  | _ =>
      fold_left enable_strategy enabled_strategies
                (StrMap.map_values (set_enabled false) m)
  end.

Definition override_mode (s : SimulationSettings.t) (cli : Cli.SimulationConfig)
  : SimulationSettings.t :=
  if SimulationMode_eqb (Cli.mode cli) REALTIME then s
  else
    {| SimulationSettings.mode := Cli.mode cli;
       SimulationSettings.mempool_emulation :=
         SimulationSettings.mempool_emulation s;
       SimulationSettings.block_simulation :=
         SimulationSettings.block_simulation s;
       SimulationSettings.historical_replay :=
         SimulationSettings.historical_replay s;
       SimulationSettings.synthetic_data :=
         SimulationSettings.synthetic_data s |}.

Definition override_fork (b : BlockchainConfig.t) (cli : Cli.SimulationConfig)
  : BlockchainConfig.t :=
  if String.eqb (Cli.fork_url cli) "" then b
  else
    {| BlockchainConfig.ethereum := BlockchainConfig.ethereum b;
       BlockchainConfig.flashbots := BlockchainConfig.flashbots b;
       BlockchainConfig.fork :=
         {| Fork.enabled := true;
            Fork.url := Cli.fork_url cli;
            Fork.block_number := Cli.fork_block cli |} |}.

Definition override_synthetic
    (s : SimulationSettings.t) (cli : Cli.SimulationConfig)
  : SimulationSettings.t :=
  let sd := SimulationSettings.synthetic_data s in
  let duration :=
    if (0 <? Cli.duration_seconds cli)%Z then Cli.duration_seconds cli
    else SyntheticData.duration_seconds sd in
  let rate :=
    if (0 <? Cli.tx_rate cli)%Z then Cli.tx_rate cli
    else SyntheticData.transaction_rate sd in
  {| SimulationSettings.mode := SimulationSettings.mode s;
     SimulationSettings.mempool_emulation :=
       SimulationSettings.mempool_emulation s;
     SimulationSettings.block_simulation :=
       SimulationSettings.block_simulation s;
     SimulationSettings.historical_replay :=
       SimulationSettings.historical_replay s;
     SimulationSettings.synthetic_data :=
       {| SyntheticData.enabled := SyntheticData.enabled sd;
          SyntheticData.transaction_rate := rate;
          SyntheticData.duration_seconds := duration |} |}.

(** [ConfigManager::override_config]. *)
Definition override_config (config : Config) (cli_config : Cli.SimulationConfig)
  : Config :=
  {| simulation :=
       override_synthetic (override_mode (simulation config) cli_config)
                          cli_config;
     performance := performance config;
     strategies :=
       override_strategies (strategies config)
                           (Cli.enabled_strategies cli_config);
     blockchain := override_fork (blockchain config) cli_config;
     trading := trading config;
     monitoring := monitoring config;
     data := data config;
     security := security config |}.

(** [ConfigManager::get_strategy_config]. *)
Definition get_strategy_config (config : Config) (strategy_name : string)
  : result Config.StrategyConfig :=
  StrategiesConfig.get_strategy (strategies config) strategy_name.

(** [ConfigManager::is_strategy_enabled]. *)
Definition is_strategy_enabled (config : Config) (strategy_name : string)
  : bool :=
  StrategiesConfig.is_strategy_enabled (strategies config) strategy_name.

(** [ConfigManager::get_enabled_strategies]. *)
Definition get_enabled_strategies (config : Config) : list string :=
  map fst (filter (fun kv => Config.enabled (snd kv)) (strategies config)).

(** The checks of [validate] on one enabled strategy: the message thrown,
    if any. *)
Definition strategy_error (name : string) (strategy : Config.StrategyConfig)
  : option string :=
  if dltb (Config.min_profit_eth strategy) zero then
    Some ("Strategy " ++ name ++ ": min_profit_eth must be >= 0")
  else if dltb (Config.max_slippage_percent strategy) zero
          || dgtb (Config.max_slippage_percent strategy) hundred then
    Some ("Strategy " ++ name
          ++ ": max_slippage_percent must be between 0 and 100")
  else if (Config.gas_limit strategy =? 0)%Z then
    Some ("Strategy " ++ name ++ ": gas_limit must be > 0")
  else None.

(** The loop of [validate] over the strategies: the first message thrown. *)
Fixpoint strategies_error (m : StrategiesConfig.t) : option string :=
  match m with
  | [] => None
  | (name, strategy) :: rest =>
      if Config.enabled strategy then
        match strategy_error name strategy with
        | Some what => Some what
        | None => strategies_error rest
        end
      else strategies_error rest
  end.

(** [ConfigManager::validate]: [None] when it returns, the message of the
    [std::runtime_error] when it throws. *)
Definition validate (config : Config) : option string :=
  let sd := SimulationSettings.synthetic_data (simulation config) in
  if SyntheticData.enabled sd && (SyntheticData.transaction_rate sd =? 0)%Z
  then Some "Transaction rate must be > 0 when synthetic data is enabled"
  else if (PerformanceConfig.thread_pool_size (performance config) =? 0)%Z
  then Some "Thread pool size must be > 0"
  else if (PerformanceConfig.queue_size (performance config) =? 0)%Z
  then Some "Queue size must be > 0"
  else if String.eqb
            (Ethereum.rpc_url (BlockchainConfig.ethereum (blockchain config)))
            ""
  then Some "Ethereum RPC URL is required"
  else
    match strategies_error (strategies config) with
    | Some what => Some what
    | None =>
        let metrics := MonitoringConfig.metrics (monitoring config) in
        if MetricsSettings.enabled metrics
           && (MetricsSettings.port metrics =? 0)%Z
        then Some "Metrics port must be > 0 when metrics are enabled"
        else None
    end.

End ConfigManager.

(** The keys of the map increase strictly. *)
Definition key_lt (a b : string) : Prop := String.compare a b = Lt.

Definition sorted_map {V} (m : StrMap.t V) : Prop :=
  StronglySorted key_lt (StrMap.keys m).

(** ** main.cpp: [parse_arguments] *)

Module Args.

#[local] Open Scope string_scope.

(** [s.find(c)]: the position of the first [c], [None] for [npos]. *)
Fixpoint find (c : ascii) (s : string) : option nat :=
  match s with
  | EmptyString => None
  | String a r => if Ascii.eqb a c then Some 0%nat else option_map S (find c r)
  end.

(** [s.substr(0, n)] and [s.erase(0, n)]. *)
Definition substr0 (n : nat) (s : string) : string := String.substring 0 n s.

Definition erase0 (n : nat) (s : string) : string :=
  String.substring n (String.length s - n) s.

(** The [while] loop that cuts [strategies] at its commas; every turn
    removes at least one character, so [fuel] above the length is never
    used up. *)
Fixpoint split_loop (fuel : nat) (strategies : string) (out : list string)
  : list string * string :=
  match fuel with
  | O => (out, strategies)
  | S fuel' =>
      match find "," strategies with
      | Some pos =>
          split_loop fuel' (erase0 (pos + 1) strategies)
                     (out ++ [substr0 pos strategies])
      | None => (out, strategies)
      end
  end.

(** The handling of the value of [--strategies]: the pieces are appended
    to [enabled_strategies]. *)
Definition add_strategies (enabled_strategies : list string)
    (strategies : string) : list string :=
  let (out, rest) :=
    split_loop (S (String.length strategies)) strategies enabled_strategies in
  if String.eqb rest "" then out else out ++ [rest].

(** How [parse_arguments] ends: it returns the configuration, prints the
    usage and calls [exit], or throws. *)
Inductive outcome : Type :=
| Parsed (config : Cli.SimulationConfig)
| Exit (status : Z)
| Raised (what : string).

Definition has_value (rest : list string) : bool :=
  match rest with [] => false | _ :: _ => true end.

(** Assignment to one member of the command-line configuration. *)
Definition set_mode (c : Cli.SimulationConfig) (v : SimulationMode)
  : Cli.SimulationConfig :=
  {| Cli.mode := v;
     Cli.config_file := Cli.config_file c;
     Cli.enabled_strategies := Cli.enabled_strategies c;
     Cli.start_block := Cli.start_block c;
     Cli.block_count := Cli.block_count c;
     Cli.duration_seconds := Cli.duration_seconds c;
     Cli.tx_rate := Cli.tx_rate c;
     Cli.enable_visualization := Cli.enable_visualization c;
     Cli.enable_profiling := Cli.enable_profiling c;
     Cli.export_formats := Cli.export_formats c;
     Cli.fork_url := Cli.fork_url c;
     Cli.fork_block := Cli.fork_block c |}.

Definition set_config_file (c : Cli.SimulationConfig) (v : string)
  : Cli.SimulationConfig :=
  {| Cli.mode := Cli.mode c;
     Cli.config_file := v;
     Cli.enabled_strategies := Cli.enabled_strategies c;
     Cli.start_block := Cli.start_block c;
     Cli.block_count := Cli.block_count c;
     Cli.duration_seconds := Cli.duration_seconds c;
     Cli.tx_rate := Cli.tx_rate c;
     Cli.enable_visualization := Cli.enable_visualization c;
     Cli.enable_profiling := Cli.enable_profiling c;
     Cli.export_formats := Cli.export_formats c;
     Cli.fork_url := Cli.fork_url c;
     Cli.fork_block := Cli.fork_block c |}.

Definition set_enabled_strategies (c : Cli.SimulationConfig) (v : list string)
  : Cli.SimulationConfig :=
  {| Cli.mode := Cli.mode c;
     Cli.config_file := Cli.config_file c;
     Cli.enabled_strategies := v;
     Cli.start_block := Cli.start_block c;
     Cli.block_count := Cli.block_count c;
     Cli.duration_seconds := Cli.duration_seconds c;
     Cli.tx_rate := Cli.tx_rate c;
     Cli.enable_visualization := Cli.enable_visualization c;
     Cli.enable_profiling := Cli.enable_profiling c;
     Cli.export_formats := Cli.export_formats c;
     Cli.fork_url := Cli.fork_url c;
     Cli.fork_block := Cli.fork_block c |}.

Definition set_start_block (c : Cli.SimulationConfig) (v : Z)
  : Cli.SimulationConfig :=
  {| Cli.mode := Cli.mode c;
     Cli.config_file := Cli.config_file c;
     Cli.enabled_strategies := Cli.enabled_strategies c;
     Cli.start_block := v;
     Cli.block_count := Cli.block_count c;
     Cli.duration_seconds := Cli.duration_seconds c;
     Cli.tx_rate := Cli.tx_rate c;
     Cli.enable_visualization := Cli.enable_visualization c;
     Cli.enable_profiling := Cli.enable_profiling c;
     Cli.export_formats := Cli.export_formats c;
     Cli.fork_url := Cli.fork_url c;
     Cli.fork_block := Cli.fork_block c |}.

Definition set_block_count (c : Cli.SimulationConfig) (v : Z)
  : Cli.SimulationConfig :=
  {| Cli.mode := Cli.mode c;
     Cli.config_file := Cli.config_file c;
     Cli.enabled_strategies := Cli.enabled_strategies c;
     Cli.start_block := Cli.start_block c;
     Cli.block_count := v;
     Cli.duration_seconds := Cli.duration_seconds c;
     Cli.tx_rate := Cli.tx_rate c;
     Cli.enable_visualization := Cli.enable_visualization c;
     Cli.enable_profiling := Cli.enable_profiling c;
     Cli.export_formats := Cli.export_formats c;
     Cli.fork_url := Cli.fork_url c;
     Cli.fork_block := Cli.fork_block c |}.

Definition set_duration_seconds (c : Cli.SimulationConfig) (v : Z)
  : Cli.SimulationConfig :=
  {| Cli.mode := Cli.mode c;
     Cli.config_file := Cli.config_file c;
     Cli.enabled_strategies := Cli.enabled_strategies c;
     Cli.start_block := Cli.start_block c;
     Cli.block_count := Cli.block_count c;
     Cli.duration_seconds := v;
     Cli.tx_rate := Cli.tx_rate c;
     Cli.enable_visualization := Cli.enable_visualization c;
     Cli.enable_profiling := Cli.enable_profiling c;
     Cli.export_formats := Cli.export_formats c;
     Cli.fork_url := Cli.fork_url c;
     Cli.fork_block := Cli.fork_block c |}.

Definition set_tx_rate (c : Cli.SimulationConfig) (v : Z)
  : Cli.SimulationConfig :=
  {| Cli.mode := Cli.mode c;
     Cli.config_file := Cli.config_file c;
     Cli.enabled_strategies := Cli.enabled_strategies c;
     Cli.start_block := Cli.start_block c;
     Cli.block_count := Cli.block_count c;
     Cli.duration_seconds := Cli.duration_seconds c;
     Cli.tx_rate := v;
     Cli.enable_visualization := Cli.enable_visualization c;
     Cli.enable_profiling := Cli.enable_profiling c;
     Cli.export_formats := Cli.export_formats c;
     Cli.fork_url := Cli.fork_url c;
     Cli.fork_block := Cli.fork_block c |}.

Definition set_enable_visualization (c : Cli.SimulationConfig) (v : bool)
  : Cli.SimulationConfig :=
  {| Cli.mode := Cli.mode c;
     Cli.config_file := Cli.config_file c;
     Cli.enabled_strategies := Cli.enabled_strategies c;
     Cli.start_block := Cli.start_block c;
     Cli.block_count := Cli.block_count c;
     Cli.duration_seconds := Cli.duration_seconds c;
     Cli.tx_rate := Cli.tx_rate c;
     Cli.enable_visualization := v;
     Cli.enable_profiling := Cli.enable_profiling c;
     Cli.export_formats := Cli.export_formats c;
     Cli.fork_url := Cli.fork_url c;
     Cli.fork_block := Cli.fork_block c |}.

Definition set_enable_profiling (c : Cli.SimulationConfig) (v : bool)
  : Cli.SimulationConfig :=
  {| Cli.mode := Cli.mode c;
     Cli.config_file := Cli.config_file c;
     Cli.enabled_strategies := Cli.enabled_strategies c;
     Cli.start_block := Cli.start_block c;
     Cli.block_count := Cli.block_count c;
     Cli.duration_seconds := Cli.duration_seconds c;
     Cli.tx_rate := Cli.tx_rate c;
     Cli.enable_visualization := Cli.enable_visualization c;
     Cli.enable_profiling := v;
     Cli.export_formats := Cli.export_formats c;
     Cli.fork_url := Cli.fork_url c;
     Cli.fork_block := Cli.fork_block c |}.

Definition set_export_formats (c : Cli.SimulationConfig) (v : list string)
  : Cli.SimulationConfig :=
  {| Cli.mode := Cli.mode c;
     Cli.config_file := Cli.config_file c;
     Cli.enabled_strategies := Cli.enabled_strategies c;
     Cli.start_block := Cli.start_block c;
     Cli.block_count := Cli.block_count c;
     Cli.duration_seconds := Cli.duration_seconds c;
     Cli.tx_rate := Cli.tx_rate c;
     Cli.enable_visualization := Cli.enable_visualization c;
     Cli.enable_profiling := Cli.enable_profiling c;
     Cli.export_formats := v;
     Cli.fork_url := Cli.fork_url c;
     Cli.fork_block := Cli.fork_block c |}.

Definition set_fork_url (c : Cli.SimulationConfig) (v : string)
  : Cli.SimulationConfig :=
  {| Cli.mode := Cli.mode c;
     Cli.config_file := Cli.config_file c;
     Cli.enabled_strategies := Cli.enabled_strategies c;
     Cli.start_block := Cli.start_block c;
     Cli.block_count := Cli.block_count c;
     Cli.duration_seconds := Cli.duration_seconds c;
     Cli.tx_rate := Cli.tx_rate c;
     Cli.enable_visualization := Cli.enable_visualization c;
     Cli.enable_profiling := Cli.enable_profiling c;
     Cli.export_formats := Cli.export_formats c;
     Cli.fork_url := v;
     Cli.fork_block := Cli.fork_block c |}.

Definition set_fork_block (c : Cli.SimulationConfig) (v : Z)
  : Cli.SimulationConfig :=
  {| Cli.mode := Cli.mode c;
     Cli.config_file := Cli.config_file c;
     Cli.enabled_strategies := Cli.enabled_strategies c;
     Cli.start_block := Cli.start_block c;
     Cli.block_count := Cli.block_count c;
     Cli.duration_seconds := Cli.duration_seconds c;
     Cli.tx_rate := Cli.tx_rate c;
     Cli.enable_visualization := Cli.enable_visualization c;
     Cli.enable_profiling := Cli.enable_profiling c;
     Cli.export_formats := Cli.export_formats c;
     Cli.fork_url := Cli.fork_url c;
     Cli.fork_block := v |}.

Section Parse.

(** [std::stoull], which returns the number or throws. *)
Variable stoull : string -> result Z.

(** The loop of [parse_arguments] from argument [i] on; [args] are
    [argv[i]], ..., [argv[argc - 1]].  The branch on an empty [rest] below
    a test of [has_value rest] is never taken. *)
Fixpoint parse_from (config : Cli.SimulationConfig) (args : list string)
  : outcome :=
  match args with
  | [] => Parsed config
  | arg :: rest =>
    if String.eqb arg "--help" || String.eqb arg "-h" then Exit 0
    else if String.eqb arg "--mode" && has_value rest then
      match rest with
      | mode :: rest' =>
          if String.eqb mode "realtime" then
            parse_from (set_mode config REALTIME) rest'
          else if String.eqb mode "historical" then
            parse_from (set_mode config HISTORICAL) rest'
          else if String.eqb mode "synthetic" then
            parse_from (set_mode config SYNTHETIC) rest'
          else Raised ("Invalid simulation mode: " ++ mode)
      | [] => Parsed config
      end
    else if String.eqb arg "--config" && has_value rest then
      match rest with
      | value :: rest' =>
          parse_from (set_config_file config value) rest'
      | [] => Parsed config
      end
    else if String.eqb arg "--strategies" && has_value rest then
      match rest with
      | value :: rest' =>
          parse_from
            (set_enabled_strategies
               config (add_strategies (Cli.enabled_strategies config) value))
            rest'
      | [] => Parsed config
      end
    else if String.eqb arg "--block" && has_value rest then
      match rest with
      | value :: rest' =>
          match stoull value with
          | Ok n => parse_from (set_start_block config n) rest'
          | Throw what => Raised what
          end
      | [] => Parsed config
      end
    else if String.eqb arg "--blocks" && has_value rest then
      match rest with
      | value :: rest' =>
          match stoull value with
          | Ok n => parse_from (set_block_count config n) rest'
          | Throw what => Raised what
          end
      | [] => Parsed config
      end
    else if String.eqb arg "--duration" && has_value rest then
      match rest with
      | value :: rest' =>
          match stoull value with
          | Ok n => parse_from (set_duration_seconds config n) rest'
          | Throw what => Raised what
          end
      | [] => Parsed config
      end
    else if String.eqb arg "--tx-rate" && has_value rest then
      match rest with
      | value :: rest' =>
          match stoull value with
          | Ok n => parse_from (set_tx_rate config n) rest'
          | Throw what => Raised what
          end
      | [] => Parsed config
      end
    else if String.eqb arg "--visualize" then
      parse_from (set_enable_visualization config true) rest
    else if String.eqb arg "--profile" then
      parse_from (set_enable_profiling config true) rest
    else if String.eqb arg "--export-csv" then
      parse_from
        (set_export_formats config (Cli.export_formats config ++ ["csv"]))
        rest
    else if String.eqb arg "--export-json" then
      parse_from
        (set_export_formats config (Cli.export_formats config ++ ["json"]))
        rest
    else if String.eqb arg "--fork-url" && has_value rest then
      match rest with
      | value :: rest' =>
          parse_from (set_fork_url config value) rest'
      | [] => Parsed config
      end
    else if String.eqb arg "--fork-block" && has_value rest then
      match rest with
      | value :: rest' =>
          match stoull value with
          | Ok n => parse_from (set_fork_block config n) rest'
          | Throw what => Raised what
          end
      | [] => Parsed config
      end
    else Raised ("Unknown argument: " ++ arg)
  end.

(** [parse_arguments(argc, argv)] on [argv[1]], ..., [argv[argc - 1]]. *)
Definition parse_arguments (args : list string) : outcome :=
  parse_from Cli.default args.

End Parse.

End Args.

(** The pieces of [s] between its commas: the first one and the others. *)
Fixpoint segments (s : string) : string * list string :=
  match s with
  | EmptyString => (EmptyString, [])
  | String c r =>
      let (g, gs) := segments r in
      if Ascii.eqb c "," then (EmptyString, g :: gs) else (String c g, gs)
  end.

(** The options of [parse_arguments] that take a value. *)
Definition value_flags : list string :=
  ["--mode"; "--config"; "--strategies"; "--block"; "--blocks";
   "--duration"; "--tx-rate"; "--fork-url"; "--fork-block"]%string.


(** ** Logger.hpp, Logger.cpp: the logger *)

Module Log.

#[local] Open Scope string_scope.

(** [enum class LogLevel], with its values. *)
Inductive LogLevel : Type :=
| TRACE
| DEBUG
| INFO
| WARN
| ERROR
| FATAL.

Definition level_value (l : LogLevel) : Z :=
  match l with
  | TRACE => 0
  | DEBUG => 1
  | INFO => 2
  | WARN => 3
  | ERROR => 4
  | FATAL => 5
  end.

(** [a >= b] on levels. *)
Definition level_geb (a b : LogLevel) : bool :=
  (level_value b <=? level_value a)%Z.

Record LoggingConfig : Type := mkLoggingConfig {
  level : LogLevel;
  file : string;
  max_file_size_mb : Z;
  max_files : Z;
  console_output : bool;
  file_output : bool;
  timestamp : bool;
  thread_id : bool
}.

(** The member initialisers. *)
Definition default_config : LoggingConfig :=
  {| level := INFO; file := "logs/mev_sim.log"; max_file_size_mb := 100;
     max_files := 10; console_output := true; file_output := true;
     timestamp := true; thread_id := false |}.

(** What the logger acts on: the files, by path, with their content, and
    the lines written to the console. *)
Record World : Type := mkWorld {
  files : string -> option string;
  console : list string
}.

(** The members of the singleton: [stream_open] stands for
    [file_stream_ && file_stream_->is_open()], [mutex_held] for the state
    of [mutex_], [flush_counter] for the static counter of
    [write_to_file]. *)
Record Logger : Type := mkLogger {
  config_ : LoggingConfig;
  stream_open : bool;
  current_file_size_ : Z;
  initialized_ : bool;
  mutex_held : bool;
  flush_counter : Z
}.

(** A call returns, throws, or locks the [std::mutex] it already holds,
    whose behaviour is undefined. *)
Inductive outcome (A : Type) : Type :=
| Done (a : A)
| Throws (what : string)
| Relocks.
Arguments Done {A} a.
Arguments Throws {A} what.
Arguments Relocks {A}.

Definition wrap32 (z : Z) : Z := (z mod 2 ^ 32)%Z.

(** Conversion of an [unsigned int] to [int]. *)
Definition to_int (z : Z) : Z := if (z <? 2 ^ 31)%Z then z else (z - 2 ^ 32)%Z.

Definition newline : string := String "010"%char EmptyString.

(** [Logger::get_level_string]. *)
Definition get_level_string (l : LogLevel) : string :=
  match l with
  | TRACE => "TRACE"
  | DEBUG => "DEBUG"
  | INFO => "INFO "
  | WARN => "WARN "
  | ERROR => "ERROR"
  | FATAL => "FATAL"
  end.

(** [Logger::format_message]; [now] is what [get_timestamp] returns and
    [tid] the printed thread id. *)
Definition format_message (cfg : LoggingConfig) (now tid : string)
    (l : LogLevel) (message : string) : string :=
  (if timestamp cfg then now ++ " " else "")
  ++ "[" ++ get_level_string l ++ "] "
  ++ (if thread_id cfg then "[TID:" ++ tid ++ "] " else "")
  ++ message.

(** The file system calls; none of them is refused. *)
Definition fs_exists (p : string) (fs : string -> option string) : bool :=
  match fs p with Some _ => true | None => false end.

Definition fs_remove (p : string) (fs : string -> option string)
  : string -> option string :=
  fun q => if String.eqb q p then None else fs q.

Definition fs_rename (a b : string) (fs : string -> option string)
  : string -> option string :=
  fun q => if String.eqb q b then fs a
           else if String.eqb q a then None else fs q.

(** Opening for appending creates the file when it does not exist. *)
Definition fs_open_append (p : string) (fs : string -> option string)
  : string -> option string :=
  fun q => if String.eqb q p
           then Some (match fs p with Some c => c | None => "" end)
           else fs q.

Definition fs_append (p text : string) (fs : string -> option string)
  : string -> option string :=
  fun q => if String.eqb q p
           then Some (match fs p with Some c => c | None => "" end ++ text)
           else fs q.

Definition set_size (lg : Logger) (open : bool) (size : Z) : Logger :=
  {| config_ := config_ lg; stream_open := open;
     current_file_size_ := size; initialized_ := initialized_ lg;
     mutex_held := mutex_held lg; flush_counter := flush_counter lg |}.

Definition set_mutex (lg : Logger) (held : bool) : Logger :=
  {| config_ := config_ lg; stream_open := stream_open lg;
     current_file_size_ := current_file_size_ lg;
     initialized_ := initialized_ lg;
     mutex_held := held; flush_counter := flush_counter lg |}.

(** [std::lock_guard<std::mutex> lock(instance.mutex_)] around a body. *)
Definition lock_guard {A} (lg : Logger)
    (body : Logger -> outcome (Logger * A)) : outcome (Logger * A) :=
  if mutex_held lg then Relocks
  else
    match body (set_mutex lg true) with
    | Done (lg', a) => Done (set_mutex lg' false, a)
    | Throws what => Throws what
    | Relocks => Relocks
    end.

Section Paths.

(** The path of the [i]-th backup of a log file:
    [parent_path() / (stem() + "." + to_string(i) + extension())]. *)
Variable backup_path : string -> Z -> string.

(** The loop of [rotate_log_file] from [i] down to 1; [top] is
    [config_.max_files - 1]. *)
Fixpoint rotate_backups (i : nat) (top : Z) (log_path : string)
    (fs : string -> option string) : string -> option string :=
  match i with
  | O => fs
  | S j =>
      let old_file := backup_path log_path (Z.of_nat (S j)) in
      let new_file := backup_path log_path (Z.of_nat (S j) + 1) in
      rotate_backups j top log_path
        (if fs_exists old_file fs then
           if (Z.of_nat (S j) =? top)%Z then fs_remove old_file fs
           else fs_rename old_file new_file fs
         else fs)
  end.

(** [config_.max_file_size_mb * 1024 * 1024], computed in [unsigned int]. *)
Definition max_size_bytes (cfg : LoggingConfig) : Z :=
  wrap32 (wrap32 (max_file_size_mb cfg * 1024) * 1024).

(** [Logger::rotate_log_file]. *)
Definition rotate_log_file (lg : Logger) (w : World)
  : outcome (Logger * World) :=
  if negb (stream_open lg) then Done (lg, w)
  else if (current_file_size_ lg <? max_size_bytes (config_ lg))%Z
  then Done (lg, w)
  else
    let log_path := file (config_ lg) in
    let top := wrap32 (max_files (config_ lg) - 1) in
    let fs1 := rotate_backups (Z.to_nat (to_int top)) top log_path (files w) in
    if fs_exists log_path fs1 then
      let fs2 := fs_rename log_path (backup_path log_path 1) fs1 in
      let fs3 := fs_open_append log_path fs2 in
      Done (set_size lg true 0, {| files := fs3; console := console w |})
    else Throws "filesystem error: cannot rename".

(** [Logger::write_to_file]. *)
Definition write_to_file (lg : Logger) (w : World) (message : string)
  : outcome (Logger * World) :=
  match rotate_log_file lg w with
  | Done (lg1, w1) =>
      let fs :=
        if stream_open lg1
        then fs_append (file (config_ lg1)) (message ++ newline) (files w1)
        else files w1 in
      Done ({| config_ := config_ lg1;
               stream_open := stream_open lg1;
               current_file_size_ :=
                 wrap64 (current_file_size_ lg1
                         + wrap64 (Z.of_nat (String.length message) + 1));
               initialized_ := initialized_ lg1;
               mutex_held := mutex_held lg1;
               flush_counter := wrap64 (flush_counter lg1 + 1) |},
            {| files := fs; console := console w1 |})
  | Throws what => Throws what
  | Relocks => Relocks
  end.

(** [Logger::write_to_console]. *)
Definition write_to_console (w : World) (message : string) : World :=
  {| files := files w; console := console w ++ [message] |}.

(** [Logger::log_internal]. *)
Definition log_internal (lg : Logger) (w : World) (now tid : string)
    (l : LogLevel) (message : string) : outcome (Logger * World) :=
  let formatted_message := format_message (config_ lg) now tid l message in
  let w1 :=
    if console_output (config_ lg) then write_to_console w formatted_message
    else w in
  if file_output (config_ lg) && stream_open lg
  then write_to_file lg w1 formatted_message
  else Done (lg, w1).

(** [Logger::log]; it takes no lock. *)
Definition log (lg : Logger) (w : World) (now tid : string)
    (l : LogLevel) (message : string) : outcome (Logger * World) :=
  if initialized_ lg && level_geb l (level (config_ lg))
  then log_internal lg w now tid l message
  else Done (lg, w).

(** [Logger::set_level]. *)
Definition set_level (lg : Logger) (l : LogLevel) : outcome (Logger * unit) :=
  lock_guard lg (fun lg =>
    Done ({| config_ :=
               {| level := l; file := file (config_ lg);
                  max_file_size_mb := max_file_size_mb (config_ lg);
                  max_files := max_files (config_ lg);
                  console_output := console_output (config_ lg);
                  file_output := file_output (config_ lg);
                  timestamp := timestamp (config_ lg);
                  thread_id := thread_id (config_ lg) |};
             stream_open := stream_open lg;
             current_file_size_ := current_file_size_ lg;
             initialized_ := initialized_ lg;
             mutex_held := mutex_held lg;
             flush_counter := flush_counter lg |}, tt)).

(** [Logger::get_level]. *)
Definition get_level (lg : Logger) : outcome (Logger * LogLevel) :=
  lock_guard lg (fun lg => Done (lg, level (config_ lg))).

(** [Logger::is_enabled]. *)
Definition is_enabled (lg : Logger) (l : LogLevel) : outcome (Logger * bool) :=
  lock_guard lg (fun lg =>
    Done (lg, initialized_ lg && level_geb l (level (config_ lg)))).

(** [Logger::flush]; flushing does not change what the files hold. *)
Definition flush (lg : Logger) : outcome (Logger * unit) :=
  lock_guard lg (fun lg => Done (lg, tt)).

(** [Logger::initialize]. *)
Definition initialize (lg : Logger) (w : World) (config : LoggingConfig)
    (now tid : string) : outcome (Logger * World) :=
  lock_guard lg (fun lg =>
    if initialized_ lg then Done (lg, w)
    else
      let opens := file_output config && negb (String.eqb (file config) "") in
      let fs :=
        if opens then fs_open_append (file config) (files w) else files w in
      let size :=
        if opens then
          wrap64 (Z.of_nat (String.length
                              (match fs (file config) with
                               | Some c => c
                               | None => ""
                               end)))
        else current_file_size_ lg in
      log_internal
        {| config_ := config;
           stream_open := if opens then true else stream_open lg;
           current_file_size_ := size;
           initialized_ := true;
           mutex_held := mutex_held lg;
           flush_counter := flush_counter lg |}
        {| files := fs; console := console w |}
        now tid INFO "Logger initialized").

(** [Logger::shutdown]. *)
Definition shutdown (lg : Logger) (w : World) (now tid : string)
  : outcome (Logger * World) :=
  lock_guard lg (fun lg =>
    if initialized_ lg then
      match log_internal lg w now tid INFO "Logger shutting down" with
      | Done (lg1, w1) =>
          match flush lg1 with
          | Done (lg2, _) =>
              Done ({| config_ := config_ lg2;
                       stream_open := false;
                       current_file_size_ := current_file_size_ lg2;
                       initialized_ := false;
                       mutex_held := mutex_held lg2;
                       flush_counter := flush_counter lg2 |}, w1)
          | Throws what => Throws what
          | Relocks => Relocks
          end
      | Throws what => Throws what
      | Relocks => Relocks
      end
    else Done (lg, w)).

End Paths.

End Log.
(** [current_file_size_] is the size of the log file, as long as the
    stream is open. *)
Definition size_inv (lg : Log.Logger) (w : Log.World) : Prop :=
  Log.stream_open lg = true ->
  exists c,
    Log.files w (Log.file (Log.config_ lg)) = Some c
    /\ Log.current_file_size_ lg = wrap64 (Z.of_nat (String.length c)).

(** No backup has the path of the log file itself. *)
Definition backups_apart (backup_path : string -> Z -> string)
    (log_path : string) : Prop :=
  forall i, backup_path log_path i <> log_path.

(** The backups 1 to [n] have different paths. *)
Definition backups_distinct (backup_path : string -> Z -> string)
    (log_path : string) (n : Z) : Prop :=
  forall a b, (1 <= a <= n)%Z -> (1 <= b <= n)%Z ->
              backup_path log_path a = backup_path log_path b -> a = b.

(** ** Further sample values *)

(** A pool like [sample_pair] with a fee of 1 percent. *)
Definition costly_pair : TokenPair :=
  {| token0 := "A"; token1 := "B"; pair_address := "0xAB";
     dex_type := UNISWAP_V2;
     reserve0 := Fin 1000; reserve1 := Fin 1000;
     fee_percent := Fin 1; price := Fin 1 |}.

(** A pool like [sample_pair] without a fee. *)
Definition free_pair : TokenPair :=
  {| token0 := "A"; token1 := "B"; pair_address := "0xAB";
     dex_type := UNISWAP_V2;
     reserve0 := Fin 1000; reserve1 := Fin 1000;
     fee_percent := Fin 0; price := Fin 1 |}.

(** Two successes around a failure. *)
Definition sample_attempts : list attempt :=
  [Succeeded (Fin 1) (Fin 0) (Fin 5); Failed (Fin 7);
   Succeeded (Fin 3) (Fin 0) (Fin 2)].

(** A strategy that fails the gas check of [validate], disabled. *)
Definition broken_strategy : Config.StrategyConfig :=
  {| Config.enabled := false;
     Config.min_profit_eth := Fin (1 # 100);
     Config.max_slippage_percent := Fin (1 # 2);
     Config.target_dexes := [];
     Config.gas_limit := 0;
     Config.max_gas_price_gwei := 100;
     Config.bundle_timeout_ms := 1000;
     Config.frontrun_gas_multiplier := Fin (11 # 10);
     Config.backrun_gas_multiplier := Fin (105 # 100);
     Config.priority_fee_gwei := Fin 2;
     Config.min_transaction_value_eth := Fin (1 # 10);
     Config.target_protocols := [] |}.

(** A configuration with the default members, an RPC URL, the strategy
    [arbitrage] enabled and the strategy [sandwich] disabled. *)
Definition sample_config : MainConfig.Config :=
  {| MainConfig.simulation :=
       {| SimulationSettings.mode := HISTORICAL;
          SimulationSettings.mempool_emulation := true;
          SimulationSettings.block_simulation := true;
          SimulationSettings.historical_replay := false;
          SimulationSettings.synthetic_data :=
            {| SyntheticData.enabled := false;
               SyntheticData.transaction_rate := 1000;
               SyntheticData.duration_seconds := 3600 |} |};
     MainConfig.performance :=
       {| PerformanceConfig.thread_pool_size := 16;
          PerformanceConfig.queue_size := 10000;
          PerformanceConfig.latency_target_us := 100;
          PerformanceConfig.max_concurrent_requests := 100;
          PerformanceConfig.enable_simd := true;
          PerformanceConfig.memory_mapping := true |};
     MainConfig.strategies :=
       [("arbitrage"%string, set_enabled true default_strategy);
        ("sandwich"%string, broken_strategy)];
     MainConfig.blockchain :=
       {| BlockchainConfig.ethereum :=
            {| Ethereum.rpc_url := "http://localhost:8545";
               Ethereum.chain_id := 1;
               Ethereum.block_time_seconds := 12 |};
          BlockchainConfig.flashbots :=
            {| Flashbots.relay_url := "";
               Flashbots.bundle_timeout_ms := 1000;
               Flashbots.max_bundle_size := 10 |};
          BlockchainConfig.fork :=
            {| Fork.enabled := false; Fork.url := "";
               Fork.block_number := 0 |} |};
     MainConfig.trading :=
       {| TradingConfig.gas_optimization :=
            {| GasOptimization.enabled := true;
               GasOptimization.base_fee_multiplier := Fin (11 # 10);
               GasOptimization.priority_fee_strategy := "dynamic";
               GasOptimization.max_gas_price_gwei := 100 |};
          TradingConfig.slippage :=
            {| Slippage.default_percent := Fin (1 # 2);
               Slippage.max_percent := Fin 2;
               Slippage.dynamic_adjustment := true |};
          TradingConfig.bundle :=
            {| BundleSettings.max_transactions := 10;
               BundleSettings.timeout_ms := 1000;
               BundleSettings.retry_attempts := 3 |} |};
     MainConfig.monitoring :=
       {| MonitoringConfig.metrics :=
            {| MetricsSettings.enabled := true;
               MetricsSettings.port := 8080;
               MetricsSettings.export_interval_seconds := 60 |};
          MonitoringConfig.logging :=
            {| LoggingSettings.level := "INFO";
               LoggingSettings.file := "logs/mev_sim.log";
               LoggingSettings.max_file_size_mb := 100;
               LoggingSettings.max_files := 10 |};
          MonitoringConfig.visualization :=
            {| Visualization.enabled := true;
               Visualization.update_interval_ms := 1000;
               Visualization.export_formats := ["csv"; "json"]%string |} |};
     MainConfig.data :=
       {| DataConfig.storage :=
            {| Storage.type := "file"; Storage.directory := "./data";
               Storage.compression := true |};
          DataConfig.cache :=
            {| Cache.enabled := true; Cache.ttl_seconds := 300;
               Cache.max_size_mb := 1000 |};
          DataConfig.export_settings :=
            {| ExportSettings.formats := ["csv"; "json"]%string;
               ExportSettings.include_metrics := true;
               ExportSettings.timestamp_format := "iso8601" |} |};
     MainConfig.security :=
       {| SecurityConfig.rate_limiting :=
            {| RateLimiting.enabled := true;
               RateLimiting.requests_per_second := 100;
               RateLimiting.burst_size := 50 |};
          SecurityConfig.validation :=
            {| Validation.enable_ssl_verification := true;
               Validation.max_request_size_mb := 10;
               Validation.timeout_ms := 5000 |} |} |}.

(** The command line [--strategies arbitrage,frontrun]. *)
Definition sample_cli : Cli.SimulationConfig :=
  Args.set_enabled_strategies Cli.default ["arbitrage"; "frontrun"]%string.

(** A [stoull] that accepts nothing. *)
Definition no_stoull (s : string) : result Z := Throw "stoull".

(** Backup paths for the samples: the log path with [.1], [.2] or [.3]. *)
Definition sample_backup (log_path : string) (i : Z) : string :=
  (log_path
   ++ (if (i =? 1)%Z then ".1" else if (i =? 2)%Z then ".2" else ".3"))%string.

(** A logger writing to [app.log] with a limit of 4096 MB and three files,
    open on a file of three bytes. *)
Definition sample_logger : Log.Logger :=
  {| Log.config_ :=
       {| Log.level := Log.INFO; Log.file := "app.log";
          Log.max_file_size_mb := 4096; Log.max_files := 3;
          Log.console_output := true; Log.file_output := true;
          Log.timestamp := false; Log.thread_id := false |};
     Log.stream_open := true;
     Log.current_file_size_ := 3;
     Log.initialized_ := true;
     Log.mutex_held := false;
     Log.flush_counter := 0 |}.

Definition sample_world : Log.World :=
  {| Log.files :=
       fun p => if String.eqb p "app.log" then Some "old"%string
                else if String.eqb p "app.log.1" then Some "older"%string
                else None;
     Log.console := [] |}.

(** A logger as constructed. *)
Definition fresh_logger : Log.Logger :=
  {| Log.config_ := Log.default_config;
     Log.stream_open := false;
     Log.current_file_size_ := 0;
     Log.initialized_ := false;
     Log.mutex_held := false;
     Log.flush_counter := 0 |}.

(** * Properties *)

(** ** Facts about the rational comparisons *)

Section QFacts.

Open Scope Q_scope.

Lemma Qltb_lt (a b : Q) : Qltb a b = true <-> a < b.
Proof.
  unfold Qltb. rewrite negb_true_iff. split.
  - intro H. apply Qnot_le_lt. intro Hle.
    apply Qle_bool_iff in Hle. congruence.
  - intro H. destruct (Qle_bool b a) eqn:E; [|reflexivity].
    apply Qle_bool_iff in E. exfalso. exact (Qlt_not_le _ _ H E).
Qed.

Lemma Qltb_ge (a b : Q) : Qltb a b = false <-> b <= a.
Proof.
  unfold Qltb. rewrite negb_false_iff. apply Qle_bool_iff.
Qed.

Lemma Qeq_bool_false (a b : Q) : ~ a == b -> Qeq_bool a b = false.
Proof.
  intro H. destruct (Qeq_bool a b) eqn:E; [|reflexivity].
  apply Qeq_bool_iff in E. contradiction.
Qed.

Lemma Qeq_bool_true (a b : Q) : a == b -> Qeq_bool a b = true.
Proof. apply Qeq_bool_iff. Qed.

(** Comparing two quotients with positive denominators. *)
Lemma Qdiv_lt_cross (a b c d : Q) :
  0 < b -> 0 < d -> a * d < c * b -> a / b < c / d.
Proof.
  intros Hb Hd H.
  apply Qlt_shift_div_r; [exact Hb|].
  assert (E : c / d * b == (c * b) / d) by (field; lra).
  rewrite E. apply Qlt_shift_div_l; [exact Hd|exact H].
Qed.

Lemma cp_out_pos (rin rout a : Q) :
  0 < rin -> 0 < rout -> 0 < a -> 0 < cp_out rin rout a.
Proof.
  intros Hi Ho Ha. unfold cp_out.
  apply Qlt_shift_div_l; [lra|]. nra.
Qed.

Lemma cp_out_lt_reserve (rin rout a : Q) :
  0 < rin -> 0 < rout -> 0 < a -> cp_out rin rout a < rout.
Proof.
  intros Hi Ho Ha. unfold cp_out.
  apply Qlt_shift_div_r; [lra|]. nra.
Qed.

Lemma cp_out_increasing (rin rout a b : Q) :
  0 < rin -> 0 < rout -> 0 < a -> a < b ->
  cp_out rin rout a < cp_out rin rout b.
Proof.
  intros Hi Ho Ha Hab. unfold cp_out.
  apply Qdiv_lt_cross; [lra|lra|].
  assert (H : 0 < rin * rout * (b - a)).
  { apply Qmult_lt_0_compat; [apply Qmult_lt_0_compat; assumption|lra]. }
  lra.
Qed.

Lemma cp_out_eq (rin rout a : Q) :
  0 < rin -> 0 < a -> cp_out rin rout a * (rin + a) == a * rout.
Proof. intros Hi Ha. unfold cp_out. field. lra. Qed.

(** Swapping [x] through the pool and the proceeds back through the same,
    unchanged pool, the fee factor [m] applied each way, returns less
    than [x]. *)
Lemma cp_round_trip (r0 r1 m x : Q) :
  0 < r0 -> 0 < r1 -> 0 < m -> m <= 1 -> 0 < x ->
  cp_out r1 r0 (cp_out r0 r1 (x * m) * m) < x.
Proof.
  intros H0 H1 Hm Hm1 Hx.
  assert (Ha : 0 < x * m) by (apply Qmult_lt_0_compat; assumption).
  pose proof (cp_out_pos _ _ _ H0 H1 Ha) as Hy.
  pose proof (cp_out_eq _ r1 _ H0 Ha) as E.
  set (y := cp_out r0 r1 (x * m)) in *.
  assert (Hym : 0 < y * m) by (apply Qmult_lt_0_compat; assumption).
  unfold cp_out at 1.
  apply Qlt_shift_div_r; [lra|].
  assert (P1 : 0 < x * (y * m))
    by (apply Qmult_lt_0_compat; assumption).
  assert (P2 : 0 < m * (x * (y * m)))
    by (apply Qmult_lt_0_compat; assumption).
  assert (P3 : 0 <= (x * r1) * (1 - m * m)).
  { apply Qmult_le_0_compat;
      [apply Qlt_le_weak, Qmult_lt_0_compat; assumption|nra]. }
  assert (E2 : y * m * r0 == m * (x * m * r1) - m * (y * (x * m))).
  { rewrite <- E. ring. }
  rewrite E2. lra.
Qed.

Lemma fee_mult_eq (f : Q) : fee_mult f == 1 - f * (1 # 100).
Proof. unfold fee_mult, Qdiv. reflexivity. Qed.

Lemma fee_mult_range (f : Q) :
  0 <= f -> f < 100 -> 0 < fee_mult f /\ fee_mult f <= 1.
Proof. intros H0 H1. rewrite fee_mult_eq. split; lra. Qed.

Lemma fee_mult_lt_1 (f : Q) : 0 < f -> fee_mult f < 1.
Proof. intros H0. rewrite fee_mult_eq. lra. Qed.

End QFacts.

(** ** Laws of the recording evaluation *)

Lemma bind_ret {A B} (a : A) (k : A -> Ev B) : bind (ret a) k = k a.
Proof. unfold bind, ret. destruct (k a). reflexivity. Qed.

Lemma div_fin (a b : Q) :
~ (b == 0)%Q -> div (Fin a) (Fin b) = ret (Fin (a / b)).
Proof.
intro H. unfold div, ret, ddiv, deqb, zero.
rewrite (Qeq_bool_false b 0 H). reflexivity.
Qed.

Lemma div_by_zero_bind {A B} (m : Ev A) (k : A -> Ev B) :
div_by_zero (bind m k) = div_by_zero m || div_by_zero (k (value m)).
Proof.
  destruct m as [a f]. unfold bind, div_by_zero, value. cbn.
  destruct (k a). reflexivity.
Qed.

(** ** Liquidity pools with finite positive reserves *)

Section Pools.

Open Scope Q_scope.

(** On a live pool and a positive input the swap evaluates both divisions
    with non-zero divisors and yields the constant-product quotient. *)
Lemma calculate_output_amount_live p r0 r1 f x dir :
  live_pool p r0 r1 f -> 0 < x ->
  calculate_output_amount_ev p (Fin x) dir =
  (Fin (cp_out (reserve_in r0 r1 dir) (reserve_out r0 r1 dir)
               (x * fee_mult f)), false).
Proof.
  intros [E0 E1 Ef H0 H1 Hf0 Hf1] Hx.
  destruct (fee_mult_range f Hf0 Hf1) as [Hm _].
  assert (Ha : 0 < x * fee_mult f)
    by (apply Qmult_lt_0_compat; assumption).
  assert (H100 : ~ 100 == 0) by (intro H; discriminate H).
  unfold calculate_output_amount_ev, hundred, one.
  rewrite E0, E1, Ef. cbn [deqb zero].
  rewrite (Qeq_bool_false r0 0), (Qeq_bool_false r1 0) by lra.
  rewrite (div_fin f 100 H100).
  destruct dir; rewrite bind_ret;
    cbn [orb dsub dopp dadd dmul reserve_in reserve_out];
    rewrite div_fin by (unfold fee_mult in Ha; lra); reflexivity.
Qed.

Lemma value_calculate_output_amount_live p r0 r1 f x dir :
  live_pool p r0 r1 f -> 0 < x ->
  calculate_output_amount p (Fin x) dir =
  Fin (cp_out (reserve_in r0 r1 dir) (reserve_out r0 r1 dir)
              (x * fee_mult f)).
Proof.
  intros Hp Hx. unfold calculate_output_amount.
  rewrite (calculate_output_amount_live p r0 r1 f x dir Hp Hx).
  reflexivity.
Qed.

Lemma reserve_in_pos r0 r1 dir : 0 < r0 -> 0 < r1 -> 0 < reserve_in r0 r1 dir.
Proof. destruct dir; auto. Qed.

Lemma reserve_out_pos r0 r1 dir :
  0 < r0 -> 0 < r1 -> 0 < reserve_out r0 r1 dir.
Proof. destruct dir; auto. Qed.

Lemma output_reserve_live p r0 r1 f dir :
  live_pool p r0 r1 f -> output_reserve p dir = Fin (reserve_out r0 r1 dir).
Proof. intros [E0 E1 _ _ _ _ _]. destruct dir; assumption. Qed.

(** C1. On a pool with positive reserves and a fee in [0, 100), in either
    direction, [calculate_output_amount] is strictly increasing over the
    positive inputs, and at every positive input its result is a finite
    number strictly below the reserve of the output token. *)
Theorem calculate_output_amount_increasing_bounded p r0 r1 f dir :
  live_pool p r0 r1 f ->
  (forall x y, 0 < x -> x < y ->
     dltb (calculate_output_amount p (Fin x) dir)
          (calculate_output_amount p (Fin y) dir) = true)
  /\ (forall x, 0 < x ->
      is_finite (calculate_output_amount p (Fin x) dir) = true
      /\ dltb (calculate_output_amount p (Fin x) dir)
              (output_reserve p dir) = true).
Proof.
  intros Hp.
  pose proof (lp_r0_pos _ _ _ _ Hp) as H0.
  pose proof (lp_r1_pos _ _ _ _ Hp) as H1.
  destruct (fee_mult_range f (lp_fee_lo _ _ _ _ Hp) (lp_fee_hi _ _ _ _ Hp))
    as [Hm _].
  pose proof (reserve_in_pos r0 r1 dir H0 H1) as Hin.
  pose proof (reserve_out_pos r0 r1 dir H0 H1) as Hout.
  split.
  - intros x y Hx Hxy.
    assert (Hy : 0 < y) by lra.
    rewrite (value_calculate_output_amount_live p r0 r1 f x dir Hp Hx).
    rewrite (value_calculate_output_amount_live p r0 r1 f y dir Hp Hy).
    cbn [dltb]. apply Qltb_lt.
    apply cp_out_increasing; try assumption.
    + apply Qmult_lt_0_compat; assumption.
    + apply Qmult_lt_compat_r; assumption.
  - intros x Hx.
    rewrite (value_calculate_output_amount_live p r0 r1 f x dir Hp Hx).
    rewrite (output_reserve_live p r0 r1 f dir Hp).
    split; [reflexivity|].
    cbn [dltb]. apply Qltb_lt.
    apply cp_out_lt_reserve; try assumption.
    apply Qmult_lt_0_compat; assumption.
Qed.

(** C4. On a pool with positive reserves and a fee in [0, 100), swapping a
    positive amount token0 -> token1 and the result token1 -> token0 on
    the same unchanged pool returns at most the amount, and strictly less
    when the fee is positive. *)
Theorem round_trip_not_profitable p r0 r1 f x :
  live_pool p r0 r1 f -> 0 < x ->
  dleb (calculate_output_amount
          p (calculate_output_amount p (Fin x) true) false) (Fin x) = true
  /\ (0 < f ->
      dltb (calculate_output_amount
              p (calculate_output_amount p (Fin x) true) false) (Fin x)
      = true).
Proof.
  intros Hp Hx.
  pose proof (lp_r0_pos _ _ _ _ Hp) as H0.
  pose proof (lp_r1_pos _ _ _ _ Hp) as H1.
  destruct (fee_mult_range f (lp_fee_lo _ _ _ _ Hp) (lp_fee_hi _ _ _ _ Hp))
    as [Hm Hm1].
  assert (Ha : 0 < x * fee_mult f)
    by (apply Qmult_lt_0_compat; assumption).
  rewrite (value_calculate_output_amount_live p r0 r1 f x true Hp Hx).
  cbn [reserve_in reserve_out].
  rewrite (value_calculate_output_amount_live p r0 r1 f _ false Hp
             (cp_out_pos r0 r1 _ H0 H1 Ha)).
  cbn [reserve_in reserve_out dleb dltb].
  pose proof (cp_round_trip r0 r1 (fee_mult f) x H0 H1 Hm Hm1 Hx) as Hlt.
  split.
  - apply Qle_bool_iff. apply Qlt_le_weak. exact Hlt.
  - intros _. apply Qltb_lt. exact Hlt.
Qed.

Lemma dgtb_zero_neq (y : double) :
  dgtb y zero = true -> deqb y zero = false.
Proof.
  destruct y as [b| | |]; cbn; try discriminate; try reflexivity.
  intro H. apply Qltb_lt in H. apply Qeq_bool_false. lra.
Qed.

(** C6. [calculate_price] returns [reserve0 / reserve1] when
    [reserve1 > 0], without dividing by zero, and 0 when [reserve1 == 0];
    for rational reserves with [reserve1 > 0] the quotient is the
    rational one. *)
Theorem calculate_price_cases (p : TokenPair) :
  (dgtb (reserve1 p) zero = true ->
     calculate_price p = ddiv (reserve0 p) (reserve1 p)
     /\ div_by_zero (calculate_price_ev p) = false)
  /\ (deqb (reserve1 p) zero = true -> calculate_price p = zero)
  /\ (forall a b, reserve0 p = Fin a -> reserve1 p = Fin b -> 0 < b ->
        calculate_price p = Fin (a / b)).
Proof.
  unfold calculate_price, calculate_price_ev.
  split; [|split].
  - intro H. rewrite (dgtb_zero_neq _ H). split; [reflexivity|].
    cbn. apply dgtb_zero_neq. exact H.
  - intro H. rewrite H. reflexivity.
  - intros a b Ea Eb Hb. rewrite Ea, Eb. cbn [deqb zero].
    rewrite (Qeq_bool_false b 0) by lra.
    rewrite div_fin by lra. reflexivity.
Qed.

(** C7. On a pool one of whose reserves is zero (the other one being a
    number), [calculate_price] returns 0 and [calculate_output_amount]
    returns 0 for every input and direction, and neither evaluates a
    division by zero. *)
Theorem empty_pool_no_liquidity (p : TokenPair) :
  reserve1 p <> NaN ->
  deqb (reserve0 p) zero = true \/ deqb (reserve1 p) zero = true ->
  (deq (calculate_price p) zero
   /\ div_by_zero (calculate_price_ev p) = false)
  /\ (forall input dir,
        calculate_output_amount p input dir = zero
        /\ div_by_zero (calculate_output_amount_ev p input dir) = false).
Proof.
  intros Hnan Hz. split.
  - unfold calculate_price, calculate_price_ev.
    destruct (deqb (reserve1 p) zero) eqn:E1.
    + split; [cbn; reflexivity|reflexivity].
    + destruct Hz as [E0|E0]; [|discriminate E0].
      split; [|exact E1].
      destruct (reserve0 p) as [a| | |]; try discriminate E0.
      cbn in E0. apply Qeq_bool_iff in E0.
      destruct (reserve1 p) as [b| | |]; cbn in *.
      * rewrite E1. cbn. unfold Qdiv. rewrite E0. ring.
      * reflexivity.
      * reflexivity.
      * contradiction.
  - intros input dir.
    unfold calculate_output_amount, calculate_output_amount_ev.
    assert (G : deqb (reserve0 p) zero || deqb (reserve1 p) zero = true)
      by (destruct Hz as [E|E]; rewrite E; auto using orb_true_r).
    destruct dir.
    + rewrite G. split; reflexivity.
    + rewrite orb_comm, G. split; reflexivity.
Qed.

Lemma sample_pair_live : live_pool sample_pair 1000 1000 (3 # 10).
Proof. constructor; try reflexivity; discriminate. Qed.

Lemma calculate_output_amount_increasing_bounded_witness :
  dltb (calculate_output_amount sample_pair (Fin 10) true)
       (calculate_output_amount sample_pair (Fin 20) true) = true
  /\ dltb (calculate_output_amount sample_pair (Fin 10) false)
          (output_reserve sample_pair false) = true.
Proof.
  split.
  - apply (calculate_output_amount_increasing_bounded
             sample_pair 1000 1000 (3 # 10) true sample_pair_live);
      reflexivity.
  - apply (calculate_output_amount_increasing_bounded
             sample_pair 1000 1000 (3 # 10) false sample_pair_live).
    reflexivity.
Defined.

Lemma round_trip_not_profitable_witness :
  dltb (calculate_output_amount
          sample_pair (calculate_output_amount sample_pair (Fin 10) true)
          false) (Fin 10) = true.
Proof.
  apply (round_trip_not_profitable
           sample_pair 1000 1000 (3 # 10) 10 sample_pair_live);
    reflexivity.
Defined.

Lemma calculate_price_cases_witness :
  calculate_price sample_pair = Fin (1000 / 1000)
  /\ calculate_price
       {| token0 := "A"; token1 := "B"; pair_address := "0xAB";
          dex_type := CURVE; reserve0 := Fin 7; reserve1 := Fin 0;
          fee_percent := Fin 1; price := Fin 0 |} = zero.
Proof.
  split.
  - apply (calculate_price_cases sample_pair); reflexivity.
  - apply calculate_price_cases. reflexivity.
Defined.

Lemma empty_pool_no_liquidity_witness :
  deq (calculate_price drained_pair) zero
  /\ calculate_output_amount drained_pair (Fin 10) true = zero
  /\ div_by_zero (calculate_output_amount_ev drained_pair (Fin 10) false)
     = false.
Proof.
  destruct (empty_pool_no_liquidity drained_pair) as [[Hp _] Ho].
  - discriminate.
  - left. reflexivity.
  - split; [exact Hp|]. split; apply Ho.
Defined.

End Pools.

(** ** Strategy statistics *)

Section Stats.

Open Scope Q_scope.

Lemma ddiv_zero_not_finite (x : double) :
  is_finite (ddiv x (of_u64 0)) = false.
Proof.
  destruct x as [a| | |]; cbn; try reflexivity.
  destruct (Qeq_bool a 0); [reflexivity|].
  unfold inf_of_sign. destruct (Qltb a 0); reflexivity.
Qed.

(** C5. Three calls of [update_success] from the reset state with profits
    1, 2 and 3, whatever the gas and latency arguments, leave
    [avg_profit_eth] equal to 2, [min_profit_eth] to 1, [max_profit_eth]
    to 3 and [successful_executions] to 3. *)
Theorem update_success_profits_1_2_3
    (s : StrategyStats) (g1 t1 g2 t2 g3 t3 : double) :
  let r :=
    update_success
      (update_success
         (update_success (reset s) (Fin 1) g1 t1) (Fin 2) g2 t2)
      (Fin 3) g3 t3 in
  deq (avg_profit_eth r) (Fin 2)
  /\ min_profit_eth r = Fin 1
  /\ max_profit_eth r = Fin 3
  /\ successful_executions r = 3%Z.
Proof.
  cbv zeta. repeat split; vm_compute; reflexivity.
Qed.

(** C8. [reset] is idempotent, its result is the zeroed statistics of a
    freshly constructed object whatever the starting value, and invoked
    on the statistics of a strategy it leaves the name, the configuration
    and the enabled flag of the strategy as they were. *)
Theorem reset_idempotent (s : StrategyStats) (b : BaseStrategy) :
  reset (reset s) = reset s
  /\ reset s = initial_stats
  /\ config_ (reset_stats_member b) = config_ b
  /\ name_ (reset_stats_member b) = name_ b
  /\ enabled_ (reset_stats_member b) = enabled_ b
  /\ stats_ (reset_stats_member (reset_stats_member b))
     = stats_ (reset_stats_member b).
Proof. repeat split. Qed.

(** C10. Neither update changes [opportunities_executed], and both
    divide by it: called while it is 0, each evaluates a division by
    zero, [update_success] leaves a [success_rate] that is not a finite
    number, and [update_failure] leaves a [success_rate] and an
    [avg_execution_time_us] that are not finite numbers. *)
Theorem update_with_no_attempt_divides_by_zero
    (s : StrategyStats) (p g t : double) :
  opportunities_executed s = 0%Z ->
  (opportunities_executed (update_success s p g t) = 0%Z
   /\ div_by_zero (update_success_ev s p g t) = true
   /\ is_finite (success_rate (update_success s p g t)) = false)
  /\ (opportunities_executed (update_failure s t) = 0%Z
      /\ div_by_zero (update_failure_ev s t) = true
      /\ is_finite (success_rate (update_failure s t)) = false
      /\ is_finite (avg_execution_time_us (update_failure s t)) = false).
Proof.
  intro E. split.
  - unfold update_success, update_success_ev.
    rewrite E.
    rewrite !div_by_zero_bind.
    unfold bind, value, div, ret, div_by_zero; cbn [fst snd].
    cbn [opportunities_executed success_rate].
    change (deqb (of_u64 0) zero) with true.
    repeat split.
    + rewrite !orb_true_r. reflexivity.
    + apply ddiv_zero_not_finite.
  - unfold update_failure, update_failure_ev.
    rewrite E.
    unfold bind, value, div, ret, div_by_zero; cbn [fst snd].
    cbn [opportunities_executed success_rate avg_execution_time_us].
    change (deqb (of_u64 0) zero) with true.
    repeat split.
    + apply ddiv_zero_not_finite.
    + apply ddiv_zero_not_finite.
Qed.

Lemma update_with_no_attempt_divides_by_zero_witness :
  div_by_zero (update_success_ev initial_stats (Fin 1) (Fin 0) (Fin 20))
  = true
  /\ is_finite (avg_execution_time_us (update_failure initial_stats (Fin 20)))
     = false.
Proof.
  destruct (update_with_no_attempt_divides_by_zero
              initial_stats (Fin 1) (Fin 0) (Fin 20) eq_refl)
    as [[_ [Hs _]] [_ [_ [_ Hf]]]].
  split; [exact Hs|exact Hf].
Defined.

End Stats.

(** ** Attempt sequences of a single kind

    Each update on its own maintains the mean of the latencies it has
    seen; the two disagree on the count they divide by. *)

Section UniformAttempts.

Open Scope Q_scope.

Lemma wrap64_small (z : Z) : (0 <= z < 2 ^ 64)%Z -> wrap64 z = z.
Proof. intro H. unfold wrap64. apply Z.mod_small. exact H. Qed.

Lemma dsum_fin (ts : list Q) (a : Q) :
  fold_left dadd (map Fin ts) (Fin a) = Fin (Qsum ts a).
Proof.
  revert a. induction ts as [|t ts IH]; intro a; cbn; [reflexivity|].
  apply IH.
Qed.

Lemma inject_Z_succ_neq (k : nat) : ~ inject_Z (Z.of_nat k + 1) == 0.
Proof.
  intro H. unfold Qeq, inject_Z in H. cbn in H. lia.
Qed.

Lemma mean_so_far_failure (s : StrategyStats) (k : nat) (S t : Q) :
  (Z.of_nat k + 1 < 2 ^ 64)%Z ->
  mean_so_far s k S ->
  mean_so_far (record_attempt s (Failed (Fin t))) (Datatypes.S k) (S + t).
Proof.
  intros Hk [Ho [q [Ea Eq]]].
  unfold record_attempt, update_failure, update_failure_ev, count_attempt.
  cbn [opportunities_executed avg_execution_time_us successful_executions
       failed_executions].
  rewrite Ho, Ea.
  rewrite (wrap64_small (Z.of_nat k + 1)) by lia.
  replace (Z.of_nat k + 1 - 1)%Z with (Z.of_nat k) by lia.
  rewrite (wrap64_small (Z.of_nat k)) by lia.
  unfold of_u64. cbn [dmul dadd].
  rewrite !div_fin by apply inject_Z_succ_neq.
  rewrite !bind_ret. unfold value, ret.
  split; [cbn; lia|].
  cbn -[Qmult Qplus Qdiv inject_Z Z.of_nat].
  eexists. split; [reflexivity|].
  replace (Z.of_nat (Datatypes.S k)) with (Z.of_nat k + 1)%Z by lia.
  rewrite <- Eq. field. apply inject_Z_succ_neq.
Qed.

Lemma mean_so_far_failures (ts : list Q) :
  forall s k S,
    (Z.of_nat (k + List.length ts) < 2 ^ 64)%Z ->
    mean_so_far s k S ->
    mean_so_far (record_attempts s (failures ts))
                (k + List.length ts) (Qsum ts S).
Proof.
  induction ts as [|t ts IH]; intros s k S Hk H;
    cbn [failures map record_attempts fold_left List.length Qsum].
  - rewrite Nat.add_0_r. exact H.
  - cbn [List.length] in Hk.
    replace (k + Datatypes.S (List.length ts))%nat
      with (Datatypes.S k + List.length ts)%nat by lia.
    apply (IH _ (Datatypes.S k) (S + t)).
    + replace (Datatypes.S k + List.length ts)%nat
        with (k + Datatypes.S (List.length ts))%nat by lia. exact Hk.
    + apply mean_so_far_failure; [lia|exact H].
Qed.

Lemma mean_so_far_reset (s : StrategyStats) : mean_so_far (reset s) 0 0.
Proof. split; [reflexivity|]. exists 0. split; reflexivity. Qed.

Lemma failures_only_mean (s : StrategyStats) (ts : list Q) :
  ts <> [] -> (Z.of_nat (List.length ts) < 2 ^ 64)%Z ->
  deq (avg_execution_time_us (record_attempts (reset s) (failures ts)))
      (dmean (map latency_of (failures ts))).
Proof.
  intros Hne Hlen.
  destruct (mean_so_far_failures ts (reset s) 0%nat 0 Hlen (mean_so_far_reset s))
    as [_ [q [Ea Eq]]].
  rewrite Ea. unfold dmean, dsum, failures.
  rewrite map_map. cbn [latency_of]. rewrite !length_map.
  change zero with (Fin 0). rewrite dsum_fin.
  assert (Hn : ~ inject_Z (Z.of_nat (List.length ts)) == 0).
  { intro H. unfold Qeq, inject_Z in H. cbn [Qnum Qden] in H.
    destruct ts; [congruence|cbn [List.length] in H; lia]. }
  unfold of_u64, ddiv. rewrite (Qeq_bool_false _ 0 Hn).
  cbn [deq]. cbn [Nat.add] in Eq. rewrite <- Eq. field. exact Hn.
Qed.

Lemma success_mean_so_far_step
    (s : StrategyStats) (k : nat) (S t : Q) (p g : double) :
  (Z.of_nat k + 1 < 2 ^ 64)%Z ->
  success_mean_so_far s k S ->
  success_mean_so_far (record_attempt s (Succeeded p g (Fin t)))
                      (Datatypes.S k) (S + t).
Proof.
  intros Hk [Ho [q [Ea Eq]]].
  unfold record_attempt, update_success, update_success_ev, count_attempt.
  cbn [opportunities_executed avg_execution_time_us successful_executions
       failed_executions].
  rewrite Ho, Ea.
  rewrite (wrap64_small (Z.of_nat k + 1)) by lia.
  replace (Z.of_nat k + 1 - 1)%Z with (Z.of_nat k) by lia.
  rewrite (wrap64_small (Z.of_nat k)) by lia.
  unfold of_u64 at 1 2. cbn [dmul dadd].
  rewrite div_fin by apply inject_Z_succ_neq.
  rewrite bind_ret. unfold bind, div, value, ret.
  split; [cbn; lia|].
  cbn -[Qmult Qplus Qdiv inject_Z Z.of_nat].
  eexists. split; [reflexivity|].
  replace (Z.of_nat (Datatypes.S k)) with (Z.of_nat k + 1)%Z by lia.
  rewrite <- Eq. field. apply inject_Z_succ_neq.
Qed.

Lemma success_mean_so_far_run (l : list (double * double * Q)) :
  forall s k S,
    (Z.of_nat (k + List.length l) < 2 ^ 64)%Z ->
    success_mean_so_far s k S ->
    success_mean_so_far (record_attempts s (successes l))
                        (k + List.length l) (Qsum (map snd l) S).
Proof.
  induction l as [|[[p g] t] l IH]; intros s k S Hk H;
    cbn [successes map record_attempts fold_left List.length Qsum fst snd].
  - rewrite Nat.add_0_r. exact H.
  - cbn [List.length] in Hk.
    replace (k + Datatypes.S (List.length l))%nat
      with (Datatypes.S k + List.length l)%nat by lia.
    apply (IH _ (Datatypes.S k) (S + t)).
    + replace (Datatypes.S k + List.length l)%nat
        with (k + Datatypes.S (List.length l))%nat by lia. exact Hk.
    + apply success_mean_so_far_step; [lia|exact H].
Qed.

Lemma successes_only_mean
    (s : StrategyStats) (l : list (double * double * Q)) :
  l <> [] -> (Z.of_nat (List.length l) < 2 ^ 64)%Z ->
  deq (avg_execution_time_us (record_attempts (reset s) (successes l)))
      (dmean (map latency_of (successes l))).
Proof.
  intros Hne Hlen.
  destruct (success_mean_so_far_run l (reset s) 0%nat 0 Hlen)
    as [_ [q [Ea Eq]]].
  { split; [reflexivity|]. exists 0. split; reflexivity. }
  rewrite Ea. unfold dmean, dsum, successes.
  rewrite map_map. cbn [latency_of]. rewrite !length_map.
  rewrite <- (map_map snd Fin).
  change zero with (Fin 0). rewrite dsum_fin.
  assert (Hn : ~ inject_Z (Z.of_nat (List.length l)) == 0).
  { intro H. unfold Qeq, inject_Z in H. cbn [Qnum Qden] in H.
    destruct l; [congruence|cbn [List.length] in H; lia]. }
  unfold of_u64, ddiv. rewrite (Qeq_bool_false _ 0 Hn).
  cbn [deq]. cbn [Nat.add] in Eq. rewrite <- Eq. field. exact Hn.
Qed.

End UniformAttempts.

(** ** Arbitrage paths and mixed attempt sequences *)

Section PathsAndAttempts.

Open Scope Q_scope.

(** C2, as stated, fails: [is_valid] accepts a path whose last token is not
    its first. *)
Lemma is_valid_accepts_open_path :
  ~ (forall a : ArbitragePath,
       is_valid a = true ->
       closes_cycle a /\ dgtb (expected_profit_eth a) zero = true).
Proof.
  intro H. destruct (H open_path eq_refl) as [Hc _].
  unfold closes_cycle in Hc. cbn in Hc. discriminate Hc.
Qed.

(** C2, amended. [is_valid] returns true only if the path has at least
    three tokens and at least two pools and [expected_profit_eth > 0]. *)
Theorem is_valid_only_if (a : ArbitragePath) :
  is_valid a = true ->
  (3 <= List.length (tokens a))%nat
  /\ (2 <= List.length (pairs a))%nat
  /\ dgtb (expected_profit_eth a) zero = true.
Proof.
  unfold is_valid. intro H.
  apply andb_prop in H. destruct H as [H Hp].
  apply andb_prop in H. destruct H as [Ht Hq].
  apply Nat.leb_le in Ht. apply Nat.leb_le in Hq.
  repeat split; assumption.
Qed.

Lemma is_valid_only_if_witness :
  (3 <= List.length (tokens closed_path))%nat
  /\ (2 <= List.length (pairs closed_path))%nat
  /\ dgtb (expected_profit_eth closed_path) zero = true.
Proof. apply (is_valid_only_if closed_path). reflexivity. Defined.

(** C3, at the failing input. After a failure of latency 10 and a success
    of latency 20, recorded from the reset state with the attempt counter
    kept by the caller, [avg_execution_time_us] is 20, while the mean of
    the two latencies is 15. *)
Theorem avg_execution_time_mixed_attempts (s : StrategyStats) :
  deq (avg_execution_time_us (record_attempts (reset s) mixed_attempts))
      (Fin 20)
  /\ deq (dmean (map latency_of mixed_attempts)) (Fin 15)
  /\ ~ deq (avg_execution_time_us
              (record_attempts (reset s) mixed_attempts))
           (dmean (map latency_of mixed_attempts)).
Proof.
  repeat split; vm_compute; try reflexivity. discriminate.
Qed.

End PathsAndAttempts.

(** ** More on the pool arithmetic *)

Section PoolAlgebra.

Open Scope Q_scope.

Lemma cp_out_product (rin rout a : Q) :
  0 < rin -> 0 <= a -> (rin + a) * (rout - cp_out rin rout a) == rin * rout.
Proof. intros Hi Ha. unfold cp_out. field. lra. Qed.

(** X1. The swap keeps the product of the reserves: with the input after the
    fee added to the reserve of the input token and the output taken from
    the other reserve, the product is what it was. *)
Theorem swap_keeps_product p r0 r1 f x dir :
  live_pool p r0 r1 f -> 0 < x ->
  exists out,
    calculate_output_amount p (Fin x) dir = Fin out
    /\ (reserve_in r0 r1 dir + x * fee_mult f)
       * (reserve_out r0 r1 dir - out)
       == reserve_in r0 r1 dir * reserve_out r0 r1 dir.
Proof.
  intros Hp Hx.
  destruct (fee_mult_range f (lp_fee_lo _ _ _ _ Hp) (lp_fee_hi _ _ _ _ Hp))
    as [Hm _].
  eexists. split.
  - apply (value_calculate_output_amount_live p r0 r1 f x dir Hp Hx).
  - apply cp_out_product.
    + apply reserve_in_pos; [exact (lp_r0_pos _ _ _ _ Hp)|exact (lp_r1_pos _ _ _ _ Hp)].
    + apply Qlt_le_weak, Qmult_lt_0_compat; assumption.
Qed.

Lemma live_pool_facts p r0 r1 f dir :
  live_pool p r0 r1 f ->
  0 < reserve_in r0 r1 dir /\ 0 < reserve_out r0 r1 dir
  /\ 0 < fee_mult f /\ fee_mult f <= 1.
Proof.
  intros Hp.
  pose proof (lp_r0_pos _ _ _ _ Hp). pose proof (lp_r1_pos _ _ _ _ Hp).
  destruct (fee_mult_range f (lp_fee_lo _ _ _ _ Hp) (lp_fee_hi _ _ _ _ Hp)).
  repeat split; try assumption.
  - apply reserve_in_pos; assumption.
  - apply reserve_out_pos; assumption.
Qed.

(** X2. The pool keeps the fee: with the whole input added to the reserve, the
    product of the reserves does not decrease, and grows when the fee is
    positive. *)
Theorem swap_grows_product p r0 r1 f x dir :
  live_pool p r0 r1 f -> 0 < x ->
  exists out,
    calculate_output_amount p (Fin x) dir = Fin out
    /\ 0 < out
    /\ reserve_in r0 r1 dir * reserve_out r0 r1 dir
       <= (reserve_in r0 r1 dir + x) * (reserve_out r0 r1 dir - out)
    /\ (0 < f ->
        reserve_in r0 r1 dir * reserve_out r0 r1 dir
        < (reserve_in r0 r1 dir + x) * (reserve_out r0 r1 dir - out)).
Proof.
  intros Hp Hx.
  destruct (live_pool_facts p r0 r1 f dir Hp) as (Hin & Hout & Hm & Hm1).
  assert (Ha : 0 < x * fee_mult f) by (apply Qmult_lt_0_compat; assumption).
  exists (cp_out (reserve_in r0 r1 dir) (reserve_out r0 r1 dir)
                 (x * fee_mult f)).
  split; [apply (value_calculate_output_amount_live p r0 r1 f x dir Hp Hx)|].
  pose proof (cp_out_pos _ _ _ Hin Hout Ha) as Hpos.
  pose proof (cp_out_lt_reserve _ _ _ Hin Hout Ha) as Hlt.
  pose proof (cp_out_product _ (reserve_out r0 r1 dir) _ Hin
                (Qlt_le_weak _ _ Ha)) as Hk.
  set (o := cp_out _ _ _) in *.
  set (ri := reserve_in r0 r1 dir) in *.
  set (ro := reserve_out r0 r1 dir) in *.
  assert (E : (ri + x) * (ro - o)
              == ri * ro + (x * (1 - fee_mult f)) * (ro - o)).
  { rewrite <- Hk. ring. }
  split; [exact Hpos|]. split.
  - rewrite E.
    assert (0 <= x * (1 - fee_mult f) * (ro - o)).
    { apply Qmult_le_0_compat; [apply Qmult_le_0_compat|]; lra. }
    lra.
  - intros Hf. pose proof (fee_mult_lt_1 f Hf).
    rewrite E.
    assert (0 < x * (1 - fee_mult f) * (ro - o)).
    { apply Qmult_lt_0_compat; [apply Qmult_lt_0_compat|]; lra. }
    lra.
Qed.

Lemma calculate_price_live p r0 r1 f :
  live_pool p r0 r1 f -> calculate_price p = Fin (r0 / r1).
Proof.
  intros Hp. pose proof (lp_r1_pos _ _ _ _ Hp) as H1.
  unfold calculate_price, calculate_price_ev.
  rewrite (lp_reserve0 _ _ _ _ Hp), (lp_reserve1 _ _ _ _ Hp).
  cbn [deqb zero]. rewrite (Qeq_bool_false r1 0) by lra.
  rewrite div_fin by lra. reflexivity.
Qed.

(** X3. The realised rate is worse than the quoted price. *)
Theorem swap_below_quoted_price p r0 r1 f x :
  live_pool p r0 r1 f -> 0 < x ->
  dltb (calculate_output_amount p (Fin x) false)
       (dmul (Fin x) (calculate_price p)) = true
  /\ dltb (dmul (calculate_output_amount p (Fin x) true) (calculate_price p))
          (Fin x) = true.
Proof.
  intros Hp Hx.
  pose proof (lp_r0_pos _ _ _ _ Hp) as H0.
  pose proof (lp_r1_pos _ _ _ _ Hp) as H1.
  destruct (fee_mult_range f (lp_fee_lo _ _ _ _ Hp) (lp_fee_hi _ _ _ _ Hp))
    as [Hm Hm1].
  assert (Ha : 0 < x * fee_mult f) by (apply Qmult_lt_0_compat; assumption).
  assert (Hax : x * fee_mult f <= x) by nra.
  rewrite (calculate_price_live p r0 r1 f Hp).
  rewrite !(value_calculate_output_amount_live p r0 r1 f x _ Hp Hx).
  cbn [reserve_in reserve_out dmul dltb].
  set (a := x * fee_mult f) in *.
  split; apply Qltb_lt; unfold cp_out.
  - (* a*r0/(r1+a) < x * (r0/r1) *)
    assert (E : x * (r0 / r1) == (x * r0) / r1) by (field; lra).
    rewrite E. apply Qdiv_lt_cross; [lra|lra|].
    assert (0 < a * r0 * a) by (repeat apply Qmult_lt_0_compat; assumption).
    assert (a * r0 * r1 <= x * r0 * r1).
    { apply Qmult_le_compat_r; [|lra]. apply Qmult_le_compat_r; lra. }
    assert (0 < x * r0 * a) by (repeat apply Qmult_lt_0_compat; assumption).
    lra.
  - (* a*r1/(r0+a) * (r0/r1) < x *)
    assert (E : a * r1 / (r0 + a) * (r0 / r1) == (a * r0) / (r0 + a))
      by (field; lra).
    rewrite E. apply Qlt_shift_div_r; [lra|].
    assert (a * r0 <= x * r0) by (apply Qmult_le_compat_r; lra).
    assert (0 < x * a) by (apply Qmult_lt_0_compat; assumption).
    lra.
Qed.

(** X4. A higher fee pays out less. *)
Theorem higher_fee_lower_output p p' r0 r1 f f' x dir :
  live_pool p r0 r1 f -> live_pool p' r0 r1 f' -> f < f' -> 0 < x ->
  dltb (calculate_output_amount p' (Fin x) dir)
       (calculate_output_amount p (Fin x) dir) = true.
Proof.
  intros Hp Hp' Hff Hx.
  destruct (live_pool_facts p r0 r1 f dir Hp) as (Hin & Hout & Hm & _).
  destruct (live_pool_facts p' r0 r1 f' dir Hp') as (_ & _ & Hm' & _).
  rewrite (value_calculate_output_amount_live p r0 r1 f x dir Hp Hx).
  rewrite (value_calculate_output_amount_live p' r0 r1 f' x dir Hp' Hx).
  cbn [dltb]. apply Qltb_lt.
  apply cp_out_increasing; try assumption.
  - apply Qmult_lt_0_compat; assumption.
  - rewrite (Qmult_comm x (fee_mult f')), (Qmult_comm x (fee_mult f)).
    apply Qmult_lt_compat_r; [exact Hx|].
    rewrite !fee_mult_eq. lra.
Qed.

(** X5. Two swaps quoted on the same pool state promise more than one swap of
    the combined amount. *)
Theorem split_swap_quotes_more p r0 r1 f x y dir :
  live_pool p r0 r1 f -> 0 < x -> 0 < y ->
  dltb (calculate_output_amount p (Fin (x + y)) dir)
       (dadd (calculate_output_amount p (Fin x) dir)
             (calculate_output_amount p (Fin y) dir)) = true.
Proof.
  intros Hp Hx Hy.
  destruct (live_pool_facts p r0 r1 f dir Hp) as (Hin & Hout & Hm & _).
  assert (Hxy : 0 < x + y) by lra.
  rewrite (value_calculate_output_amount_live p r0 r1 f x dir Hp Hx).
  rewrite (value_calculate_output_amount_live p r0 r1 f y dir Hp Hy).
  rewrite (value_calculate_output_amount_live p r0 r1 f _ dir Hp Hxy).
  cbn [dadd dltb]. apply Qltb_lt. unfold cp_out.
  set (ri := reserve_in r0 r1 dir) in *.
  set (ro := reserve_out r0 r1 dir) in *.
  assert (Ha : 0 < x * fee_mult f) by (apply Qmult_lt_0_compat; assumption).
  assert (Hb : 0 < y * fee_mult f) by (apply Qmult_lt_0_compat; assumption).
  assert (E : (x + y) * fee_mult f * ro / (ri + (x + y) * fee_mult f)
              == x * fee_mult f * ro / (ri + x * fee_mult f + y * fee_mult f)
                 + y * fee_mult f * ro
                   / (ri + x * fee_mult f + y * fee_mult f)).
  { field. lra. }
  rewrite E.
  set (a := x * fee_mult f) in *. set (b := y * fee_mult f) in *.
  assert (Hab : 0 < a * ro * b)
    by (repeat apply Qmult_lt_0_compat; assumption).
  apply Qplus_lt_le_compat.
  - apply Qdiv_lt_cross; lra.
  - apply Qlt_le_weak. apply Qdiv_lt_cross; lra.
Qed.

(** With reserves that are non-zero numbers, the divisor of the swap is
    the reserve of the input token plus the input after the fee. *)
Lemma calculate_output_amount_divisor p r0 r1 f x dir :
  reserve0 p = Fin r0 -> reserve1 p = Fin r1 -> fee_percent p = Fin f ->
  ~ r0 == 0 -> ~ r1 == 0 ->
  div_by_zero (calculate_output_amount_ev p (Fin x) dir) = true
  <-> reserve_in r0 r1 dir + x * fee_mult f == 0.
Proof.
  intros E0 E1 Ef H0 H1.
  assert (H100 : ~ 100 == 0) by (intro H; discriminate H).
  unfold calculate_output_amount_ev, hundred, one.
  rewrite E0, E1, Ef. cbn [deqb zero].
  rewrite (Qeq_bool_false r0 0 H0), (Qeq_bool_false r1 0 H1).
  rewrite (div_fin f 100 H100).
  destruct dir; rewrite bind_ret;
    cbn [orb dsub dopp dadd dmul reserve_in reserve_out];
    unfold div, div_by_zero; cbn [snd deqb zero];
    apply Qeq_bool_iff.
Qed.

(** X6. With positive reserves the swap divides by zero only on an input
    whose part after the fee is negative: a negative input with a fee below
    100 percent, or a positive input with a fee above 100 percent.  It does
    so with a fee of 0 on the input that is the opposite of the reserve of
    the input token, which the test of the reserves lets through. *)
Theorem swap_divides_by_zero_needs_negative p r0 r1 f x dir :
  live_pool_reserves p r0 r1 -> fee_percent p = Fin f ->
  (div_by_zero (calculate_output_amount_ev p (Fin x) dir) = true ->
   (x < 0 /\ f < 100) \/ (0 < x /\ 100 < f))
  /\ (f == 0 -> x == - reserve_in r0 r1 dir ->
      div_by_zero (calculate_output_amount_ev p (Fin x) dir) = true).
Proof.
  intros [E0 E1 H0 H1] Ef.
  assert (Hin : 0 < reserve_in r0 r1 dir) by (apply reserve_in_pos; assumption).
  assert (D : div_by_zero (calculate_output_amount_ev p (Fin x) dir) = true
              <-> reserve_in r0 r1 dir + x * fee_mult f == 0)
    by (apply calculate_output_amount_divisor; trivial; lra).
  split.
  - intros Hd. apply D in Hd.
    assert (Hneg : x * fee_mult f < 0) by lra.
    rewrite fee_mult_eq in Hneg.
    destruct (Qlt_le_dec x 0) as [Hx|Hx].
    + left. split; [exact Hx|].
      destruct (Qlt_le_dec f 100) as [Hf|Hf]; [exact Hf|].
      assert (0 <= (- x) * (f * (1 # 100) - 1))
        by (apply Qmult_le_0_compat; lra).
      lra.
    + right.
      destruct (Qlt_le_dec 100 f) as [Hf|Hf].
      * split; [|exact Hf].
        destruct (Qlt_le_dec 0 x) as [Hx'|Hx']; [exact Hx'|].
        assert (Hx0 : x == 0) by lra. rewrite Hx0 in Hneg. lra.
      * assert (0 <= x * (1 - f * (1 # 100)))
          by (apply Qmult_le_0_compat; lra).
        lra.
  - intros Hf Hx. apply D. rewrite fee_mult_eq, Hf, Hx. ring.
Qed.

(** X7. A zero input, or a fee of 100 percent, yields 0 without a division by
    zero. *)
Theorem swap_of_nothing p r0 r1 f x dir :
  live_pool_reserves p r0 r1 -> fee_percent p = Fin f ->
  x == 0 \/ f == 100 ->
  deq (calculate_output_amount p (Fin x) dir) zero
  /\ div_by_zero (calculate_output_amount_ev p (Fin x) dir) = false.
Proof.
  intros [E0 E1 H0 H1] Ef Hz.
  assert (Ha : x * fee_mult f == 0).
  { destruct Hz as [Hz|Hz].
    - rewrite Hz. ring.
    - rewrite fee_mult_eq, Hz. ring. }
  assert (Hin : 0 < reserve_in r0 r1 dir) by (apply reserve_in_pos; assumption).
  assert (Hd : ~ reserve_in r0 r1 dir + x * fee_mult f == 0)
    by (rewrite Ha; lra).
  assert (H100 : ~ 100 == 0) by (intro H; discriminate H).
  unfold calculate_output_amount, calculate_output_amount_ev, hundred, one.
  rewrite E0, E1, Ef. cbn [deqb zero].
  rewrite (Qeq_bool_false r0 0), (Qeq_bool_false r1 0) by lra.
  rewrite (div_fin f 100 H100).
  destruct dir; rewrite bind_ret;
    cbn [orb dsub dopp dadd dmul reserve_in reserve_out] in *;
    rewrite div_fin by exact Hd;
    (split; [|reflexivity]);
    unfold value, ret; cbn [fst deq zero];
    change (1 + - (f / 100)) with (fee_mult f);
    unfold Qdiv; rewrite Ha; ring.
Qed.

(** Exchanging the two tokens of the pool exchanges the two directions. *)
Theorem flip_pair_swaps_direction (p : TokenPair) (x : double) (dir : bool) :
  calculate_output_amount_ev (flip_pair p) x dir
  = calculate_output_amount_ev p x (negb dir).
Proof. destruct dir; reflexivity. Qed.

End PoolAlgebra.

(** ** More on the statistics *)

Section StatsSequences.

Open Scope Q_scope.

Lemma wrap64_add (a b : Z) : wrap64 (wrap64 a + b) = wrap64 (a + b).
Proof. unfold wrap64. apply Zplus_mod_idemp_l. Qed.

Lemma apply_update_fields (s : StrategyStats) (a : attempt) :
  opportunities_executed (apply_update s a) = opportunities_executed s
  /\ opportunities_detected (apply_update s a) = opportunities_detected s
  /\ successful_executions (apply_update s a)
     = (if is_success a then wrap64 (successful_executions s + 1)
        else successful_executions s)
  /\ failed_executions (apply_update s a)
     = (if is_success a then failed_executions s
        else wrap64 (failed_executions s + 1)).
Proof. destruct a; cbn; repeat split. Qed.

Lemma apply_updates_counts (l : list attempt) :
  forall s,
    u64_range (successful_executions s) ->
    u64_range (failed_executions s) ->
    opportunities_executed (apply_updates s l) = opportunities_executed s
    /\ opportunities_detected (apply_updates s l) = opportunities_detected s
    /\ successful_executions (apply_updates s l)
       = wrap64 (successful_executions s + Z.of_nat (count_successes l))
    /\ failed_executions (apply_updates s l)
       = wrap64 (failed_executions s + Z.of_nat (count_failures l)).
Proof.
  unfold count_successes, count_failures.
  induction l as [|a l IH]; intros s Hs Hf.
  - cbn. rewrite !Z.add_0_r.
    unfold wrap64. rewrite !Z.mod_small by assumption. repeat split.
  - change (apply_updates s (a :: l)) with (apply_updates (apply_update s a) l).
    destruct (apply_update_fields s a) as (E1 & E2 & E3 & E4).
    assert (R : forall z, u64_range (wrap64 z)).
    { intro z. unfold u64_range, wrap64. apply Z.mod_pos_bound. reflexivity. }
    destruct (IH (apply_update s a)) as (I1 & I2 & I3 & I4).
    { rewrite E3. destruct (is_success a); [apply R|exact Hs]. }
    { rewrite E4. destruct (is_success a); [exact Hf|apply R]. }
    rewrite I1, I2, I3, I4, E1, E2, E3, E4.
    repeat split; cbn [filter]; destruct (is_success a); cbn [negb List.length];
      rewrite ?wrap64_add; f_equal; lia.
Qed.

(** X8. From the reset state, the two counters count the two kinds of update
    modulo 2^64, and [opportunities_executed] stays 0. *)
Theorem updates_count_outcomes (s : StrategyStats) (l : list attempt) :
  successful_executions (apply_updates (reset s) l)
  = wrap64 (Z.of_nat (count_successes l))
  /\ failed_executions (apply_updates (reset s) l)
     = wrap64 (Z.of_nat (count_failures l))
  /\ opportunities_executed (apply_updates (reset s) l) = 0%Z
  /\ opportunities_detected (apply_updates (reset s) l) = 0%Z.
Proof.
  destruct (apply_updates_counts l (reset s)) as (E1 & E2 & E3 & E4);
    try (cbn; unfold u64_range; lia).
  rewrite E1, E2, E3, E4. cbn. repeat split.
Qed.

Lemma apply_update_profit (s : StrategyStats) (a : attempt) :
  total_profit_eth (apply_update s a)
  = fold_left dadd (profits_of [a]) (total_profit_eth s)
  /\ (is_success a = true \/ avg_profit_consistent s ->
      avg_profit_consistent (apply_update s a)).
Proof.
  unfold avg_profit_consistent.
  destruct a as [p g t|t];
    lazy beta iota zeta delta
      [apply_update update_success update_success_ev update_failure
       update_failure_ev bind div ret value fst snd total_profit_eth
       avg_profit_eth successful_executions profits_of fold_left
       is_success];
    split; try reflexivity.
  intros [H|H]; [discriminate H|exact H].
Qed.

Lemma profits_of_app (l1 l2 : list attempt) :
  profits_of (l1 ++ l2) = profits_of l1 ++ profits_of l2.
Proof.
  induction l1 as [|[p g t|t] l1 IH]; cbn; [reflexivity| |exact IH].
  rewrite IH. reflexivity.
Qed.

Lemma length_profits_of (l : list attempt) :
  List.length (profits_of l) = count_successes l.
Proof.
  unfold count_successes.
  induction l as [|[p g t|t] l IH]; cbn; [reflexivity| |exact IH].
  rewrite IH. reflexivity.
Qed.

Lemma apply_updates_profit (l : list attempt) :
  forall s,
    total_profit_eth (apply_updates s l)
    = fold_left dadd (profits_of l) (total_profit_eth s)
    /\ ((1 <= count_successes l)%nat \/ avg_profit_consistent s ->
        avg_profit_consistent (apply_updates s l)).
Proof.
  induction l as [|a l IH]; intros s.
  - cbn. split; [reflexivity|]. intros [H|H]; [inversion H|exact H].
  - change (apply_updates s (a :: l)) with (apply_updates (apply_update s a) l).
    destruct (IH (apply_update s a)) as [IT IA].
    destruct (apply_update_profit s a) as [ET EA].
    split.
    + rewrite IT, ET.
      change (a :: l) with ([a] ++ l). rewrite profits_of_app.
      rewrite fold_left_app. reflexivity.
    + intros H. apply IA.
      unfold count_successes in *. cbn [filter] in H.
      destruct (is_success a) eqn:Ea.
      * right. apply EA. left. reflexivity.
      * destruct H as [H|H]; [left; exact H|right; apply EA; right; exact H].
Qed.

(** X9. Whatever failures are interleaved, after at least one success
    [total_profit_eth] is the sum and [avg_profit_eth] the mean of the
    profits of the successful attempts. *)
Theorem avg_profit_is_mean_of_successes
    (s : StrategyStats) (l : list attempt) :
  (1 <= count_successes l)%nat ->
  (Z.of_nat (count_successes l) < 2 ^ 64)%Z ->
  total_profit_eth (apply_updates (reset s) l) = dsum (profits_of l)
  /\ avg_profit_eth (apply_updates (reset s) l) = dmean (profits_of l).
Proof.
  intros H1 H2.
  destruct (apply_updates_profit l (reset s)) as [ET EA].
  destruct (apply_updates_counts l (reset s)) as (_ & _ & ES & _);
    try (cbn; unfold u64_range; lia).
  split; [exact ET|].
  rewrite EA by (left; exact H1).
  rewrite ET, ES. cbn [reset successful_executions Z.add]. unfold dmean, dsum.
  rewrite length_profits_of.
  unfold wrap64. rewrite Z.mod_small by lia. reflexivity.
Qed.

Lemma apply_updates_extrema (l : list attempt) :
  forall s,
    min_execution_latency_us (apply_updates s l)
    = fold_left dmin (map latency_of l) (min_execution_latency_us s)
    /\ max_execution_latency_us (apply_updates s l)
       = fold_left dmax (map latency_of l) (max_execution_latency_us s)
    /\ min_profit_eth (apply_updates s l)
       = fold_left dmin (profits_of l) (min_profit_eth s)
    /\ max_profit_eth (apply_updates s l)
       = fold_left dmax (profits_of l) (max_profit_eth s).
Proof.
  induction l as [|a l IH]; intros s; [repeat split|].
  change (apply_updates s (a :: l)) with (apply_updates (apply_update s a) l).
  destruct (IH (apply_update s a)) as (I1 & I2 & I3 & I4).
  rewrite I1, I2, I3, I4.
  destruct a as [p g t|t]; repeat split.
Qed.

Lemma fold_dmin_bound (vs : list double) :
  Forall (fun v => is_finite v = true) vs ->
  forall m, exists m',
    fold_left dmin vs (Fin m) = Fin m' /\ m' <= m
    /\ Forall (fun v => dleb (Fin m') v = true) vs.
Proof.
  induction 1 as [|v vs Hv _ IH]; intro m.
  - exists m. repeat split; [lra|constructor].
  - destruct v as [t| | |]; try discriminate Hv.
    cbn [fold_left]. unfold dmin at 2. cbn [dltb].
    destruct (Qltb t m) eqn:E.
    + apply Qltb_lt in E.
      destruct (IH t) as (m' & E' & Hle & Hall).
      exists m'. repeat split; [exact E'|lra|].
      constructor; [apply Qle_bool_iff; exact Hle|exact Hall].
    + apply Qltb_ge in E.
      destruct (IH m) as (m' & E' & Hle & Hall).
      exists m'. repeat split; [exact E'|exact Hle|].
      constructor; [apply Qle_bool_iff; lra|exact Hall].
Qed.

Lemma fold_dmax_bound (vs : list double) :
  Forall (fun v => is_finite v = true) vs ->
  forall m, exists m',
    fold_left dmax vs (Fin m) = Fin m' /\ m <= m'
    /\ Forall (fun v => dleb v (Fin m') = true) vs.
Proof.
  induction 1 as [|v vs Hv _ IH]; intro m.
  - exists m. repeat split; [lra|constructor].
  - destruct v as [t| | |]; try discriminate Hv.
    cbn [fold_left]. unfold dmax at 2. cbn [dltb].
    destruct (Qltb m t) eqn:E.
    + apply Qltb_lt in E.
      destruct (IH t) as (m' & E' & Hle & Hall).
      exists m'. repeat split; [exact E'|lra|].
      constructor; [apply Qle_bool_iff; exact Hle|exact Hall].
    + apply Qltb_ge in E.
      destruct (IH m) as (m' & E' & Hle & Hall).
      exists m'. repeat split; [exact E'|exact Hle|].
      constructor; [apply Qle_bool_iff; lra|exact Hall].
Qed.

(** X10. From the reset state and with finite latencies, every recorded latency,
    of a success or of a failure, lies between [min_execution_latency_us]
    and [max_execution_latency_us]. *)
Theorem latency_extrema_bound_all (s : StrategyStats) (l : list attempt) :
  Forall (fun a => is_finite (latency_of a) = true) l ->
  Forall (fun a =>
            dleb (min_execution_latency_us (apply_updates (reset s) l))
                 (latency_of a) = true
            /\ dleb (latency_of a)
                    (max_execution_latency_us (apply_updates (reset s) l))
               = true) l.
Proof.
  intros Hfin.
  assert (Hfin' : Forall (fun v => is_finite v = true) (map latency_of l))
    by (apply Forall_map; exact Hfin).
  destruct (apply_updates_extrema l (reset s)) as (E1 & E2 & _ & _).
  rewrite E1, E2. cbn [reset min_execution_latency_us max_execution_latency_us].
  destruct (fold_dmin_bound _ Hfin' (inject_Z ((2 ^ 53 - 1) * 2 ^ 971)))
    as (m & Em & _ & Hm).
  destruct (fold_dmax_bound _ Hfin' 0) as (M & EM & _ & HM).
  change DBL_MAX with (Fin (inject_Z ((2 ^ 53 - 1) * 2 ^ 971))).
  change zero with (Fin 0).
  rewrite Em, EM.
  rewrite Forall_map in Hm, HM.
  rewrite Forall_forall in *. intros a Ha. split; auto.
Qed.

(** X11. From the reset state and with finite profits, every profit of a
    successful attempt lies between [min_profit_eth] and [max_profit_eth];
    [max_profit_eth] is never below 0 and [min_profit_eth] never above the
    largest double. *)
Theorem profit_extrema_bound_all (s : StrategyStats) (l : list attempt) :
  Forall (fun p => is_finite p = true) (profits_of l) ->
  Forall (fun p =>
            dleb (min_profit_eth (apply_updates (reset s) l)) p = true
            /\ dleb p (max_profit_eth (apply_updates (reset s) l)) = true)
         (profits_of l)
  /\ dleb zero (max_profit_eth (apply_updates (reset s) l)) = true
  /\ dleb (min_profit_eth (apply_updates (reset s) l)) DBL_MAX = true.
Proof.
  intros Hfin.
  destruct (apply_updates_extrema l (reset s)) as (_ & _ & E1 & E2).
  rewrite E1, E2. cbn [reset min_profit_eth max_profit_eth].
  destruct (fold_dmin_bound _ Hfin (inject_Z ((2 ^ 53 - 1) * 2 ^ 971)))
    as (m & Em & Hm0 & Hm).
  destruct (fold_dmax_bound _ Hfin 0) as (M & EM & HM0 & HM).
  change DBL_MAX with (Fin (inject_Z ((2 ^ 53 - 1) * 2 ^ 971))).
  change zero with (Fin 0).
  rewrite Em, EM.
  split; [|split].
  - rewrite Forall_forall in *. intros a Ha. split; auto.
  - apply Qle_bool_iff. exact HM0.
  - apply Qle_bool_iff. exact Hm0.
Qed.

Lemma of_u64_zero_iff (n : Z) : deqb (of_u64 n) zero = true <-> n = 0%Z.
Proof.
  unfold of_u64, zero, deqb. rewrite Qeq_bool_iff.
  unfold Qeq, inject_Z. cbn [Qnum Qden]. lia.
Qed.

(** X12. The updates divide by zero in exactly these states: [update_failure]
    when [opportunities_executed] is 0, [update_success] then too and when
    [successful_executions] is at the largest value, so that the increment
    wraps to 0. *)
Theorem update_divides_by_zero_iff (s : StrategyStats) (p g t : double) :
  u64_range (successful_executions s) ->
  (div_by_zero (update_success_ev s p g t) = true
   <-> successful_executions s = (2 ^ 64 - 1)%Z
       \/ opportunities_executed s = 0%Z)
  /\ (div_by_zero (update_failure_ev s t) = true
      <-> opportunities_executed s = 0%Z).
Proof.
  intros Hs. split.
  - unfold update_success_ev. rewrite !div_by_zero_bind.
    unfold bind, value, div, ret, div_by_zero; cbn [fst snd].
    rewrite !orb_true_iff, !of_u64_zero_iff.
    assert (W : wrap64 (successful_executions s + 1) = 0%Z
                <-> successful_executions s = (2 ^ 64 - 1)%Z).
    { unfold wrap64, u64_range in *. split; intro H.
      - destruct (Z.eq_dec (successful_executions s) (2 ^ 64 - 1));
          [assumption|].
        rewrite Z.mod_small in H by lia. lia.
      - rewrite H. reflexivity. }
    rewrite W. intuition discriminate.
  - unfold update_failure_ev. rewrite !div_by_zero_bind.
    unfold bind, value, div, ret, div_by_zero; cbn [fst snd].
    rewrite !orb_true_iff, !of_u64_zero_iff. intuition discriminate.
Qed.

Lemma record_attempt_counts (s : StrategyStats) (a : attempt) :
  opportunities_executed (record_attempt s a)
  = wrap64 (opportunities_executed s + 1)
  /\ successful_executions (record_attempt s a)
     = (if is_success a then wrap64 (successful_executions s + 1)
        else successful_executions s)
  /\ success_rate (record_attempt s a)
     = ddiv (of_u64 (successful_executions (record_attempt s a)))
            (of_u64 (opportunities_executed (record_attempt s a))).
Proof. destruct a; repeat split. Qed.

Lemma record_attempts_counts (l : list attempt) :
  forall s,
    u64_range (successful_executions s) ->
    u64_range (opportunities_executed s) ->
    opportunities_executed (record_attempts s l)
    = wrap64 (opportunities_executed s + Z.of_nat (List.length l))
    /\ successful_executions (record_attempts s l)
       = wrap64 (successful_executions s + Z.of_nat (count_successes l)).
Proof.
  unfold count_successes.
  induction l as [|a l IH]; intros s Hs Ho.
  - cbn. rewrite !Z.add_0_r.
    unfold wrap64. rewrite !Z.mod_small by assumption. split; reflexivity.
  - change (record_attempts s (a :: l))
      with (record_attempts (record_attempt s a) l).
    destruct (record_attempt_counts s a) as (E1 & E2 & _).
    assert (R : forall z, u64_range (wrap64 z)).
    { intro z. unfold u64_range, wrap64. apply Z.mod_pos_bound. reflexivity. }
    destruct (IH (record_attempt s a)) as (I1 & I2).
    { rewrite E2. destruct (is_success a); [apply R|exact Hs]. }
    { rewrite E1. apply R. }
    rewrite I1, I2, E1, E2.
    split; cbn [filter]; destruct (is_success a); cbn [List.length];
      rewrite ?wrap64_add; f_equal; lia.
Qed.

Lemma count_successes_le (l : list attempt) :
  (count_successes l <= List.length l)%nat.
Proof. unfold count_successes. apply filter_length_le. Qed.

(** X13. With the attempt counter kept by the caller, after a non-empty
    sequence of attempts from the reset state [success_rate] is the number
    of successes over the number of attempts, a number between 0 and 1. *)
Theorem success_rate_is_ratio (s : StrategyStats) (l : list attempt) :
  l <> [] -> (Z.of_nat (List.length l) < 2 ^ 64)%Z ->
  success_rate (record_attempts (reset s) l)
  = Fin (inject_Z (Z.of_nat (count_successes l))
         / inject_Z (Z.of_nat (List.length l)))
  /\ dleb zero (success_rate (record_attempts (reset s) l)) = true
  /\ dleb (success_rate (record_attempts (reset s) l)) one = true.
Proof.
  intros Hne Hlen.
  pose proof (count_successes_le l) as Hle.
  assert (Hpos : (0 < List.length l)%nat)
    by (destruct l; [congruence|cbn; lia]).
  assert (E : success_rate (record_attempts (reset s) l)
              = ddiv (of_u64 (Z.of_nat (count_successes l)))
                     (of_u64 (Z.of_nat (List.length l)))).
  { destruct (exists_last Hne) as (l' & a & ->).
    unfold record_attempts at 1. rewrite fold_left_app. cbn [fold_left].
    fold (record_attempts (reset s) l').
    destruct (record_attempt_counts (record_attempts (reset s) l') a)
      as (_ & _ & ER).
    rewrite ER.
    change (record_attempt (record_attempts (reset s) l') a)
      with (record_attempts (record_attempts (reset s) l') [a]).
    unfold record_attempts. rewrite <- fold_left_app.
    fold (record_attempts (reset s) (l' ++ [a])).
    destruct (record_attempts_counts (l' ++ [a]) (reset s)) as (I1 & I2);
      try (cbn; unfold u64_range; lia).
    rewrite I1, I2. cbn [reset opportunities_executed successful_executions].
    unfold wrap64. rewrite !Z.add_0_l, !Z.mod_small by lia. reflexivity. }
  assert (Hn : ~ inject_Z (Z.of_nat (List.length l)) == 0).
  { intro H. unfold Qeq, inject_Z in H. cbn [Qnum Qden] in H. lia. }
  assert (E' : success_rate (record_attempts (reset s) l)
               = Fin (inject_Z (Z.of_nat (count_successes l))
                      / inject_Z (Z.of_nat (List.length l)))).
  { rewrite E. unfold of_u64, ddiv. rewrite (Qeq_bool_false _ 0 Hn).
    reflexivity. }
  rewrite E'. split; [reflexivity|].
  assert (Hd : 0 < inject_Z (Z.of_nat (List.length l))).
  { unfold Qlt, inject_Z. cbn [Qnum Qden]. lia. }
  assert (Hs0 : 0 <= inject_Z (Z.of_nat (count_successes l))).
  { unfold Qle, inject_Z. cbn [Qnum Qden]. lia. }
  assert (Hsl : inject_Z (Z.of_nat (count_successes l))
                <= inject_Z (Z.of_nat (List.length l))).
  { rewrite <- Zle_Qle. lia. }
  cbn [dleb zero one]. split; apply Qle_bool_iff.
  - apply Qle_shift_div_l; [exact Hd|lra].
  - apply Qle_shift_div_r; [exact Hd|lra].
Qed.

End StatsSequences.

(** ** The configuration *)

Section StrMapFacts.

Context {V : Type}.
Implicit Types (m : StrMap.t V) (k : string) (v : V).

Lemma key_lt_trans a b c : key_lt a b -> key_lt b c -> key_lt a c.
Proof.
  unfold key_lt. intros H1 H2.
  apply String_as_OT.cmp_lt in H1. apply String_as_OT.cmp_lt in H2.
  apply String_as_OT.cmp_lt. eapply String_as_OT.lt_trans; eassumption.
Qed.

Lemma key_lt_neq a b : key_lt a b -> a <> b.
Proof.
  unfold key_lt. intros H E. apply String_as_OT.cmp_eq in E.
  unfold String_as_OT.cmp in E. congruence.
Qed.

Lemma compare_gt_lt a b : String.compare a b = Gt -> key_lt b a.
Proof.
  unfold key_lt. intros H. rewrite String.compare_antisym, H. reflexivity.
Qed.

Lemma find_insert_same m k v : StrMap.find k (StrMap.insert k v m) = Some v.
Proof.
  induction m as [|[k' v'] r IH]; cbn.
  - rewrite String.eqb_refl. reflexivity.
  - destruct (String.compare k k') eqn:E; cbn.
    + rewrite String.eqb_refl. reflexivity.
    + rewrite String.eqb_refl. reflexivity.
    + assert (N : k <> k').
      { intro H. apply String_as_OT.cmp_eq in H.
        unfold String_as_OT.cmp in H. congruence. }
      apply String.eqb_neq in N. rewrite N. exact IH.
Qed.

Lemma find_insert_other m k k2 v :
  k2 <> k -> StrMap.find k2 (StrMap.insert k v m) = StrMap.find k2 m.
Proof.
  intros N. pose proof N as Nb. apply String.eqb_neq in Nb.
  induction m as [|[k' v'] r IH]; cbn.
  - rewrite Nb. reflexivity.
  - destruct (String.compare k k') eqn:E; cbn.
    + apply String.compare_eq_iff in E. subst k'. rewrite Nb. reflexivity.
    + rewrite Nb. reflexivity.
    + destruct (String.eqb k2 k'); [reflexivity|exact IH].
Qed.

Lemma find_map_values (f : V -> V) m k :
  StrMap.find k (StrMap.map_values f m) = option_map f (StrMap.find k m).
Proof.
  induction m as [|[k' v'] r IH]; cbn; [reflexivity|].
  destruct (String.eqb k k'); [reflexivity|exact IH].
Qed.

Lemma keys_map_values (f : V -> V) m :
  StrMap.keys (StrMap.map_values f m) = StrMap.keys m.
Proof.
  unfold StrMap.keys, StrMap.map_values. rewrite map_map. reflexivity.
Qed.

Lemma keys_insert_In m k v k2 :
  In k2 (StrMap.keys (StrMap.insert k v m))
  <-> k2 = k \/ In k2 (StrMap.keys m).
Proof.
  induction m as [|[k' v'] r IH]; cbn.
  - intuition.
  - destruct (String.compare k k') eqn:E; cbn.
    + apply String.compare_eq_iff in E. subst k'. intuition.
    + intuition.
    + unfold StrMap.keys in IH. rewrite IH. intuition.
Qed.

Lemma sorted_insert m k v : sorted_map m -> sorted_map (StrMap.insert k v m).
Proof.
  unfold sorted_map.
  induction m as [|[k' v'] r IH]; cbn; intros Hs.
  - constructor; constructor.
  - inversion Hs as [|? ? Hr Hall]; subst.
    destruct (String.compare k k') eqn:E; cbn.
    + apply String.compare_eq_iff in E. subst k'. constructor; assumption.
    + constructor; [exact Hs|]. constructor; [exact E|].
      eapply Forall_impl; [|exact Hall].
      intros a Ha. eapply key_lt_trans; [exact E|exact Ha].
    + constructor; [apply IH; exact Hr|].
      apply Forall_forall. intros a Ha.
      apply keys_insert_In in Ha. destruct Ha as [->|Ha].
      * apply compare_gt_lt. exact E.
      * rewrite Forall_forall in Hall. apply Hall. exact Ha.
Qed.

Lemma sorted_map_values (f : V -> V) m :
  sorted_map m -> sorted_map (StrMap.map_values f m).
Proof. unfold sorted_map. rewrite keys_map_values. auto. Qed.

Lemma find_none_not_key m k :
  StrMap.find k m = None <-> ~ In k (StrMap.keys m).
Proof.
  induction m as [|[k' v'] r IH]; cbn.
  - intuition.
  - destruct (String.eqb_spec k k') as [->|N].
    + split; [discriminate|]. intros H. exfalso. apply H. left. reflexivity.
    + rewrite IH. unfold StrMap.keys. intuition congruence.
Qed.

Lemma find_some_In m k v :
  sorted_map m -> (StrMap.find k m = Some v <-> In (k, v) m).
Proof.
  unfold sorted_map.
  induction m as [|[k' v'] r IH]; cbn; intros Hs.
  - split; [discriminate|tauto].
  - inversion Hs as [|? ? Hr Hall]; subst.
    destruct (String.eqb_spec k k') as [->|N].
    + split.
      * intros [= ->]. left. reflexivity.
      * intros [[= ->]|Hin]; [reflexivity|].
        exfalso. rewrite Forall_forall in Hall.
        apply (key_lt_neq k' k'); [|reflexivity].
        apply Hall. apply (in_map fst) in Hin. exact Hin.
    + rewrite (IH Hr). split; [tauto|].
      intros [[= -> ->]|Hin]; [contradiction|exact Hin].
Qed.

End StrMapFacts.

Section ConfigFacts.

Import MainConfig ConfigManager.
#[local] Open Scope string_scope.

Lemma set_enabled_enabled b s : Config.enabled (set_enabled b s) = b.
Proof. reflexivity. Qed.

Lemma set_enabled_twice b b' s :
  set_enabled b (set_enabled b' s) = set_enabled b s.
Proof. reflexivity. Qed.

(** X14. On a name that is not in the map the constant overload of
    [get_strategy] throws, and the mutable one creates the entry with the
    default settings, which are disabled; no other entry changes and the
    keys stay ordered. *)
Theorem get_strategy_on_missing_name (m : StrategiesConfig.t) (name : string) :
  StrMap.find name m = None -> sorted_map m ->
  StrategiesConfig.get_strategy m name
  = Throw ("Strategy not found: " ++ name)
  /\ snd (StrategiesConfig.get_strategy_mut m name) = default_strategy
  /\ StrategiesConfig.get_strategy
       (fst (StrategiesConfig.get_strategy_mut m name)) name
     = Ok default_strategy
  /\ StrategiesConfig.is_strategy_enabled
       (fst (StrategiesConfig.get_strategy_mut m name)) name = false
  /\ (forall other, other <> name ->
        StrategiesConfig.get_strategy
          (fst (StrategiesConfig.get_strategy_mut m name)) other
        = StrategiesConfig.get_strategy m other)
  /\ sorted_map (fst (StrategiesConfig.get_strategy_mut m name)).
Proof.
  intros Hf Hs.
  unfold StrategiesConfig.get_strategy, StrategiesConfig.get_strategy_mut,
    StrategiesConfig.is_strategy_enabled, StrMap.at_default.
  rewrite Hf. cbn [fst snd]. rewrite find_insert_same.
  repeat split.
  - intros other Ho. rewrite find_insert_other by exact Ho. reflexivity.
  - apply sorted_insert. exact Hs.
Qed.

Lemma find_enable_strategy_same (m : StrategiesConfig.t) (name : string) :
  StrMap.find name (enable_strategy m name)
  = Some (set_enabled true
            (match StrMap.find name m with
             | Some s => s
             | None => default_strategy
             end)).
Proof.
  unfold enable_strategy, StrategiesConfig.get_strategy_mut, StrMap.at_default.
  destruct (StrMap.find name m); apply find_insert_same.
Qed.

Lemma find_enable_strategy_other (m : StrategiesConfig.t) (name k : string) :
  k <> name ->
  StrMap.find k (enable_strategy m name) = StrMap.find k m.
Proof.
  intros N.
  unfold enable_strategy, StrategiesConfig.get_strategy_mut, StrMap.at_default.
  destruct (StrMap.find name m); rewrite !find_insert_other by exact N;
    reflexivity.
Qed.

Lemma sorted_enable_strategy (m : StrategiesConfig.t) (name : string) :
  sorted_map m -> sorted_map (enable_strategy m name).
Proof.
  intros Hs.
  unfold enable_strategy, StrategiesConfig.get_strategy_mut, StrMap.at_default.
  destruct (StrMap.find name m); repeat apply sorted_insert; exact Hs.
Qed.

(** The entry of [k] after enabling the names of [l] in order. *)
Lemma find_fold_enable (l : list string) :
  forall (m : StrategiesConfig.t) (k : string),
    StrMap.find k (fold_left enable_strategy l m)
    = if existsb (String.eqb k) l then
        Some (set_enabled true
                (match StrMap.find k m with
                 | Some s => s
                 | None => default_strategy
                 end))
      else StrMap.find k m.
Proof.
  induction l as [|name l IH]; intros m k; cbn [fold_left existsb];
    [reflexivity|].
  rewrite IH.
  destruct (String.eqb_spec k name) as [->|N]; cbn [orb].
  - rewrite find_enable_strategy_same.
    destruct (existsb (String.eqb name) l); reflexivity.
  - rewrite find_enable_strategy_other by exact N. reflexivity.
Qed.

Lemma existsb_eqb_In (k : string) (l : list string) :
  existsb (String.eqb k) l = true <-> In k l.
Proof.
  rewrite existsb_exists. split.
  - intros (x & Hin & E). apply String.eqb_eq in E. subst. exact Hin.
  - intros Hin. exists k. split; [exact Hin|apply String.eqb_refl].
Qed.

(** The entry of [k] after the strategies of a non-empty list have
    replaced the enabled ones. *)
Lemma find_override_strategies
    (m : StrategiesConfig.t) (l : list string) (k : string) :
  l <> [] ->
  StrMap.find k (override_strategies m l)
  = match StrMap.find k m with
    | Some s => Some (set_enabled (existsb (String.eqb k) l) s)
    | None =>
        if existsb (String.eqb k) l
        then Some (set_enabled true default_strategy)
        else None
    end.
Proof.
  intros Hne. unfold override_strategies.
  destruct l as [|n l]; [congruence|].
  rewrite find_fold_enable, find_map_values.
  destruct (StrMap.find k m) as [s|]; cbn [option_map];
    destruct (existsb (String.eqb k) (n :: l)); reflexivity.
Qed.

Lemma override_strategies_enabled
    (m : StrategiesConfig.t) (l : list string) (k : string) :
  l <> [] ->
  StrategiesConfig.is_strategy_enabled (override_strategies m l) k = true
  <-> In k l.
Proof.
  intros Hne. unfold StrategiesConfig.is_strategy_enabled.
  rewrite (find_override_strategies m l k Hne), <- existsb_eqb_In.
  destruct (StrMap.find k m) as [s|];
    destruct (existsb (String.eqb k) l); cbn; intuition congruence.
Qed.

(** X15. The entry of [k] after [override_config] with a non-empty list of
    strategies: the settings are those of the file, or the defaults for a
    name the file does not have, and the strategy is enabled exactly when
    the list names it. *)
Theorem override_config_strategy_entry
    (config : Config) (cli : Cli.SimulationConfig) (k : string) :
  Cli.enabled_strategies cli <> [] ->
  get_strategy_config (override_config config cli) k
  = match StrMap.find k (strategies config) with
    | Some s =>
        Ok (set_enabled (existsb (String.eqb k) (Cli.enabled_strategies cli))
                        s)
    | None =>
        if existsb (String.eqb k) (Cli.enabled_strategies cli)
        then Ok (set_enabled true default_strategy)
        else Throw ("Strategy not found: " ++ k)
    end.
Proof.
  intros Hne.
  unfold get_strategy_config, override_config, StrategiesConfig.get_strategy.
  cbn [strategies]. rewrite (find_override_strategies _ _ k Hne).
  destruct (StrMap.find k (strategies config)) as [s|];
    [|destruct (existsb (String.eqb k) (Cli.enabled_strategies cli))];
    reflexivity.
Qed.

(** X16. After [override_config] with a non-empty list of strategies, the
    enabled strategies are exactly the listed ones. *)
Theorem override_config_enables_exactly
    (config : Config) (cli : Cli.SimulationConfig) (k : string) :
  Cli.enabled_strategies cli <> [] ->
  is_strategy_enabled (override_config config cli) k = true
  <-> In k (Cli.enabled_strategies cli).
Proof.
  intros Hne.
  unfold is_strategy_enabled, override_config. cbn [strategies].
  apply override_strategies_enabled. exact Hne.
Qed.

Lemma sorted_filter_keys (f : string * Config.StrategyConfig -> bool)
    (m : StrategiesConfig.t) :
  sorted_map m -> StronglySorted key_lt (map fst (filter f m)).
Proof.
  unfold sorted_map, StrMap.keys.
  induction m as [|kv r IH]; cbn; intros Hs; [constructor|].
  inversion Hs as [|? ? Hr Hall]; subst.
  destruct (f kv); cbn; [|apply IH; exact Hr].
  constructor; [apply IH; exact Hr|].
  rewrite Forall_forall in *. intros a Ha. apply Hall.
  apply in_map_iff in Ha. destruct Ha as (x & <- & Hx).
  apply filter_In in Hx. apply in_map. tauto.
Qed.

(** X17. [get_enabled_strategies] returns the names in increasing order, each
    once, and a name is returned exactly when [is_strategy_enabled] holds
    of it. *)
Theorem get_enabled_strategies_spec (config : Config) :
  sorted_map (strategies config) ->
  StronglySorted key_lt (get_enabled_strategies config)
  /\ forall name,
       In name (get_enabled_strategies config)
       <-> is_strategy_enabled config name = true.
Proof.
  intros Hs. split; [apply sorted_filter_keys; exact Hs|].
  intros name.
  unfold get_enabled_strategies, is_strategy_enabled,
    StrategiesConfig.is_strategy_enabled.
  rewrite in_map_iff. split.
  - intros ([k s] & <- & Hin). apply filter_In in Hin.
    destruct Hin as [Hin He]. cbn [fst snd] in *.
    apply (find_some_In _ _ _ Hs) in Hin. rewrite Hin. exact He.
  - destruct (StrMap.find name (strategies config)) as [s|] eqn:E;
      [|discriminate].
    intros He. exists (name, s). split; [reflexivity|].
    apply filter_In. split; [|exact He].
    apply (find_some_In _ _ _ Hs). exact E.
Qed.

Lemma strategies_error_none (m : StrategiesConfig.t) :
  strategies_error m = None
  <-> forall name s, In (name, s) m -> Config.enabled s = true ->
                     strategy_error name s = None.
Proof.
  induction m as [|[k s] r IH]; cbn.
  - split; [intros _ ? ? []|reflexivity].
  - destruct (Config.enabled s) eqn:Es.
    + destruct (strategy_error k s) eqn:Ee.
      * split; [discriminate|]. intros H.
        rewrite (H k s) in Ee; [discriminate Ee|left; reflexivity|exact Es].
      * rewrite IH. split.
        -- intros H n s' [[= <- <-]|Hin] He; [exact Ee|eauto].
        -- intros H n s' Hin He. apply (H n s'); [right; exact Hin|exact He].
    + rewrite IH. split.
      * intros H n s' [[= <- <-]|Hin] He; [congruence|eauto].
      * intros H n s' Hin He. apply (H n s'); [right; exact Hin|exact He].
Qed.

Lemma strategy_error_none_iff (name : string) (s : Config.StrategyConfig) :
  strategy_error name s = None
  <-> dltb (Config.min_profit_eth s) zero = false
      /\ dltb (Config.max_slippage_percent s) zero = false
      /\ dgtb (Config.max_slippage_percent s) hundred = false
      /\ Config.gas_limit s <> 0%Z.
Proof.
  unfold strategy_error.
  destruct (dltb (Config.min_profit_eth s) zero);
    destruct (dltb (Config.max_slippage_percent s) zero);
    destruct (dgtb (Config.max_slippage_percent s) hundred);
    destruct (Z.eqb_spec (Config.gas_limit s) 0); cbn;
    intuition congruence.
Qed.

Lemma andb_eqb0_false (b : bool) (z : Z) :
  b && (z =? 0)%Z = false <-> (b = true -> z <> 0%Z).
Proof.
  destruct b; destruct (Z.eqb_spec z 0); cbn; intuition congruence.
Qed.

(** [validate] returns normally exactly when none of its six tests fires. *)
Lemma validate_none_checks (config : Config) :
  validate config = None
  <-> SyntheticData.enabled
        (SimulationSettings.synthetic_data (simulation config))
      && (SyntheticData.transaction_rate
            (SimulationSettings.synthetic_data (simulation config)) =? 0)%Z
      = false
      /\ (PerformanceConfig.thread_pool_size (performance config) =? 0)%Z
         = false
      /\ (PerformanceConfig.queue_size (performance config) =? 0)%Z = false
      /\ String.eqb
           (Ethereum.rpc_url (BlockchainConfig.ethereum (blockchain config)))
           EmptyString
         = false
      /\ strategies_error (strategies config) = None
      /\ MetricsSettings.enabled
           (MonitoringConfig.metrics (monitoring config))
         && (MetricsSettings.port
               (MonitoringConfig.metrics (monitoring config)) =? 0)%Z
         = false.
Proof.
  unfold validate.
  destruct (SyntheticData.enabled _ && _);
    [split; [discriminate|intros (H & _); discriminate H]|].
  destruct (PerformanceConfig.thread_pool_size _ =? 0)%Z;
    [split; [discriminate|intros (_ & H & _); discriminate H]|].
  destruct (PerformanceConfig.queue_size _ =? 0)%Z;
    [split; [discriminate|intros (_ & _ & H & _); discriminate H]|].
  destruct (String.eqb _ _);
    [split; [discriminate|intros (_ & _ & _ & H & _); discriminate H]|].
  destruct (strategies_error _);
    [split; [discriminate|intros (_ & _ & _ & _ & H & _); discriminate H]|].
  destruct (MetricsSettings.enabled _ && _);
    [split; [discriminate|intros (_ & _ & _ & _ & _ & H); discriminate H]|].
  repeat split.
Qed.

(** X18. [validate] returns normally exactly when: synthetic data is disabled or
    has a non-zero transaction rate, the thread pool and queue sizes are
    not 0, the RPC URL is not empty, every enabled strategy passes its
    three checks, and metrics are disabled or have a non-zero port.
    Disabled strategies are not checked. *)
Theorem validate_accepts_iff (config : Config) :
  validate config = None
  <-> (SyntheticData.enabled
         (SimulationSettings.synthetic_data (simulation config)) = true ->
       SyntheticData.transaction_rate
         (SimulationSettings.synthetic_data (simulation config)) <> 0%Z)
      /\ PerformanceConfig.thread_pool_size (performance config) <> 0%Z
      /\ PerformanceConfig.queue_size (performance config) <> 0%Z
      /\ Ethereum.rpc_url (BlockchainConfig.ethereum (blockchain config))
         <> ""
      /\ (forall name s,
            In (name, s) (strategies config) -> Config.enabled s = true ->
            dltb (Config.min_profit_eth s) zero = false
            /\ dltb (Config.max_slippage_percent s) zero = false
            /\ dgtb (Config.max_slippage_percent s) hundred = false
            /\ Config.gas_limit s <> 0%Z)
      /\ (MetricsSettings.enabled
            (MonitoringConfig.metrics (monitoring config)) = true ->
          MetricsSettings.port
            (MonitoringConfig.metrics (monitoring config)) <> 0%Z).
Proof.
  assert (AB : forall (b : bool) (z : Z),
             b && (z =? 0)%Z = false <-> (b = true -> z <> 0%Z)).
  { intros b z. destruct b; destruct (Z.eqb_spec z 0); cbn;
      intuition congruence. }
  unfold validate. split.
  - intros H.
    destruct (SyntheticData.enabled _ && _) eqn:C1; [discriminate|].
    destruct (PerformanceConfig.thread_pool_size _ =? 0)%Z eqn:C2;
      [discriminate|].
    destruct (PerformanceConfig.queue_size _ =? 0)%Z eqn:C3; [discriminate|].
    destruct (String.eqb _ "") eqn:C4; [discriminate|].
    destruct (strategies_error _) eqn:C5; [discriminate|].
    destruct (MetricsSettings.enabled _ && _) eqn:C6; [discriminate|].
    pose proof (proj1 (AB _ _) C1) as C1'.
    pose proof (proj1 (AB _ _) C6) as C6'.
    apply Z.eqb_neq in C2. apply Z.eqb_neq in C3. apply String.eqb_neq in C4.
    rewrite strategies_error_none in C5.
    split; [exact C1'|]. split; [exact C2|]. split; [exact C3|].
    split; [exact C4|]. split; [|exact C6'].
    intros name s Hin He. apply (strategy_error_none_iff name s). eauto.
  - intros (H1 & H2 & H3 & H4 & H5 & H6).
    apply (proj2 (AB _ _)) in H1. apply (proj2 (AB _ _)) in H6.
    apply Z.eqb_neq in H2. apply Z.eqb_neq in H3. apply String.eqb_neq in H4.
    rewrite H1, H2, H3, H4, H6.
    assert (N : strategies_error (strategies config) = None).
    { apply strategies_error_none. intros n s' Hin He.
      apply strategy_error_none_iff. eauto. }
    rewrite N. reflexivity.
Qed.

Lemma sorted_fold_enable (l : list string) :
  forall m : StrategiesConfig.t,
    sorted_map m -> sorted_map (fold_left enable_strategy l m).
Proof.
  induction l as [|n l IH]; intros m Hs; cbn; [exact Hs|].
  apply IH. apply sorted_enable_strategy. exact Hs.
Qed.

Lemma sorted_override_strategies (m : StrategiesConfig.t) (l : list string) :
  sorted_map m -> sorted_map (override_strategies m l).
Proof.
  intros Hs. unfold override_strategies. destruct l as [|n l]; [exact Hs|].
  apply sorted_fold_enable. apply sorted_map_values. exact Hs.
Qed.

(** X19. A configuration that validates still validates after
    [override_config], provided the strategies of the file that the
    command line enables pass the checks of [validate]. *)
Theorem validate_after_override_config
    (config : Config) (cli : Cli.SimulationConfig) :
  sorted_map (strategies config) ->
  validate config = None ->
  (forall name s,
     StrMap.find name (strategies config) = Some s ->
     In name (Cli.enabled_strategies cli) ->
     strategy_error name s = None) ->
  validate (override_config config cli) = None.
Proof.
  intros Hs Hv Hcli.
  apply validate_none_checks in Hv.
  destruct Hv as (H1 & H2 & H3 & H4 & H5 & H6).
  pose proof (proj1 (andb_eqb0_false _ _) H1) as H1'.
  rewrite strategies_error_none in H5.
  apply validate_none_checks.
  unfold override_config.
  cbn [simulation performance blockchain monitoring strategies].
  split; [|split; [exact H2|split; [exact H3|split; [|split; [|exact H6]]]]].
  - apply andb_eqb0_false.
    unfold override_synthetic, override_mode.
    destruct (SimulationMode_eqb _ _);
      cbn [SimulationSettings.synthetic_data SyntheticData.enabled
           SyntheticData.transaction_rate];
      intros He; specialize (H1' He);
      destruct (Z.ltb_spec 0 (Cli.tx_rate cli)); lia.
  - unfold override_fork. destruct (String.eqb (Cli.fork_url cli) _); exact H4.
  - apply strategies_error_none. intros name s' Hin He.
    pose proof (sorted_override_strategies _ (Cli.enabled_strategies cli) Hs)
      as Hs'.
    apply (find_some_In _ _ _ Hs') in Hin.
    unfold override_strategies in Hin.
    destruct (Cli.enabled_strategies cli) as [|n l] eqn:El.
    + apply (H5 name s'); [|exact He].
      apply (find_some_In _ _ _ Hs). exact Hin.
    + rewrite find_fold_enable, find_map_values in Hin.
      destruct (existsb (String.eqb name) (n :: l)) eqn:Ex.
      * apply existsb_eqb_In in Ex.
        destruct (StrMap.find name (strategies config)) as [s|] eqn:Ef;
          cbn [option_map] in Hin; injection Hin as <-.
        -- exact (Hcli name s Ef Ex).
        -- reflexivity.
      * destruct (StrMap.find name (strategies config)) as [s|];
          cbn [option_map] in Hin; [|discriminate Hin].
        injection Hin as <-. discriminate He.
Qed.

(** X20. What [override_config] reads of the command line: the mode, the
    strategies, the fork URL, the fork block when the fork URL is not
    empty, the duration and the transaction rate; two command lines that
    agree on these give the same configuration.  The mode [REALTIME]
    keeps the mode of the file; with it, no strategies, no fork URL and
    neither duration nor transaction rate, nothing changes. *)
Theorem override_config_inert (config : Config) (cli : Cli.SimulationConfig) :
  (forall cli' : Cli.SimulationConfig,
     Cli.mode cli' = Cli.mode cli ->
     Cli.enabled_strategies cli' = Cli.enabled_strategies cli ->
     Cli.fork_url cli' = Cli.fork_url cli ->
     (Cli.fork_url cli <> "" -> Cli.fork_block cli' = Cli.fork_block cli) ->
     Cli.duration_seconds cli' = Cli.duration_seconds cli ->
     Cli.tx_rate cli' = Cli.tx_rate cli ->
     override_config config cli' = override_config config cli)
  /\ (Cli.mode cli = REALTIME ->
      SimulationSettings.mode (simulation (override_config config cli))
      = SimulationSettings.mode (simulation config))
  /\ (Cli.mode cli = REALTIME ->
      Cli.enabled_strategies cli = [] ->
      Cli.fork_url cli = "" ->
      Cli.duration_seconds cli = 0%Z ->
      Cli.tx_rate cli = 0%Z ->
      override_config config cli = config).
Proof.
  split; [|split].
  - intros cli' Hm Hl Hf Hb Hd Ht.
    unfold override_config, override_synthetic, override_mode, override_fork.
    rewrite Hm, Hl, Hf, Hd, Ht.
    destruct (String.eqb_spec (Cli.fork_url cli) "") as [E|N];
      [reflexivity|].
    rewrite (Hb N). reflexivity.
  - intros Hm. unfold override_config, override_synthetic, override_mode.
    rewrite Hm. reflexivity.
  - intros Hm Hl Hf Hd Ht.
    destruct config as [[mo me bs hr [sde sdr sdd]] pe st bl tr mn da se].
    unfold override_config, override_synthetic, override_mode, override_fork,
      override_strategies.
    rewrite Hm, Hl, Hf, Hd, Ht. reflexivity.
Qed.

End ConfigFacts.

(** ** The command line *)

Section SplitFacts.

Import Args.
#[local] Open Scope string_scope.

Lemma append_nil_r (s : string) : s ++ "" = s.
Proof. induction s as [|c s IH]; cbn; [reflexivity|]. rewrite IH. reflexivity. Qed.

Lemma append_assoc (a b c : string) : (a ++ b) ++ c = a ++ (b ++ c).
Proof. induction a as [|x a IH]; cbn; [reflexivity|]. rewrite IH. reflexivity. Qed.

Lemma substring_all (s : string) : String.substring 0 (String.length s) s = s.
Proof. induction s as [|c s IH]; cbn; [reflexivity|]. rewrite IH. reflexivity. Qed.

Lemma find_none_segments (s : string) :
  find "," s = None -> segments s = (s, []).
Proof.
  induction s as [|c r IH]; cbn; [reflexivity|].
  destruct (Ascii.eqb c ","); [discriminate|].
  destruct (find "," r); [discriminate|]. intros _.
  rewrite (IH eq_refl). reflexivity.
Qed.

Lemma find_some_segments (s : string) :
  forall pos, find "," s = Some pos ->
    segments s
    = (substr0 pos s,
       fst (segments (erase0 (pos + 1) s))
       :: snd (segments (erase0 (pos + 1) s)))
    /\ (String.length (erase0 (pos + 1) s) < String.length s)%nat.
Proof.
  unfold substr0, erase0.
  induction s as [|c r IH]; intros pos; cbn [find]; [discriminate|].
  destruct (Ascii.eqb c ",") eqn:Ec.
  - intros [= <-]. cbn [Nat.add String.length Nat.sub String.substring segments].
    rewrite Ec, Nat.sub_0_r, substring_all.
    destruct (segments r). split; [reflexivity|lia].
  - destruct (find "," r) as [p|]; [|discriminate].
    intros [= <-]. destruct (IH p eq_refl) as [E L].
    cbn [segments String.substring String.length Nat.add Nat.sub].
    rewrite E, Ec. split; [reflexivity|lia].
Qed.

Lemma last_cons {A} (l : list A) :
  forall x d, last (x :: l) d = last l x.
Proof.
  induction l as [|y l IH]; intros x d; [reflexivity|].
  change (last (x :: y :: l) d) with (last (y :: l) d).
  rewrite (IH y d), (IH y x). reflexivity.
Qed.

Lemma removelast_cons2 {A} (x y : A) (l : list A) :
  removelast (x :: y :: l) = x :: removelast (y :: l).
Proof. reflexivity. Qed.

Lemma split_loop_segments (fuel : nat) :
  forall s out,
    (String.length s < fuel)%nat ->
    split_loop fuel s out
    = ((out ++ removelast (fst (segments s) :: snd (segments s)))%list,
       last (snd (segments s)) (fst (segments s))).
Proof.
  induction fuel as [|fuel IH]; intros s out Hf; [lia|].
  cbn [split_loop].
  destruct (find "," s) as [pos|] eqn:Ef.
  - destruct (find_some_segments s pos Ef) as [E L].
    rewrite IH by lia. rewrite E. cbn [fst snd].
    set (g := fst (segments (erase0 (pos + 1) s))).
    set (gs := snd (segments (erase0 (pos + 1) s))).
    rewrite removelast_cons2, <- app_assoc. cbn [app].
    rewrite (last_cons gs g (substr0 pos s)). reflexivity.
  - rewrite (find_none_segments s Ef). cbn. rewrite app_nil_r. reflexivity.
Qed.

Lemma concat_segments (s : string) :
  String.concat "," (fst (segments s) :: snd (segments s)) = s.
Proof.
  induction s as [|c r IH]; [reflexivity|].
  cbn [segments]. destruct (segments r) as [g gs]. cbn [fst snd] in IH.
  destruct (Ascii.eqb_spec c ",") as [->|N]; cbn [fst snd].
  - change (String.concat "," ("" :: g :: gs))
      with ("" ++ "," ++ String.concat "," (g :: gs)).
    rewrite IH. reflexivity.
  - destruct gs as [|g2 gs].
    + cbn in IH |- *. rewrite IH. reflexivity.
    + change (String.concat "," (String c g :: g2 :: gs))
        with (String c (g ++ "," ++ String.concat "," (g2 :: gs))).
      change (String.concat "," (g :: g2 :: gs))
        with (g ++ "," ++ String.concat "," (g2 :: gs)) in IH.
      rewrite IH. reflexivity.
Qed.

Lemma segments_comma_free (s : string) :
  Forall (fun p => find "," p = None) (fst (segments s) :: snd (segments s)).
Proof.
  induction s as [|c r IH]; [repeat constructor|].
  cbn [segments]. destruct (segments r) as [g gs]. cbn [fst snd] in *.
  destruct (Ascii.eqb c ",") eqn:Ec; cbn [fst snd].
  - constructor; [reflexivity|exact IH].
  - inversion IH as [|? ? Hg Hgs]; subst.
    constructor; [|exact Hgs]. cbn [find]. rewrite Ec, Hg. reflexivity.
Qed.

Lemma concat_snoc (sep x : string) (l : list string) :
  l <> [] ->
  String.concat sep (l ++ [x])%list = String.concat sep l ++ sep ++ x.
Proof.
  induction l as [|a l IH]; [congruence|]. intros _.
  destruct l as [|b l]; [reflexivity|].
  change (String.concat sep ((a :: b :: l) ++ [x])%list)
    with (a ++ sep ++ String.concat sep ((b :: l) ++ [x])%list).
  rewrite IH by discriminate.
  change (String.concat sep (a :: b :: l))
    with (a ++ sep ++ String.concat sep (b :: l)).
  rewrite !append_assoc. reflexivity.
Qed.

Lemma add_strategies_segments (out : list string) (s : string) :
  add_strategies out s
  = (out ++ removelast (fst (segments s) :: snd (segments s))
         ++ (if String.eqb (last (snd (segments s)) (fst (segments s))) ""
             then [] else [last (snd (segments s)) (fst (segments s))]))%list.
Proof.
  unfold add_strategies. rewrite split_loop_segments by lia.
  destruct (String.eqb _ "").
  - rewrite app_nil_r. reflexivity.
  - rewrite app_assoc. reflexivity.
Qed.

Lemma segments_app_comma (p t : string) :
  find "," p = None ->
  segments (p ++ "," ++ t)
  = (p, fst (segments t) :: snd (segments t)).
Proof.
  induction p as [|c p IH]; cbn [find append].
  - intros _. cbn. destruct (segments t). reflexivity.
  - destruct (Ascii.eqb c ",") eqn:Ec; [discriminate|].
    destruct (find "," p); [discriminate|]. intros _.
    cbn [segments]. change (p ++ String "," t) with (p ++ "," ++ t).
    rewrite (IH eq_refl), Ec. reflexivity.
Qed.

(** X21. The value of [--strategies] is cut at its commas.  The empty value
    has no piece, a value without comma is its own single piece, and the
    pieces of [p,t], for [p] without comma, are [p] and the pieces of [t];
    so the empty piece after a last comma is dropped, and the empty pieces
    elsewhere are kept.  The pieces are added after the strategies already
    given, none contains a comma, and joined by commas they give the value
    back, up to one comma at its end. *)
Theorem add_strategies_round_trip (out : list string) (s : string) :
  add_strategies [] "" = []
  /\ (find "," s = None -> s <> "" -> add_strategies [] s = [s])
  /\ (forall p, find "," p = None ->
        add_strategies [] (p ++ "," ++ s) = p :: add_strategies [] s)
  /\ (find "," s = None -> add_strategies [] (s ++ ",") = [s])
  /\ add_strategies out s = (out ++ add_strategies [] s)%list
  /\ Forall (fun p => find "," p = None) (add_strategies [] s)
  /\ (s = String.concat "," (add_strategies [] s)
      \/ s = String.concat "," (add_strategies [] s) ++ ",").
Proof.
  split; [reflexivity|].
  split.
  { intros Hs Hne. rewrite add_strategies_segments.
    rewrite (find_none_segments s Hs). cbn [fst snd removelast last app].
    destruct (String.eqb_spec s "") as [E|N]; [contradiction|reflexivity]. }
  assert (Hcons : forall p t, find "," p = None ->
            add_strategies [] (p ++ "," ++ t) = p :: add_strategies [] t).
  { intros p t Hp. rewrite !add_strategies_segments.
    rewrite (segments_app_comma p t Hp). cbn [fst snd app].
    rewrite removelast_cons2.
    rewrite (last_cons (snd (segments t)) (fst (segments t)) p).
    reflexivity. }
  split; [intros p Hp; apply Hcons; exact Hp|].
  split.
  { intros Hs. change (s ++ ",") with (s ++ "," ++ "").
    rewrite (Hcons s "" Hs). reflexivity. }
  rewrite !add_strategies_segments. cbn [app].
  pose proof (concat_segments s) as Hc.
  pose proof (segments_comma_free s) as Hf.
  set (g := fst (segments s)) in *. set (gs := snd (segments s)) in *.
  assert (Hsplit : (g :: gs) = (removelast (g :: gs) ++ [last gs g])%list).
  { rewrite <- (last_cons gs g ""). apply app_removelast_last. discriminate. }
  split; [reflexivity|].
  destruct (String.eqb_spec (last gs g) "") as [E|N].
  - rewrite app_nil_r. split.
    + rewrite Hsplit in Hf. apply Forall_app in Hf. tauto.
    + rewrite Hsplit, E in Hc.
      destruct (removelast (g :: gs)) as [|a l] eqn:Er.
      * left. cbn in Hc |- *. congruence.
      * right. rewrite concat_snoc in Hc by discriminate.
        rewrite append_nil_r in Hc. congruence.
  - rewrite <- Hsplit. split; [exact Hf|left; congruence].
Qed.

End SplitFacts.

Section ParseFacts.

Import Args.
#[local] Open Scope string_scope.

Variable stoull : string -> result Z.

Ltac flag_case arg H :=
  let E := fresh "E" in
  destruct (String.eqb_spec arg H) as [E|E]; [subst arg|].

Lemma parse_from_app_le (n : nat) :
  forall pre, (List.length pre <= n)%nat ->
  forall config config' post,
    parse_from stoull config pre = Parsed config' ->
    parse_from stoull config (pre ++ post)%list
    = parse_from stoull config' post.
Proof.
  induction n as [|n IH]; intros pre Hn config config' post H.
  - destruct pre; [|cbn in Hn; lia]. cbn in H. injection H as <-. reflexivity.
  - destruct pre as [|arg rest]; [cbn in H; injection H as <-; reflexivity|].
    cbn [List.length] in Hn.
    assert (IH1 : forall c, parse_from stoull c rest = Parsed config' ->
                       parse_from stoull c (rest ++ post)%list
                       = parse_from stoull config' post)
      by (intros c Hc; apply IH; [lia|exact Hc]).
    assert (IH2 : forall v rest' c, rest = v :: rest' ->
                       parse_from stoull c rest' = Parsed config' ->
                       parse_from stoull c (rest' ++ post)%list
                       = parse_from stoull config' post)
      by (intros v rest' c -> Hc; apply IH; [cbn in Hn; lia|exact Hc]).
    clear IH.
    cbn [app].
    flag_case arg "--help"; [discriminate H|].
    flag_case arg "-h"; [discriminate H|].
    flag_case arg "--mode".
    { destruct rest as [|v rest']; [discriminate H|].
      cbn [app]. cbn in H |- *.
      destruct (String.eqb v "realtime"); [eapply IH2; eauto|].
      destruct (String.eqb v "historical"); [eapply IH2; eauto|].
      destruct (String.eqb v "synthetic"); [eapply IH2; eauto|].
      discriminate H. }
    flag_case arg "--config".
    { destruct rest as [|v rest']; [discriminate H|].
      cbn [app]. cbn in H |- *. eapply IH2; eauto. }
    flag_case arg "--strategies".
    { destruct rest as [|v rest']; [discriminate H|].
      cbn [app]. cbn -[add_strategies] in H |- *. eapply IH2; eauto. }
    flag_case arg "--block".
    { destruct rest as [|v rest']; [discriminate H|].
      cbn [app]. cbn in H |- *.
      destruct (stoull v); [eapply IH2; eauto|discriminate H]. }
    flag_case arg "--blocks".
    { destruct rest as [|v rest']; [discriminate H|].
      cbn [app]. cbn in H |- *.
      destruct (stoull v); [eapply IH2; eauto|discriminate H]. }
    flag_case arg "--duration".
    { destruct rest as [|v rest']; [discriminate H|].
      cbn [app]. cbn in H |- *.
      destruct (stoull v); [eapply IH2; eauto|discriminate H]. }
    flag_case arg "--tx-rate".
    { destruct rest as [|v rest']; [discriminate H|].
      cbn [app]. cbn in H |- *.
      destruct (stoull v); [eapply IH2; eauto|discriminate H]. }
    flag_case arg "--visualize"; [cbn in H |- *; apply IH1; exact H|].
    flag_case arg "--profile"; [cbn in H |- *; apply IH1; exact H|].
    flag_case arg "--export-csv"; [cbn in H |- *; apply IH1; exact H|].
    flag_case arg "--export-json"; [cbn in H |- *; apply IH1; exact H|].
    flag_case arg "--fork-url".
    { destruct rest as [|v rest']; [discriminate H|].
      cbn [app]. cbn in H |- *. eapply IH2; eauto. }
    flag_case arg "--fork-block".
    { destruct rest as [|v rest']; [discriminate H|].
      cbn [app]. cbn in H |- *.
      destruct (stoull v); [eapply IH2; eauto|discriminate H]. }
    exfalso. cbn [parse_from] in H.
    repeat match type of H with
           | context [String.eqb arg ?f] =>
               let N := fresh in
               assert (N : String.eqb arg f = false)
                 by (apply String.eqb_neq; assumption);
               rewrite N in H; clear N
           end.
    cbn in H. discriminate H.
Qed.

(** X22. Parsing goes left to right: where a first part of the command line
    parses on its own, the rest is parsed from the configuration it gives;
    a [--help] that follows it exits with status 0, whatever comes after. *)
Theorem parse_from_app
    (pre post : list string) (config config' : Cli.SimulationConfig) :
  parse_from stoull config pre = Parsed config' ->
  parse_from stoull config (pre ++ post)%list
  = parse_from stoull config' post
  /\ parse_from stoull config (pre ++ "--help" :: post)%list = Exit 0.
Proof.
  intros H. split.
  - apply (parse_from_app_le (List.length pre)); [lia|exact H].
  - rewrite (parse_from_app_le (List.length pre) pre (Nat.le_refl _)
               config config' _ H).
    reflexivity.
Qed.

(** X23. An option that takes a value and stands last, without one, is reported
    as an unknown argument. *)
Theorem parse_from_missing_value
    (pre : list string) (flag : string)
    (config config' : Cli.SimulationConfig) :
  parse_from stoull config pre = Parsed config' ->
  In flag value_flags ->
  parse_from stoull config (pre ++ [flag])%list
  = Raised ("Unknown argument: " ++ flag).
Proof.
  intros H Hin.
  rewrite (parse_from_app_le (List.length pre) pre (Nat.le_refl _)
             config config' _ H).
  unfold value_flags in Hin. cbn [In] in Hin.
  repeat (destruct Hin as [<-|Hin]; [reflexivity|]).
  contradiction.
Qed.

End ParseFacts.

(** ** The logger *)

Section LoggerFacts.

Import Log.
#[local] Open Scope string_scope.

Variable backup_path : string -> Z -> string.

(** The level tags have five characters each and tell the levels apart. *)
Theorem get_level_string_aligned (a b : LogLevel) :
  String.length (get_level_string a) = 5%nat
  /\ (get_level_string a = get_level_string b -> a = b).
Proof.
  split; [destruct a; reflexivity|].
  destruct a, b; cbn; intro H; try reflexivity; discriminate H.
Qed.

Lemma set_mutex_roundtrip (lg : Logger) :
  mutex_held lg = false -> set_mutex (set_mutex lg true) false = lg.
Proof. destruct lg; cbn; intros ->; reflexivity. Qed.

(** X25. After [set_level(l)] a level is enabled exactly when the logger is
    initialised and the level is at least [l]; messages below [l] leave
    logger and files as they are, and FATAL is never filtered out. *)
Theorem set_level_threshold (lg : Logger) (l l' : LogLevel) :
  mutex_held lg = false ->
  exists lg',
    set_level lg l = Done (lg', tt)
    /\ is_enabled lg' l'
       = Done (lg', initialized_ lg
                    && (level_value l <=? level_value l')%Z)
    /\ is_enabled lg' FATAL = Done (lg', initialized_ lg)
    /\ ((level_value l' < level_value l)%Z ->
        forall w now tid message,
          log backup_path lg' w now tid l' message = Done (lg', w)).
Proof.
  intros Hm. destruct lg as [cfg so sz ini mh fc]. cbn in Hm. subst mh.
  eexists. split; [reflexivity|].
  unfold is_enabled, lock_guard, log, level_geb. cbn.
  repeat split.
  - destruct l; cbn; rewrite andb_true_r; reflexivity.
  - intros Hlt w now tid message.
    assert (E : (level_value l <=? level_value l')%Z = false)
      by (apply Z.leb_gt; exact Hlt).
    rewrite E, andb_false_r. reflexivity.
Qed.

Lemma fs_step_other (fs : string -> option string) (a b p : string)
    (top k : Z) :
  p <> a -> p <> b ->
  (if fs_exists a fs then
     if (k =? top)%Z then fs_remove a fs else fs_rename a b fs
   else fs) p = fs p.
Proof.
  intros Ha Hb. apply String.eqb_neq in Ha. apply String.eqb_neq in Hb.
  destruct (fs_exists a fs); [|reflexivity].
  destruct (k =? top)%Z; unfold fs_remove, fs_rename; rewrite ?Ha, ?Hb;
    reflexivity.
Qed.

Lemma fs_step_old (fs : string -> option string) (a b : string) (top k : Z) :
  a <> b ->
  (if fs_exists a fs then
     if (k =? top)%Z then fs_remove a fs else fs_rename a b fs
   else fs) a = None.
Proof.
  intros Hab. apply String.eqb_neq in Hab.
  unfold fs_exists. destruct (fs a) eqn:E; [|exact E].
  destruct (k =? top)%Z; unfold fs_remove, fs_rename;
    rewrite ?Hab, String.eqb_refl; reflexivity.
Qed.

Lemma fs_step_new (fs : string -> option string) (a b : string) (top k : Z) :
  a <> b ->
  (if fs_exists a fs then
     if (k =? top)%Z then fs_remove a fs else fs_rename a b fs
   else fs) b
  = if (k =? top)%Z then fs b
    else match fs a with Some c => Some c | None => fs b end.
Proof.
  intros Hab. assert (Hba : b <> a) by congruence.
  apply String.eqb_neq in Hba.
  unfold fs_exists. destruct (fs a) eqn:E.
  - destruct (k =? top)%Z; unfold fs_remove, fs_rename;
      rewrite ?Hba, ?String.eqb_refl; [reflexivity|exact E].
  - destruct (k =? top)%Z; reflexivity.
Qed.

Lemma rotate_backups_other (i : nat) (top : Z) (log_path : string) :
  forall (fs : string -> option string) (p : string),
    (forall k, (1 <= k <= Z.of_nat i + 1)%Z -> p <> backup_path log_path k) ->
    rotate_backups backup_path i top log_path fs p = fs p.
Proof.
  induction i as [|j IH]; intros fs p Hp; [reflexivity|].
  cbn [rotate_backups]. rewrite IH.
  - apply fs_step_other; apply Hp; lia.
  - intros k Hk. apply Hp. lia.
Qed.

(** What the loop of [rotate_log_file] leaves: backup 1 is gone, backup
    [k] holds what backup [k - 1] held. *)
Lemma rotate_backups_shift (i : nat) (top : Z) (log_path : string) :
  forall fs : string -> option string,
    (Z.of_nat i <= top)%Z ->
    backups_distinct backup_path log_path (Z.of_nat i + 1) ->
    ((1 <= i)%nat ->
     rotate_backups backup_path i top log_path fs (backup_path log_path 1)
     = None)
    /\ (forall k, (2 <= k <= Z.of_nat i)%Z ->
          rotate_backups backup_path i top log_path fs
                         (backup_path log_path k)
          = fs (backup_path log_path (k - 1)))
    /\ ((1 <= i)%nat ->
        rotate_backups backup_path i top log_path fs
                       (backup_path log_path (Z.of_nat i + 1))
        = if (Z.of_nat i =? top)%Z
          then fs (backup_path log_path (Z.of_nat i + 1))
          else match fs (backup_path log_path (Z.of_nat i)) with
               | Some c => Some c
               | None => fs (backup_path log_path (Z.of_nat i + 1))
               end).
Proof.
  induction i as [|j IH]; intros fs Htop Hd.
  - split; [lia|]. split; [intros k Hk; lia|lia].
  - assert (Hne : forall a b, (1 <= a <= Z.of_nat (S j) + 1)%Z ->
                              (1 <= b <= Z.of_nat (S j) + 1)%Z -> a <> b ->
                              backup_path log_path a <> backup_path log_path b)
      by (intros a b Ha Hb Hab E; apply Hab; apply Hd; assumption).
    cbn [rotate_backups].
    set (old := backup_path log_path (Z.of_nat (S j))).
    set (new := backup_path log_path (Z.of_nat (S j) + 1)).
    set (fs' := if fs_exists old fs then _ else fs).
    assert (Hon : old <> new) by (apply Hne; lia).
    assert (F1 : fs' old = None) by (apply fs_step_old; exact Hon).
    assert (F2 : fs' new
                 = if (Z.of_nat (S j) =? top)%Z then fs new
                   else match fs old with Some c => Some c | None => fs new end)
      by (apply fs_step_new; exact Hon).
    assert (F3 : forall p, p <> old -> p <> new -> fs' p = fs p)
      by (intros p Ho Hn; apply fs_step_other; assumption).
    destruct (IH fs') as (Ia & Ib & Ic); [lia| |].
    { intros a b Ha Hb. apply Hd; lia. }
    split; [|split].
    + intros _. destruct j as [|j'].
      * cbn [rotate_backups]. exact F1.
      * apply Ia. lia.
    + intros k Hk.
      destruct (Z.eq_dec k (Z.of_nat (S j))) as [->|Hk'].
      * destruct j as [|j']; [lia|].
        replace (Z.of_nat (S (S j'))) with (Z.of_nat (S j') + 1)%Z by lia.
        rewrite Ic by lia.
        replace (Z.of_nat (S j') + 1 - 1)%Z with (Z.of_nat (S j')) by lia.
        destruct (Z.eqb_spec (Z.of_nat (S j')) top) as [E|_]; [lia|].
        replace (backup_path log_path (Z.of_nat (S j') + 1)) with old
          by (unfold old; f_equal; lia).
        rewrite F1, F3; [|apply Hne; lia|apply Hne; lia].
        destruct (fs (backup_path log_path (Z.of_nat (S j')))); reflexivity.
      * rewrite Ib by lia. apply F3; apply Hne; lia.
    + intros _.
      rewrite rotate_backups_other; [exact F2|].
      intros k Hk. apply Hne; lia.
Qed.

Lemma length_append (a b : string) :
  String.length (a ++ b) = (String.length a + String.length b)%nat.
Proof. induction a as [|c a IH]; cbn; [reflexivity|]. rewrite IH. reflexivity. Qed.

Lemma wrap64_plus (a b : Z) : wrap64 (wrap64 a + wrap64 b) = wrap64 (a + b).
Proof. unfold wrap64. symmetry. apply Zplus_mod. Qed.

Lemma wrap64_idem (a : Z) : wrap64 (wrap64 a) = wrap64 a.
Proof. unfold wrap64. apply Zmod_mod. Qed.

(** [rotate_log_file] returns, whether it rotates or not, and keeps the
    size in step with the log file. *)
Lemma rotate_log_file_keeps (lg : Logger) (w : World) :
  backups_apart backup_path (file (config_ lg)) ->
  size_inv lg w ->
  exists lg' w',
    rotate_log_file backup_path lg w = Done (lg', w')
    /\ size_inv lg' w'
    /\ config_ lg' = config_ lg
    /\ stream_open lg' = stream_open lg
    /\ initialized_ lg' = initialized_ lg
    /\ mutex_held lg' = mutex_held lg
    /\ console w' = console w.
Proof.
  intros Ha Hinv. unfold rotate_log_file.
  destruct (stream_open lg) eqn:Eo; cbn [negb];
    [|exists lg, w; repeat split; assumption].
  destruct (current_file_size_ lg <? max_size_bytes (config_ lg))%Z;
    [exists lg, w; repeat split; assumption|].
  destruct (Hinv Eo) as (c & Ec & _).
  set (log_path := file (config_ lg)) in *.
  set (top := wrap32 (max_files (config_ lg) - 1)).
  assert (E1 : rotate_backups backup_path (Z.to_nat (to_int top)) top
                 log_path (files w) log_path = Some c).
  { rewrite rotate_backups_other; [exact Ec|].
    intros k _ E. exact (Ha k (eq_sym E)). }
  unfold fs_exists at 1. rewrite E1.
  eexists. eexists. split; [reflexivity|].
  split; [|repeat split; exact Eo].
  intros _. exists "". cbn [files config_ set_size current_file_size_].
  fold log_path. unfold fs_open_append. rewrite String.eqb_refl.
  unfold fs_rename.
  assert (N : String.eqb log_path (backup_path log_path 1) = false)
    by (apply String.eqb_neq; intro E; exact (Ha 1%Z (eq_sym E))).
  rewrite N, String.eqb_refl. split; reflexivity.
Qed.

Lemma write_to_file_keeps (lg : Logger) (w : World) (message : string) :
  backups_apart backup_path (file (config_ lg)) ->
  size_inv lg w ->
  exists lg' w',
    write_to_file backup_path lg w message = Done (lg', w')
    /\ size_inv lg' w'
    /\ config_ lg' = config_ lg
    /\ stream_open lg' = stream_open lg
    /\ initialized_ lg' = initialized_ lg
    /\ mutex_held lg' = mutex_held lg
    /\ console w' = console w.
Proof.
  intros Ha Hinv. unfold write_to_file.
  destruct (rotate_log_file_keeps lg w Ha Hinv)
    as (lg1 & w1 & E & I1 & Ec & Eo & Ei & Em & Eco).
  rewrite E. eexists. eexists. split; [reflexivity|].
  cbn [config_ stream_open initialized_ mutex_held console].
  repeat split; try assumption.
  unfold size_inv. cbn [stream_open config_ files current_file_size_].
  intros Hopen. destruct (I1 Hopen) as (c & Hc & Hs).
  rewrite Hopen. exists (c ++ (message ++ newline)).
  unfold fs_append. rewrite String.eqb_refl, Hc. split; [reflexivity|].
  rewrite Hs, wrap64_plus, !length_append. cbn [String.length newline].
  f_equal. lia.
Qed.

Lemma log_internal_keeps (lg : Logger) (w : World) (now tid : string)
    (l : LogLevel) (message : string) :
  backups_apart backup_path (file (config_ lg)) ->
  size_inv lg w ->
  exists lg' w',
    log_internal backup_path lg w now tid l message = Done (lg', w')
    /\ size_inv lg' w'
    /\ config_ lg' = config_ lg
    /\ stream_open lg' = stream_open lg
    /\ initialized_ lg' = initialized_ lg
    /\ mutex_held lg' = mutex_held lg.
Proof.
  intros Ha Hinv. unfold log_internal.
  set (m := format_message (config_ lg) now tid l message).
  set (w1 := if console_output (config_ lg) then write_to_console w m else w).
  assert (Hinv1 : size_inv lg w1)
    by (unfold w1; destruct (console_output (config_ lg)); exact Hinv).
  destruct (file_output (config_ lg) && stream_open lg).
  - destruct (write_to_file_keeps lg w1 m Ha Hinv1)
      as (lg' & w' & E & I & Ec & Eo & Ei & Em & _).
    exists lg', w'. repeat split; assumption.
  - exists lg, w1. repeat split; assumption.
Qed.

(** X26. [log] never throws, and keeps [current_file_size_] equal to the size
    of the log file, provided no backup has the path of the log file. *)
Theorem log_keeps_size (lg : Logger) (w : World) (now tid : string)
    (l : LogLevel) (message : string) :
  backups_apart backup_path (file (config_ lg)) ->
  size_inv lg w ->
  exists lg' w',
    log backup_path lg w now tid l message = Done (lg', w')
    /\ size_inv lg' w'
    /\ config_ lg' = config_ lg.
Proof.
  intros Ha Hinv. unfold log.
  destruct (initialized_ lg && level_geb l (level (config_ lg))).
  - destruct (log_internal_keeps lg w now tid l message Ha Hinv)
      as (lg' & w' & E & I & Ec & _).
    exists lg', w'. repeat split; assumption.
  - exists lg, w. repeat split; assumption.
Qed.

(** X27. [initialize] on a fresh logger returns with the logger initialised and
    [current_file_size_] equal to the size of the log file it opened. *)
Theorem initialize_sets_size (lg : Logger) (w : World)
    (config : LoggingConfig) (now tid : string) :
  mutex_held lg = false -> initialized_ lg = false ->
  stream_open lg = false ->
  backups_apart backup_path (file config) ->
  exists lg' w',
    initialize backup_path lg w config now tid = Done (lg', w')
    /\ size_inv lg' w'
    /\ initialized_ lg' = true
    /\ config_ lg' = config
    /\ mutex_held lg' = false.
Proof.
  intros Hm Hi Ho Ha. unfold initialize, lock_guard.
  rewrite Hm. cbn [set_mutex initialized_ stream_open mutex_held
                   current_file_size_ flush_counter]. rewrite Hi, Ho.
  set (opens := file_output config && negb (String.eqb (file config) "")).
  match goal with
  | |- context [log_internal _ ?a ?b _ _ _ _] =>
      destruct (log_internal_keeps a b now tid INFO "Logger initialized")
        as (lg' & w' & E & I & Ec & _ & Ei & Em)
  end.
  - exact Ha.
  - unfold size_inv. cbn [stream_open config_ files current_file_size_].
    destruct opens; [|discriminate].
    intros _. unfold fs_open_append. rewrite String.eqb_refl.
    eexists. split; reflexivity.
  - rewrite E. eexists. eexists. split; [reflexivity|].
    cbn [initialized_ config_ mutex_held set_mutex] in *.
    repeat split; assumption.
Qed.

(** X28. When the log file has reached its limit, [rotate_log_file] moves it
    to backup 1 and every backup [k - 1] to backup [k], up to backup
    [max_files - 1], whose former content is dropped; the log file starts
    again empty. *)
Theorem rotate_log_file_shifts (lg : Logger) (w : World) (c : string) :
  stream_open lg = true ->
  (max_size_bytes (config_ lg) <= current_file_size_ lg)%Z ->
  (2 <= max_files (config_ lg) < 2 ^ 31)%Z ->
  files w (file (config_ lg)) = Some c ->
  backups_apart backup_path (file (config_ lg)) ->
  backups_distinct backup_path (file (config_ lg)) (max_files (config_ lg)) ->
  exists lg' w',
    rotate_log_file backup_path lg w = Done (lg', w')
    /\ current_file_size_ lg' = 0%Z
    /\ files w' (file (config_ lg)) = Some ""
    /\ files w' (backup_path (file (config_ lg)) 1) = Some c
    /\ (forall k, (2 <= k <= max_files (config_ lg) - 1)%Z ->
          files w' (backup_path (file (config_ lg)) k)
          = files w (backup_path (file (config_ lg)) (k - 1)))
    /\ (forall p,
          p <> file (config_ lg) ->
          (forall k, (1 <= k <= max_files (config_ lg) - 1)%Z ->
                     p <> backup_path (file (config_ lg)) k) ->
          files w' p = files w p).
Proof.
  intros Ho Hsz Hmf Hc Ha Hd. unfold rotate_log_file.
  rewrite Ho. cbn [negb].
  destruct (Z.ltb_spec (current_file_size_ lg) (max_size_bytes (config_ lg)))
    as [Hlt|_]; [lia|].
  set (log_path := file (config_ lg)) in *.
  set (n := max_files (config_ lg)) in *.
  assert (Etop : wrap32 (n - 1) = (n - 1)%Z)
    by (unfold wrap32; apply Z.mod_small; lia).
  rewrite Etop.
  assert (Eint : to_int (n - 1) = (n - 1)%Z).
  { unfold to_int. destruct (Z.ltb_spec (n - 1) (2 ^ 31)); [reflexivity|lia]. }
  rewrite Eint.
  set (i := Z.to_nat (n - 1)).
  assert (Ei : Z.of_nat i = (n - 1)%Z) by (unfold i; lia).
  set (fs1 := rotate_backups backup_path i (n - 1) log_path (files w)).
  assert (Hother : forall p,
             (forall k, (1 <= k <= n)%Z -> p <> backup_path log_path k) ->
             fs1 p = files w p).
  { intros p Hp. unfold fs1. apply rotate_backups_other.
    intros k Hk. apply Hp. lia. }
  assert (E1 : fs1 log_path = Some c).
  { rewrite Hother; [exact Hc|]. intros k _ E. exact (Ha k (eq_sym E)). }
  destruct (rotate_backups_shift i (n - 1) log_path (files w))
    as (Sa & Sb & Sc); [lia| |].
  { intros a b Ha' Hb'. apply Hd; lia. }
  fold fs1 in Sa, Sb, Sc.
  unfold fs_exists at 1. rewrite E1.
  eexists. eexists. split; [reflexivity|].
  cbn [set_size current_file_size_ files].
  assert (N1 : forall k, String.eqb (backup_path log_path k) log_path = false)
    by (intro k; apply String.eqb_neq; apply Ha).
  assert (N1' : forall k, String.eqb log_path (backup_path log_path k) = false)
    by (intro k; rewrite String.eqb_sym; apply N1).
  assert (Nk : forall k, (2 <= k <= n)%Z ->
             String.eqb (backup_path log_path k) (backup_path log_path 1)
             = false).
  { intros k Hk. apply String.eqb_neq. intro E. apply Hd in E; lia. }
  split; [reflexivity|]. split; [|split; [|split]].
  - unfold fs_open_append, fs_rename.
    rewrite String.eqb_refl, N1'. reflexivity.
  - unfold fs_open_append, fs_rename.
    rewrite N1, String.eqb_refl. exact E1.
  - intros k Hk. unfold fs_open_append, fs_rename.
    rewrite N1, Nk by lia. apply Sb. lia.
  - intros p Hp Hpk. unfold fs_open_append, fs_rename.
    destruct (String.eqb_spec p log_path) as [E|_]; [contradiction|].
    destruct (String.eqb_spec p (backup_path log_path 1)) as [E|_].
    { exfalso. apply (Hpk 1%Z); [lia|exact E]. }
    destruct (String.eqb_spec p (backup_path log_path n)) as [->|Hn].
    + replace n with (Z.of_nat i + 1)%Z at 1 by lia.
      rewrite Sc by lia.
      rewrite Ei, Z.eqb_refl.
      replace (n - 1 + 1)%Z with n by lia. reflexivity.
    + apply Hother. intros k Hk.
      destruct (Z.eq_dec k n) as [->|Hkn]; [exact Hn|].
      apply Hpk. lia.
Qed.

Lemma max_size_bytes_mod (cfg : LoggingConfig) :
  max_size_bytes cfg = ((max_file_size_mb cfg * 1048576) mod 2 ^ 32)%Z.
Proof.
  unfold max_size_bytes, wrap32.
  rewrite Z.mul_mod_idemp_l by lia. f_equal. lia.
Qed.

Lemma max_size_bytes_exact (cfg : LoggingConfig) :
  (0 <= max_file_size_mb cfg < 4096)%Z ->
  max_size_bytes cfg = (max_file_size_mb cfg * 1048576)%Z.
Proof.
  intros H. rewrite max_size_bytes_mod. apply Z.mod_small. lia.
Qed.

Lemma max_size_bytes_wrapped (cfg : LoggingConfig) :
  (max_file_size_mb cfg mod 4096 = 0)%Z -> max_size_bytes cfg = 0%Z.
Proof.
  intros H. rewrite max_size_bytes_mod.
  apply Z.mod_divide in H; [|lia]. destruct H as [q ->].
  replace (q * 4096 * 1048576)%Z with (q * 2 ^ 32)%Z by lia.
  apply Z.mod_mul. lia.
Qed.

(** X29. The limit is computed in 32 bits: with [max_file_size_mb] a multiple
    of 4096 it is 0, every write rotates, and after a logged message the
    log file holds that one line only. *)
Theorem wrapped_limit_keeps_one_line (lg : Logger) (w : World)
    (now tid : string) (l : LogLevel) (message : string) :
  (max_file_size_mb (config_ lg) mod 4096 = 0)%Z ->
  backups_apart backup_path (file (config_ lg)) ->
  size_inv lg w ->
  stream_open lg = true ->
  file_output (config_ lg) = true ->
  initialized_ lg = true ->
  level_geb l (level (config_ lg)) = true ->
  exists lg' w',
    log backup_path lg w now tid l message = Done (lg', w')
    /\ files w' (file (config_ lg))
       = Some (format_message (config_ lg) now tid l message ++ newline).
Proof.
  intros Hmb Ha Hinv Ho Hf Hi Hl.
  unfold log, log_internal. rewrite Hi, Hl, Hf, Ho. cbn [andb].
  set (m := format_message (config_ lg) now tid l message).
  set (w1 := if console_output (config_ lg) then write_to_console w m else w).
  assert (Hfiles : files w1 = files w)
    by (unfold w1; destruct (console_output (config_ lg)); reflexivity).
  destruct (Hinv Ho) as (c & Hc & Hs).
  unfold write_to_file, rotate_log_file.
  rewrite Ho, (max_size_bytes_wrapped _ Hmb). cbn [negb].
  assert (Hnn : (current_file_size_ lg <? 0)%Z = false).
  { apply Z.ltb_ge. rewrite Hs. unfold wrap64.
    apply Z.mod_pos_bound. reflexivity. }
  rewrite Hnn, Hfiles.
  set (log_path := file (config_ lg)) in *.
  set (top := wrap32 (max_files (config_ lg) - 1)).
  assert (E1 : rotate_backups backup_path (Z.to_nat (to_int top)) top
                 log_path (files w) log_path = Some c).
  { rewrite rotate_backups_other; [exact Hc|].
    intros k _ E. exact (Ha k (eq_sym E)). }
  unfold fs_exists at 1. rewrite E1.
  eexists. eexists. split; [reflexivity|].
  cbn [files config_ set_size stream_open]. fold log_path.
  unfold fs_append, fs_open_append, fs_rename.
  assert (N : String.eqb log_path (backup_path log_path 1) = false)
    by (apply String.eqb_neq; intro E; exact (Ha 1%Z (eq_sym E))).
  rewrite !String.eqb_refl, N. reflexivity.
Qed.

Lemma log_internal_mutex (lg : Logger) (w : World) (now tid : string)
    (l : LogLevel) (message : string) (lg' : Logger) (w' : World) :
  log_internal backup_path lg w now tid l message = Done (lg', w') ->
  mutex_held lg' = mutex_held lg.
Proof.
  unfold log_internal, write_to_file, rotate_log_file.
  destruct (file_output (config_ lg) && stream_open lg);
    [|intros [= <- _]; reflexivity].
  destruct (negb (stream_open lg)); [intros [= <- _]; reflexivity|].
  destruct (_ <? _)%Z; [intros [= <- _]; reflexivity|].
  destruct (fs_exists _ _); [intros [= <- _]; reflexivity|discriminate].
Qed.

(** X30. [shutdown] of an initialised logger never returns: after the last
    message it calls [flush], which locks the mutex that [shutdown] still
    holds.  On a logger that is not initialised it does nothing. *)
Theorem shutdown_relocks (lg : Logger) (w : World) (now tid : string) :
  mutex_held lg = false ->
  (initialized_ lg = true ->
   (forall r, shutdown backup_path lg w now tid <> Done r)
   /\ (backups_apart backup_path (file (config_ lg)) -> size_inv lg w ->
       shutdown backup_path lg w now tid = Relocks))
  /\ (initialized_ lg = false ->
      shutdown backup_path lg w now tid = Done (lg, w)).
Proof.
  intros Hm. split.
  - intros Hi.
    assert (Hi0 : initialized_ (set_mutex lg true) = true) by exact Hi.
    unfold shutdown, lock_guard. rewrite Hm, Hi0.
    split.
    + intros r.
      destruct (log_internal backup_path (set_mutex lg true) w now tid INFO _)
        as [[lg1 w1]| |] eqn:E; try discriminate.
      apply log_internal_mutex in E. cbn in E.
      unfold flush, lock_guard. rewrite E. discriminate.
    + intros Ha Hinv.
      destruct (log_internal_keeps (set_mutex lg true) w now tid INFO
                  "Logger shutting down")
        as (lg1 & w1 & E & _ & _ & _ & _ & Em); [exact Ha|exact Hinv|].
      rewrite E. unfold flush, lock_guard. rewrite Em. reflexivity.
  - intros Hi. unfold shutdown, lock_guard. rewrite Hm.
    cbn [set_mutex initialized_]. rewrite Hi.
    destruct lg; cbn in *; subst; reflexivity.
Qed.

End LoggerFacts.

(** ** The command line and the configuration together *)

Section CommandLineStrategies.

Import Args ConfigManager.

(** X24. The strategies enabled after [--strategies value] has been parsed and
    applied are exactly the pieces of the value. *)
Theorem strategies_flag_enables
    (stoull : string -> result Z) (config : MainConfig.Config)
    (value name : string) (cli : Cli.SimulationConfig) :
  parse_arguments stoull ["--strategies"%string; value] = Parsed cli ->
  add_strategies [] value <> [] ->
  is_strategy_enabled (override_config config cli) name = true
  <-> In name (add_strategies [] value).
Proof.
  intros Hp Hne.
  unfold parse_arguments in Hp. cbn -[add_strategies] in Hp.
  injection Hp as <-.
  unfold is_strategy_enabled, override_config. cbn [MainConfig.strategies].
  apply override_strategies_enabled. exact Hne.
Qed.

End CommandLineStrategies.

(** ** The properties on sample values *)

Section Samples.

Import Args ConfigManager.
Open Scope Q_scope.

Lemma costly_pair_live : live_pool costly_pair 1000 1000 1.
Proof. constructor; try reflexivity; discriminate. Qed.

Lemma sample_pair_reserves : live_pool_reserves sample_pair 1000 1000.
Proof. constructor; reflexivity. Qed.

Lemma sample_config_sorted : sorted_map (MainConfig.strategies sample_config).
Proof. repeat constructor. Qed.

Lemma swap_keeps_product_witness :
  exists out,
    calculate_output_amount sample_pair (Fin 10) true = Fin out
    /\ (1000 + 10 * fee_mult (3 # 10)) * (1000 - out) == 1000 * 1000.
Proof.
  apply (swap_keeps_product sample_pair 1000 1000 (3 # 10) 10 true
           sample_pair_live).
  reflexivity.
Defined.

Lemma swap_grows_product_witness :
  exists out,
    calculate_output_amount sample_pair (Fin 10) true = Fin out
    /\ 1000 * 1000 < (1000 + 10) * (1000 - out).
Proof.
  destruct (swap_grows_product sample_pair 1000 1000 (3 # 10) 10 true
              sample_pair_live eq_refl) as (out & E & _ & _ & H).
  exists out. split; [exact E|]. apply H. reflexivity.
Defined.

Lemma swap_below_quoted_price_witness :
  dltb (calculate_output_amount sample_pair (Fin 10) false)
       (dmul (Fin 10) (calculate_price sample_pair)) = true.
Proof.
  apply (swap_below_quoted_price sample_pair 1000 1000 (3 # 10) 10
           sample_pair_live).
  reflexivity.
Defined.

Lemma higher_fee_lower_output_witness :
  dltb (calculate_output_amount costly_pair (Fin 10) true)
       (calculate_output_amount sample_pair (Fin 10) true) = true.
Proof.
  apply (higher_fee_lower_output sample_pair costly_pair 1000 1000
           (3 # 10) 1 10 true sample_pair_live costly_pair_live);
    reflexivity.
Defined.

Lemma split_swap_quotes_more_witness :
  dltb (calculate_output_amount sample_pair (Fin (10 + 20)) true)
       (dadd (calculate_output_amount sample_pair (Fin 10) true)
             (calculate_output_amount sample_pair (Fin 20) true)) = true.
Proof.
  apply (split_swap_quotes_more sample_pair 1000 1000 (3 # 10) 10 20 true
           sample_pair_live);
    reflexivity.
Defined.

Lemma free_pair_reserves : live_pool_reserves free_pair 1000 1000.
Proof. constructor; reflexivity. Qed.

Lemma swap_divides_by_zero_needs_negative_witness :
  div_by_zero (calculate_output_amount_ev free_pair (Fin (- 1000)) true)
  = true.
Proof.
  apply (swap_divides_by_zero_needs_negative free_pair 1000 1000 0 (- 1000)
           true free_pair_reserves eq_refl);
    reflexivity.
Defined.

Lemma swap_of_nothing_witness :
  deq (calculate_output_amount sample_pair (Fin 0) true) zero
  /\ div_by_zero (calculate_output_amount_ev sample_pair (Fin 0) true)
     = false.
Proof.
  apply (swap_of_nothing sample_pair 1000 1000 (3 # 10) 0 true
           sample_pair_reserves eq_refl).
  left. reflexivity.
Defined.

Lemma avg_profit_is_mean_of_successes_witness :
  total_profit_eth (apply_updates (reset initial_stats) sample_attempts)
  = dsum (profits_of sample_attempts)
  /\ avg_profit_eth (apply_updates (reset initial_stats) sample_attempts)
     = dmean (profits_of sample_attempts).
Proof.
  apply (avg_profit_is_mean_of_successes initial_stats sample_attempts).
  - cbn. lia.
  - cbn. lia.
Defined.

Lemma latency_extrema_bound_all_witness :
  Forall (fun a =>
            dleb (min_execution_latency_us
                    (apply_updates (reset initial_stats) sample_attempts))
                 (latency_of a) = true
            /\ dleb (latency_of a)
                    (max_execution_latency_us
                       (apply_updates (reset initial_stats) sample_attempts))
               = true) sample_attempts.
Proof.
  apply (latency_extrema_bound_all initial_stats sample_attempts).
  repeat constructor.
Defined.

Lemma profit_extrema_bound_all_witness :
  dleb zero (max_profit_eth
               (apply_updates (reset initial_stats) sample_attempts)) = true.
Proof.
  apply (profit_extrema_bound_all initial_stats sample_attempts).
  repeat constructor.
Defined.

Lemma update_divides_by_zero_iff_witness :
  div_by_zero (update_failure_ev initial_stats (Fin 1)) = true.
Proof.
  apply (update_divides_by_zero_iff initial_stats (Fin 1) (Fin 0) (Fin 1)).
  - unfold u64_range. cbn. lia.
  - reflexivity.
Defined.

Lemma success_rate_is_ratio_witness :
  success_rate (record_attempts (reset initial_stats) sample_attempts)
  = Fin (inject_Z 2 / inject_Z 3).
Proof.
  apply (success_rate_is_ratio initial_stats sample_attempts).
  - discriminate.
  - cbn. lia.
Defined.

Lemma get_strategy_on_missing_name_witness :
  StrategiesConfig.get_strategy (MainConfig.strategies sample_config)
                                "frontrun"
  = Throw "Strategy not found: frontrun".
Proof.
  apply (get_strategy_on_missing_name
           (MainConfig.strategies sample_config) "frontrun").
  - reflexivity.
  - exact sample_config_sorted.
Defined.

Lemma override_config_strategy_entry_witness :
  get_strategy_config (override_config sample_config sample_cli) "sandwich"
  = Ok (set_enabled false broken_strategy).
Proof.
  apply (override_config_strategy_entry sample_config sample_cli "sandwich").
  discriminate.
Defined.

Lemma override_config_enables_exactly_witness :
  is_strategy_enabled (override_config sample_config sample_cli) "frontrun"
  = true.
Proof.
  apply (override_config_enables_exactly sample_config sample_cli "frontrun").
  - discriminate.
  - right. left. reflexivity.
Defined.

Lemma get_enabled_strategies_spec_witness :
  In "arbitrage"%string (get_enabled_strategies sample_config).
Proof.
  apply (get_enabled_strategies_spec sample_config sample_config_sorted).
  reflexivity.
Defined.

Lemma validate_after_override_config_witness :
  validate (override_config sample_config sample_cli) = None.
Proof.
  apply (validate_after_override_config sample_config sample_cli).
  - exact sample_config_sorted.
  - reflexivity.
  - intros name s Hf [<-|[<-|[]]].
    + injection Hf as <-. reflexivity.
    + discriminate Hf.
Defined.

Lemma override_config_inert_witness :
  override_config sample_config
    (set_fork_block (set_start_block sample_cli 7) 9)
  = override_config sample_config sample_cli
  /\ override_config sample_config Cli.default = sample_config.
Proof.
  split.
  - apply (override_config_inert sample_config sample_cli);
      try reflexivity.
    intros N. exfalso. apply N. reflexivity.
  - apply (override_config_inert sample_config Cli.default); reflexivity.
Defined.

Lemma parse_from_app_witness :
  parse_from no_stoull Cli.default
             (["--visualize"%string] ++ "--help"%string :: ["--bogus"%string])
  = Exit 0.
Proof.
  apply (parse_from_app no_stoull ["--visualize"%string] ["--bogus"%string]
           Cli.default (set_enable_visualization Cli.default true)).
  reflexivity.
Defined.

Lemma parse_from_missing_value_witness :
  parse_from no_stoull Cli.default
             (["--visualize"%string] ++ ["--config"%string])
  = Raised "Unknown argument: --config".
Proof.
  apply (parse_from_missing_value no_stoull ["--visualize"%string]
           "--config" Cli.default
           (set_enable_visualization Cli.default true)).
  - reflexivity.
  - right. left. reflexivity.
Defined.

Lemma strategies_flag_enables_witness :
  is_strategy_enabled (override_config sample_config sample_cli) "frontrun"
  = true.
Proof.
  apply (strategies_flag_enables no_stoull sample_config
           "arbitrage,frontrun" "frontrun" sample_cli).
  - reflexivity.
  - discriminate.
  - right. left. reflexivity.
Defined.

End Samples.

Section LoggerSamples.

Import Log.

Lemma sample_backup_apart (log_path : string) :
  backups_apart sample_backup log_path.
Proof.
  intros i E. apply (f_equal String.length) in E.
  unfold sample_backup in E. rewrite length_append in E.
  destruct (i =? 1)%Z; [|destruct (i =? 2)%Z]; cbn in E; lia.
Qed.

Lemma append_inj_l (a b c : string) : (a ++ b = a ++ c)%string -> b = c.
Proof.
  induction a as [|x a IH]; cbn; [auto|]. intros [= H]. auto.
Qed.

Lemma sample_backup_distinct (log_path : string) :
  backups_distinct sample_backup log_path 3.
Proof.
  intros a b Ha Hb E. unfold sample_backup in E. apply append_inj_l in E.
  assert (Ca : (a = 1 \/ a = 2 \/ a = 3)%Z) by lia.
  assert (Cb : (b = 1 \/ b = 2 \/ b = 3)%Z) by lia.
  destruct Ca as [-> | [-> | ->]]; destruct Cb as [-> | [-> | ->]];
    try reflexivity; discriminate E.
Qed.

Lemma sample_size_inv : size_inv sample_logger sample_world.
Proof. intros _. exists "old"%string. split; reflexivity. Qed.

Lemma set_level_threshold_witness :
  exists lg',
    set_level sample_logger WARN = Done (lg', tt)
    /\ is_enabled lg' FATAL = Done (lg', true).
Proof.
  destruct (set_level_threshold sample_backup sample_logger WARN INFO eq_refl)
    as (lg' & E & _ & F & _).
  exists lg'. split; [exact E|exact F].
Defined.

Lemma log_keeps_size_witness :
  exists lg' w',
    log sample_backup sample_logger sample_world "" "" ERROR "boom"
    = Done (lg', w')
    /\ size_inv lg' w'.
Proof.
  destruct (log_keeps_size sample_backup sample_logger sample_world "" ""
              ERROR "boom" (sample_backup_apart _) sample_size_inv)
    as (lg' & w' & E & I & _).
  exists lg', w'. split; [exact E|exact I].
Defined.

Lemma initialize_sets_size_witness :
  exists lg' w',
    initialize sample_backup fresh_logger sample_world default_config "" ""
    = Done (lg', w')
    /\ size_inv lg' w' /\ initialized_ lg' = true.
Proof.
  destruct (initialize_sets_size sample_backup fresh_logger sample_world
              default_config "" "" eq_refl eq_refl eq_refl
              (sample_backup_apart _))
    as (lg' & w' & E & I & Hi & _).
  exists lg', w'. repeat split; assumption.
Defined.

Lemma rotate_log_file_shifts_witness :
  exists lg' w',
    rotate_log_file sample_backup sample_logger sample_world = Done (lg', w')
    /\ files w' "app.log"%string = Some ""%string
    /\ files w' "app.log.1"%string = Some "old"%string
    /\ files w' "app.log.2"%string = Some "older"%string.
Proof.
  destruct (rotate_log_file_shifts sample_backup sample_logger sample_world
              "old" eq_refl)
    as (lg' & w' & E & _ & F0 & F1 & Fk & _).
  - cbn. lia.
  - cbn. lia.
  - reflexivity.
  - apply sample_backup_apart.
  - apply sample_backup_distinct.
  - exists lg', w'. split; [exact E|]. split; [exact F0|].
    split; [exact F1|]. apply (Fk 2%Z). cbn. lia.
Defined.

Lemma wrapped_limit_keeps_one_line_witness :
  exists lg' w',
    log sample_backup sample_logger sample_world "" "" ERROR "boom"
    = Done (lg', w')
    /\ files w' "app.log"%string
       = Some (format_message (config_ sample_logger) "" "" ERROR "boom"
               ++ newline)%string.
Proof.
  apply (wrapped_limit_keeps_one_line sample_backup sample_logger
           sample_world "" "" ERROR "boom");
    try reflexivity.
  - apply sample_backup_apart.
  - exact sample_size_inv.
Defined.

Lemma shutdown_relocks_witness :
  shutdown sample_backup sample_logger sample_world "" "" = Relocks.
Proof.
  apply (shutdown_relocks sample_backup sample_logger sample_world "" ""
           eq_refl).
  - reflexivity.
  - apply sample_backup_apart.
  - exact sample_size_inv.
Defined.

End LoggerSamples.
